(** * The research workflow controller of the Gemini research agent

    A shallow embedding of [App.tsx] (the controller: [startResearch],
    [stopResearch], [runSearchAndCompileLoop], [handleFollowUp],
    [handleError]) and of [services/geminiService.ts] (the five service
    wrappers around [ai.models.generateContent]).

    The controller is asynchronous.  Every [await] of the source is a
    suspension point; between two suspension points JavaScript runs the code
    without interruption.  The embedding therefore cuts each async function at
    its awaits: a suspended call is a [Task] that remembers the variables its
    closure captured, and the event [Settle] delivers the outcome of the
    outstanding [generateContent] call and runs the task up to its next await.
    User actions ([StartResearch], [StopResearch], [HandleFollowUp],
    [SetTopic]) are the other events, so every interleaving the event loop
    allows is a list of events.

    The pure parts of the components are embedded as well: the step statuses
    and the progress line of [StepIndicator], the details block of
    [LogViewer], the grade badge and the source labels of [MarkdownReport],
    and the prompts [searchAndCompile] and [askFollowUp] build. *)

From Stdlib Require Import ZArith QArith Qminmax Ascii String DecimalString.
From stdpp Require Import base list strings gmap.

Local Open Scope string_scope.
Local Open Scope Z_scope.
Local Open Scope nat_scope.

(** ** Strings as JavaScript has them

    A string is a sequence of code units; the model holds the code units
    below 256. *)

Definition dquote : string := String "034"%char EmptyString.
Definition newline : string := String "010"%char EmptyString.

(** [!!s] of JavaScript: the empty string is the only falsy string. *)
Definition truthy (s : string) : bool := negb (String.eqb s "").

(** A value that may be [undefined]. *)
Definition truthy_opt (o : option string) : bool :=
  match o with
  | Some s => truthy s
  | None => false
  end.

(** White space and line terminators that [String.prototype.trim] removes
    (tab, line feed, vertical tab, form feed, carriage return, space,
    no-break space). *)
Definition isWhiteSpace (c : ascii) : bool :=
  let n := nat_of_ascii c in
  (n =? 9) || (n =? 10) || (n =? 11) || (n =? 12) || (n =? 13) || (n =? 32) || (n =? 160).

Fixpoint trimStart (l : list ascii) : list ascii :=
  match l with
  | [] => []
  | c :: l' => if isWhiteSpace c then trimStart l' else l
  end.

Definition trim (s : string) : string :=
  string_of_list_ascii
    (rev (trimStart (rev (trimStart (list_ascii_of_string s))))).

(** [`${n}`] for a non-negative integer and for an integer. *)
Definition show_nat (n : nat) : string := NilZero.string_of_uint (Nat.to_uint n).
Definition show_Z (z : Z) : string := NilZero.string_of_int (Z.to_int z).

(** ** types.ts *)

Inductive AgentState : Type :=
  | IDLE
  | BRAINSTORMING
  | REFLECTING
  | SEARCHING
  | COMPILING
  | REVIEWING
  | REWRITING
  | COMPLETED
  | ERROR.

#[global] Instance AgentState_eq_dec : EqDecision AgentState.
Proof. solve_decision. Defined.

Record SearchQuery : Type := mkSearchQuery {
  query : string;
  rationale : string
}.

(** An entry of [ResearchReport.sources].  At run time it is the [web] object
    of a grounding chunk, whose fields may be missing. *)
Record Web : Type := mkWeb {
  uri : option string;
  title : option string
}.

Record ResearchReport : Type := mkReport {
  report_topic : string;
  report_markdown : string;
  report_sources : list Web;
  report_score : option Z;
  report_feedback : option string;
  report_version : nat
}.

Record ReviewResult : Type := mkReview {
  score : Z;
  feedback : string;
  approved : bool
}.

(** The [details] payloads the controller logs. *)
Inductive Details : Type :=
  | NoDetails
  | DetailQueries (qs : list SearchQuery)
  | DetailNumber (n : nat)
  | DetailText (s : string)
  | DetailFeedback (f : option string)
  | DetailNewSources (newSourcesFound : nat).

(** [id] (a random UUID) and [timestamp] (the clock) are left out: no code
    reads them. *)
Record LogEntry : Type := mkLog {
  step : AgentState;
  message : string;
  details : Details
}.

(** A thrown value: an [Error] with its [name] and [message]. *)
Record JsError : Type := mkError {
  err_name : string;
  err_message : string
}.

(** [new Error(msg)] *)
Definition Error (msg : string) : JsError := mkError "Error" msg.

(** [String(error)], that is [Error.prototype.toString]. *)
Definition String_of_error (e : JsError) : string :=
  if String.eqb (err_name e) "" then err_message e
  else if String.eqb (err_message e) "" then err_name e
  else err_name e ++ ": " ++ err_message e.

(** ** The response of [ai.models.generateContent] *)

Record GroundingChunk : Type := mkChunk {
  web : option Web
}.

Record GroundingMetadata : Type := mkGroundingMetadata {
  groundingChunks : option (list GroundingChunk)
}.

Record Candidate : Type := mkCandidate {
  groundingMetadata : option GroundingMetadata
}.

Record GenerateContentResponse : Type := mkResponse {
  text : option string;
  candidates : option (list Candidate)
}.

(** What an outstanding call settles with: rejected with an error, or
    fulfilled with a response. *)
Definition Outcome : Type := JsError + GenerateContentResponse.

(** ** The JavaScript [Map] and [Set] the services use

    A [Map] iterates in insertion order: setting a key that is present
    replaces its value and keeps its position, a new key goes last. *)

Section JsMap.
Context {K V : Type} `{EqDecision K}.

Fixpoint Map_set (m : list (K * V)) (k : K) (v : V) : list (K * V) :=
  match m with
  | [] => [(k, v)]
  | (k', v') :: m' =>
      if decide (k' = k) then (k', v) :: m' else (k', v') :: Map_set m' k v
  end.

(** [new Map(entries)] *)
Definition Map_new (entries : list (K * V)) : list (K * V) :=
  fold_left (fun m e => Map_set m e.1 e.2) entries [].

(** [Array.from(m.values())] *)
Definition Map_values (m : list (K * V)) : list V := map snd m.
End JsMap.

(** ** The state the controller runs on

    The React state of [App] ([topic], [state], [logs], [report],
    [queries]), its two refs, the [AbortController] objects allocated so far
    (an object is its index; the flag is [signal.aborted]) and the async
    calls in flight. *)

(** A suspended async call of the controller, with the variables its
    continuation uses.  The optional [signal] parameter of
    [runSearchAndCompileLoop] and [askFollowUp] is supplied at every call
    site, so it is not optional here. *)
Inductive Task : Type :=
  | AwaitBrainstorm (topic_ : string) (signal : nat)
  | AwaitReflect (topic_ : string) (signal : nat)
  | AwaitCompile (currentTopic : string) (currentQueries : list SearchQuery)
      (feedback_ : option string) (previousReportMarkdown : option string)
      (signal : nat)
  | AwaitReview (currentTopic : string) (currentQueries : list SearchQuery)
      (markdown : string) (tempReport : ResearchReport) (signal : nat)
  | AwaitFollowUp (report_ : ResearchReport) (query_ : string) (signal : nat)
  | Finished.

Record World : Type := mkWorld {
  topic : string;
  state : AgentState;
  logs : list LogEntry;
  report : option ResearchReport;
  queries : list SearchQuery;
  retryCountRef : nat;
  abortControllerRef : option nat;
  controllers : list bool;
  tasks : list Task
}.

Definition setTopic (t : string) (w : World) : World :=
  mkWorld t (state w) (logs w) (report w) (queries w) (retryCountRef w)
    (abortControllerRef w) (controllers w) (tasks w).
Definition setState (s : AgentState) (w : World) : World :=
  mkWorld (topic w) s (logs w) (report w) (queries w) (retryCountRef w)
    (abortControllerRef w) (controllers w) (tasks w).
Definition setLogs (l : list LogEntry) (w : World) : World :=
  mkWorld (topic w) (state w) l (report w) (queries w) (retryCountRef w)
    (abortControllerRef w) (controllers w) (tasks w).
Definition setReport (r : option ResearchReport) (w : World) : World :=
  mkWorld (topic w) (state w) (logs w) r (queries w) (retryCountRef w)
    (abortControllerRef w) (controllers w) (tasks w).
Definition setQueries (q : list SearchQuery) (w : World) : World :=
  mkWorld (topic w) (state w) (logs w) (report w) q (retryCountRef w)
    (abortControllerRef w) (controllers w) (tasks w).
Definition setRetryCount (n : nat) (w : World) : World :=
  mkWorld (topic w) (state w) (logs w) (report w) (queries w) n
    (abortControllerRef w) (controllers w) (tasks w).
Definition setAbortController (c : option nat) (w : World) : World :=
  mkWorld (topic w) (state w) (logs w) (report w) (queries w) (retryCountRef w)
    c (controllers w) (tasks w).
Definition setControllers (cs : list bool) (w : World) : World :=
  mkWorld (topic w) (state w) (logs w) (report w) (queries w) (retryCountRef w)
    (abortControllerRef w) cs (tasks w).
Definition setTasks (ts : list Task) (w : World) : World :=
  mkWorld (topic w) (state w) (logs w) (report w) (queries w) (retryCountRef w)
    (abortControllerRef w) (controllers w) ts.

(** The component as first rendered. *)
Definition initial : World :=
  mkWorld "" IDLE [] None [] 0 None [] [].

(** ** Synchronous code: state and exceptions

    A computation changes the world and returns a value or throws; what it
    changed before throwing stays changed. *)

Definition M (A : Type) : Type := World -> (JsError + A) * World.

Definition ret {A : Type} (a : A) : M A := fun w => (inr a, w).

Definition bind {A B : Type} (m : M A) (k : A -> M B) : M B :=
  fun w =>
    match m w with
    | (inr a, w') => k a w'
    | (inl e, w') => (inl e, w')
    end.

Definition throw {A : Type} (e : JsError) : M A := fun w => (inl e, w).

Definition tryCatch {A : Type} (body : M A) (handler : JsError -> M A) : M A :=
  fun w =>
    match body w with
    | (inl e, w') => handler e w'
    | (inr a, w') => (inr a, w')
    end.

Definition gets {A : Type} (f : World -> A) : M A := fun w => (inr (f w), w).
Definition modify (f : World -> World) : M unit := fun w => (inr tt, f w).
Definition liftE {A : Type} (r : JsError + A) : M A := fun w => (r, w).

Declare Scope js_scope.
Delimit Scope js_scope with js.
Notation "x <- m ;; k" := (bind m (fun x => k))
  (at level 100, m at next level, right associativity) : js_scope.
Notation "m ;; k" := (bind m (fun _ => k))
  (at level 100, right associativity) : js_scope.
Local Open Scope js_scope.

(** *** [AbortController] *)

(** [new AbortController()]: a fresh object, not aborted. *)
Definition newAbortController : M nat :=
  fun w => (inr (length (controllers w)), setControllers (controllers w ++ [false]) w).

(** [ac.abort()] *)
Definition abort (c : nat) : M unit :=
  modify (fun w => setControllers (<[c := true]> (controllers w)) w).

(** [signal.aborted] *)
Definition aborted (signal : nat) (w : World) : bool :=
  match controllers w !! signal with
  | Some b => b
  | None => false
  end.

(** [new Error('Aborted')] *)
Definition abortedError : JsError := Error "Aborted".

(** [if (signal.aborted) throw new Error('Aborted')] *)
Definition throwIfAborted (signal : nat) : M unit :=
  a <- gets (aborted signal) ;;
  if a then throw abortedError else ret tt.

Section Controller.
Variable JSON_parse_queries : string -> JsError + list SearchQuery.
Variable JSON_parse_review : string -> JsError + ReviewResult.

(** ** services/geminiService.ts

    Each wrapper builds a prompt, awaits [generateContent] and post-processes
    the response.  The prompt text plays no part in the controller's logic;
    the embedding keeps the part of each wrapper that runs once the call has
    settled.  [JSON.parse] is a built-in: it is a parameter of the section,
    typed by the return type the wrapper declares. *)

(** [new Error("No response from Gemini")] *)
Definition noResponse : JsError := Error "No response from Gemini".

(** [response.candidates?.[0]?.groundingMetadata?.groundingChunks || []] *)
Definition groundingChunks_of (response : GenerateContentResponse) : list GroundingChunk :=
  match candidates response with
  | Some (c :: _) =>
      match groundingMetadata c with
      | Some gm =>
          match groundingChunks gm with
          | Some chunks => chunks
          | None => []
          end
      | None => []
      end
  | _ => []
  end.

(** [web && web.uri && web.title] *)
Definition keepWeb (w : option Web) : option Web :=
  match w with
  | Some s => if truthy_opt (uri s) && truthy_opt (title s) then Some s else None
  | None => None
  end.

(** [groundingChunks.map(chunk => chunk.web).filter(web => ...)] *)
Definition extractSources (chunks : list GroundingChunk) : list Web :=
  omap keepWeb (map web chunks).

(** [Array.from(new Map(sources.map(s => [s.uri, s])).values())] *)
Definition uniqueSources (sources : list Web) : list Web :=
  Map_values (Map_new (map (fun s => (uri s, s)) sources)).

Definition brainstormQueries (outcome : Outcome) : JsError + list SearchQuery :=
  match outcome with
  | inl e => inl e
  | inr response =>
      match text response with
      | Some t => if truthy t then JSON_parse_queries t else inl noResponse
      | None => inl noResponse
      end
  end.

Definition reflectAndRefineQueries (outcome : Outcome) : JsError + list SearchQuery :=
  match outcome with
  | inl e => inl e
  | inr response =>
      match text response with
      | Some t => if truthy t then JSON_parse_queries t else inl noResponse
      | None => inl noResponse
      end
  end.

Definition searchAndCompile (outcome : Outcome) : JsError + (string * list Web) :=
  match outcome with
  | inl e => inl e
  | inr response =>
      let sources := extractSources (groundingChunks_of response) in
      let unique := uniqueSources sources in
      match text response with
      | Some t => if truthy t then inr (t, unique) else inl noResponse
      | None => inl noResponse
      end
  end.

Definition reviewReport (outcome : Outcome) : JsError + ReviewResult :=
  match outcome with
  | inl e => inl e
  | inr response =>
      match text response with
      | Some t => if truthy t then JSON_parse_review t else inl noResponse
      | None => inl noResponse
      end
  end.

(** [askFollowUp], before its call of [generateContent] and after it. *)
Definition askFollowUp_call (signal : nat) : M unit :=
  throwIfAborted signal.

Definition askFollowUp (signal : nat) (outcome : Outcome) : M (string * list Web) :=
  response <- liftE outcome ;;
  throwIfAborted signal ;;
  let sources := extractSources (groundingChunks_of response) in
  let unique := uniqueSources sources in
  match text response with
  | Some t => if truthy t then ret (t, unique) else throw noResponse
  | None => throw noResponse
  end.

(** ** App.tsx *)

Definition MAX_RETRIES : nat := 2.

(** [error.message === 'Aborted' || error.name === 'AbortError'] *)
Definition isAbort (error : JsError) : bool :=
  String.eqb (err_message error) "Aborted" || String.eqb (err_name error) "AbortError".

Definition addLog (step_ : AgentState) (message_ : string) (details_ : Details) : M unit :=
  modify (fun w => setLogs (logs w ++ [mkLog step_ message_ details_]) w).

Definition handleError (error : JsError) : M unit :=
  if isAbort error then
    addLog IDLE "Research stopped by user." NoDetails ;;
    modify (setState IDLE)
  else
    modify (setState ERROR) ;;
    addLog ERROR "An error occurred"
      (DetailText (if truthy (err_message error) then err_message error
                   else String_of_error error)).

Definition stopResearch : M unit :=
  ref <- gets abortControllerRef ;;
  match ref with
  | Some c =>
      abort c ;;
      modify (setAbortController None)
  | None => ret tt
  end.

(** [new Set(report.sources.map(s => s.uri))] and the merge of
    [handleFollowUp]. *)
Definition existingUris (r : ResearchReport) : gset (option string) :=
  list_to_set (map uri (report_sources r)).

Definition newUniqueSources (r : ResearchReport) (sources : list Web) : list Web :=
  List.filter (fun s => negb (bool_decide (uri s ∈ existingUris r))) sources.

Definition updatedSources (r : ResearchReport) (sources : list Web) : list Web :=
  report_sources r ++ newUniqueSources r sources.

Definition followUpMarkdown (r : ResearchReport) (query_ answer : string) : string :=
  report_markdown r ++ newline ++ newline ++ "---" ++ newline ++ newline
    ++ "### Follow-up: " ++ query_ ++ newline ++ newline ++ answer.

(** *** [runSearchAndCompileLoop]

    From its entry to the await of [searchAndCompile]. *)
Definition runSearchAndCompileLoop (currentTopic : string)
    (currentQueries : list SearchQuery) (feedback_ : option string)
    (previousReportMarkdown : option string) (signal : nat) : M Task :=
  throwIfAborted signal ;;
  let isRetry := truthy_opt feedback_ in
  modify (setState (if isRetry then REWRITING else SEARCHING)) ;;
  (if isRetry then
     n <- gets retryCountRef ;;
     addLog REWRITING
       ("Rewriting report (Attempt " ++ show_nat n ++ "/" ++ show_nat MAX_RETRIES ++ ")...")
       (DetailFeedback feedback_)
   else
     addLog SEARCHING "Searching web (via Google Grounding) and compiling report..."
       NoDetails) ;;
  (if negb isRetry then modify (setState COMPILING) else ret tt) ;;
  ret (AwaitCompile currentTopic currentQueries feedback_ previousReportMarkdown signal).

(** From the result of [searchAndCompile] to the await of [reviewReport]. *)
Definition runSearchAndCompileLoop_compiled (currentTopic : string)
    (currentQueries : list SearchQuery) (signal : nat) (outcome : Outcome) : M Task :=
  r <- liftE (searchAndCompile outcome) ;;
  let markdown := r.1 in
  let sources := r.2 in
  throwIfAborted signal ;;
  addLog COMPILING "Report compiled. Sources found:" (DetailNumber (length sources)) ;;
  n <- gets retryCountRef ;;
  let tempReport := mkReport currentTopic markdown sources None None (n + 1) in
  modify (setReport (Some tempReport)) ;;
  modify (setState REVIEWING) ;;
  addLog REVIEWING "Sending report to reviewer agent..." NoDetails ;;
  ret (AwaitReview currentTopic currentQueries markdown tempReport signal).

(** [{ ...tempReport, score: review.score, feedback: review.feedback }] *)
Definition scoredReport (tempReport : ResearchReport) (review : ReviewResult) : ResearchReport :=
  mkReport (report_topic tempReport) (report_markdown tempReport)
    (report_sources tempReport) (Some (score review)) (Some (feedback review))
    (report_version tempReport).

(** From the result of [reviewReport] to the end of the pass: the recursive
    call runs up to its own await of [searchAndCompile]. *)
Definition runSearchAndCompileLoop_reviewed (currentTopic : string)
    (currentQueries : list SearchQuery) (markdown : string)
    (tempReport : ResearchReport) (signal : nat) (outcome : Outcome) : M Task :=
  review <- liftE (reviewReport outcome) ;;
  throwIfAborted signal ;;
  addLog REVIEWING ("Review Complete. Score: " ++ show_Z (score review) ++ "/5")
    (DetailText (feedback review)) ;;
  modify (setReport (Some (scoredReport tempReport review))) ;;
  n <- gets retryCountRef ;;
  if (score review <? 4)%Z && (n <? MAX_RETRIES) then
    modify (setRetryCount (n + 1)) ;;
    addLog REVIEWING "Score too low (<4). Initiating rewrite loop." NoDetails ;;
    runSearchAndCompileLoop currentTopic currentQueries (Some (feedback review))
      (Some markdown) signal
  else
    (if (score review <? 4)%Z then
       addLog COMPLETED "Max retries reached. Finalizing report despite low score."
         NoDetails
     else
       addLog COMPLETED "Report approved! Research complete." NoDetails) ;;
    modify (setState COMPLETED) ;;
    ret Finished.

(** *** [startResearch]

    The body after the guard on the topic, up to the await of
    [brainstormQueries]. *)
Definition startResearch_body (topic_ : string) : M Task :=
  stopResearch ;;
  ac <- newAbortController ;;
  modify (setAbortController (Some ac)) ;;
  let signal := ac in
  modify (setState BRAINSTORMING) ;;
  modify (setLogs []) ;;
  modify (setReport None) ;;
  modify (setQueries []) ;;
  modify (setRetryCount 0) ;;
  addLog IDLE ("Starting research on: " ++ dquote ++ topic_ ++ dquote) NoDetails ;;
  tryCatch
    (throwIfAborted signal ;;
     addLog BRAINSTORMING "Brainstorming search queries..." NoDetails ;;
     ret (AwaitBrainstorm topic_ signal))
    (fun error => handleError error ;; ret Finished).

(** From the result of [brainstormQueries] to the await of
    [reflectAndRefineQueries]. *)
Definition startResearch_brainstormed (topic_ : string) (signal : nat)
    (outcome : Outcome) : M Task :=
  initialQueries <- liftE (brainstormQueries outcome) ;;
  throwIfAborted signal ;;
  addLog BRAINSTORMING
    ("Generated " ++ show_nat (length initialQueries) ++ " initial queries")
    (DetailQueries initialQueries) ;;
  modify (setState REFLECTING) ;;
  addLog REFLECTING "Reflecting and refining queries..." NoDetails ;;
  ret (AwaitReflect topic_ signal).

(** From the result of [reflectAndRefineQueries] into the loop. *)
Definition startResearch_reflected (topic_ : string) (signal : nat)
    (outcome : Outcome) : M Task :=
  refinedQueries <- liftE (reflectAndRefineQueries outcome) ;;
  throwIfAborted signal ;;
  modify (setQueries refinedQueries) ;;
  addLog REFLECTING
    ("Selected top " ++ show_nat (length refinedQueries) ++ " queries")
    (DetailQueries refinedQueries) ;;
  runSearchAndCompileLoop topic_ refinedQueries None None signal.

(** *** [handleFollowUp] *)

(** The [catch] clause of [handleFollowUp]. *)
Definition handleFollowUp_catch (error : JsError) : M Task :=
  (if isAbort error then
     addLog COMPLETED "Follow-up stopped by user." NoDetails ;;
     modify (setState COMPLETED)
   else
     handleError error ;;
     modify (setState COMPLETED)) ;;
  ret Finished.

(** The body after the guard on the report, up to the await of
    [askFollowUp]. *)
Definition handleFollowUp_body (report_ : ResearchReport) (query_ : string) : M Task :=
  stopResearch ;;
  ac <- newAbortController ;;
  modify (setAbortController (Some ac)) ;;
  let signal := ac in
  modify (setState SEARCHING) ;;
  addLog SEARCHING ("Processing follow-up question: " ++ dquote ++ query_ ++ dquote)
    NoDetails ;;
  tryCatch
    (askFollowUp_call signal ;;
     ret (AwaitFollowUp report_ query_ signal))
    handleFollowUp_catch.

(** From the result of [askFollowUp] to the end. *)
Definition handleFollowUp_answered (report_ : ResearchReport) (query_ : string)
    (signal : nat) (outcome : Outcome) : M Task :=
  tryCatch
    (r <- askFollowUp signal outcome ;;
     let answer := r.1 in
     let sources := r.2 in
     let newMarkdown := followUpMarkdown report_ query_ answer in
     modify (setReport (Some (mkReport (report_topic report_) newMarkdown
                                (updatedSources report_ sources)
                                (report_score report_) (report_feedback report_)
                                (report_version report_)))) ;;
     addLog COMPLETED "Follow-up answer added to report."
       (DetailNewSources (length (newUniqueSources report_ sources))) ;;
     modify (setState COMPLETED) ;;
     ret Finished)
    handleFollowUp_catch.

(** ** The event loop *)

(** Run a task on the outcome of its outstanding call, up to its next await.
    Everything [startResearch] awaits is inside its [try]. *)
Definition resume (t : Task) (outcome : Outcome) : M Task :=
  match t with
  | AwaitBrainstorm topic_ signal =>
      tryCatch (startResearch_brainstormed topic_ signal outcome)
        (fun error => handleError error ;; ret Finished)
  | AwaitReflect topic_ signal =>
      tryCatch (startResearch_reflected topic_ signal outcome)
        (fun error => handleError error ;; ret Finished)
  | AwaitCompile currentTopic currentQueries _ _ signal =>
      tryCatch (runSearchAndCompileLoop_compiled currentTopic currentQueries signal outcome)
        (fun error => handleError error ;; ret Finished)
  | AwaitReview currentTopic currentQueries markdown tempReport signal =>
      tryCatch
        (runSearchAndCompileLoop_reviewed currentTopic currentQueries markdown
           tempReport signal outcome)
        (fun error => handleError error ;; ret Finished)
  | AwaitFollowUp report_ query_ signal =>
      handleFollowUp_answered report_ query_ signal outcome
  | Finished => ret Finished
  end.

(** Where a call leaves its task: suspended at an await, or over (returned,
    or rejected with an error nobody awaits). *)
Definition settled_task (r : JsError + Task) : Task :=
  match r with
  | inr t => t
  | inl _ => Finished
  end.

(** A call of an async function: a new task. *)
Definition launch (body : M Task) (w : World) : World :=
  let (r, w') := body w in
  setTasks (tasks w' ++ [settled_task r]) w'.

(** A task runs on. *)
Definition continue (tid : nat) (body : M Task) (w : World) : World :=
  let (r, w') := body w in
  setTasks (<[tid := settled_task r]> (tasks w')) w'.

Definition startResearch (w : World) : World :=
  if negb (truthy (trim (topic w))) then w
  else launch (startResearch_body (topic w)) w.

Definition handleFollowUp (query_ : string) (w : World) : World :=
  match report w with
  | None => w
  | Some report_ => launch (handleFollowUp_body report_ query_) w
  end.

Inductive Event : Type :=
  | SetTopic (t : string)
  | StartResearch
  | StopResearch
  | HandleFollowUp (query_ : string)
  | Settle (tid : nat) (outcome : Outcome).

Definition react (w : World) (e : Event) : World :=
  match e with
  | SetTopic t => setTopic t w
  | StartResearch => startResearch w
  | StopResearch => (stopResearch w).2
  | HandleFollowUp q => handleFollowUp q w
  | Settle tid outcome =>
      match tasks w !! tid with
      | Some t => continue tid (resume t outcome) w
      | None => w
      end
  end.

Definition run (w : World) (events : list Event) : World :=
  fold_left react events w.

(** ** Vocabulary of the proofs *)

(** *** Duplicates *)

(** Keep the first occurrence of every element, drop the later ones. *)
Fixpoint firstSeen {A : Type} `{EqDecision A} (l : list A) : list A :=
  match l with
  | [] => []
  | x :: l' => x :: filter (λ y, y ≠ x) (firstSeen l')
  end.

(** The last entry of [l] that carries the uri [u]. *)
Definition lastWith (u : option string) (l : list Web) : option Web :=
  last (filter (λ s, uri s = u) l).

(** The first entry of [l] that carries the uri [u]. *)
Definition firstWith (u : option string) (l : list Web) : option Web :=
  head (filter (λ s, uri s = u) l).

Definition entries_of (sources : list Web) : list (option string * Web) :=
  (λ s, (uri s, s)) <$> sources.

(** *** Tasks *)

(** The tasks of [startResearch] and [runSearchAndCompileLoop]. *)
Definition is_main (t : Task) : bool :=
  match t with
  | AwaitBrainstorm _ _ | AwaitReflect _ _ | AwaitCompile _ _ _ _ _
  | AwaitReview _ _ _ _ _ => true
  | AwaitFollowUp _ _ _ | Finished => false
  end.

Definition signal_of (t : Task) : option nat :=
  match t with
  | AwaitBrainstorm _ s | AwaitReflect _ s | AwaitCompile _ _ _ _ s
  | AwaitReview _ _ _ _ s | AwaitFollowUp _ _ s => Some s
  | Finished => None
  end.

(** The task [tid] is left at [t]. *)
Definition park (tid : nat) (t : Task) (w : World) : World :=
  setTasks (<[tid := t]> (tasks w)) w.

(** *** What each segment leaves

    The world after each piece of synchronous code, written out; the lemmas
    [resume_brainstormed], [resume_reflected], [resume_compiled],
    [resume_reviewed], [resume_answered], [resume_thrown_main] and
    [resume_thrown_followUp] show that the code computes them. *)

Definition stoppedEntry : LogEntry := mkLog IDLE "Research stopped by user." NoDetails.

Definition errorEntry (error : JsError) : LogEntry :=
  mkLog ERROR "An error occurred"
    (DetailText (if truthy (err_message error) then err_message error
                 else String_of_error error)).

(** The world [handleError] leaves. *)
Definition errorWorld (error : JsError) (w : World) : World :=
  if isAbort error then setState IDLE (setLogs (logs w ++ [stoppedEntry]) w)
  else setLogs (logs w ++ [errorEntry error]) (setState ERROR w).

(** The world [stopResearch] leaves. *)
Definition stoppedWorld (w : World) : World :=
  match abortControllerRef w with
  | Some c => setAbortController None (setControllers (<[c := true]> (controllers w)) w)
  | None => w
  end.

(** The world the entry of [runSearchAndCompileLoop] leaves. *)
Definition enteredWorld (feedback_ : option string) (w : World) : World :=
  if truthy_opt feedback_ then
    setLogs (logs w ++ [mkLog REWRITING
      ("Rewriting report (Attempt " ++ show_nat (retryCountRef w) ++ "/"
         ++ show_nat MAX_RETRIES ++ ")...") (DetailFeedback feedback_)])
      (setState REWRITING w)
  else
    setState COMPILING
      (setLogs (logs w ++ [mkLog SEARCHING
         "Searching web (via Google Grounding) and compiling report..." NoDetails])
         (setState SEARCHING w)).

(** The world after [brainstormQueries] returned [qs] to a live run. *)
Definition brainstormedWorld (qs : list SearchQuery) (w : World) : World :=
  setLogs ((logs w ++ [mkLog BRAINSTORMING
              ("Generated " ++ show_nat (length qs) ++ " initial queries")
              (DetailQueries qs)])
           ++ [mkLog REFLECTING "Reflecting and refining queries..." NoDetails])
    (setState REFLECTING w).

(** The world after [reflectAndRefineQueries] returned [qs] to a live run,
    before the loop is entered. *)
Definition reflectedWorld (qs : list SearchQuery) (w : World) : World :=
  setLogs (logs w ++ [mkLog REFLECTING
             ("Selected top " ++ show_nat (length qs) ++ " queries")
             (DetailQueries qs)])
    (setQueries qs w).

Definition tempReport_of (currentTopic markdown : string) (sources : list Web)
    (w : World) : ResearchReport :=
  mkReport currentTopic markdown sources None None (retryCountRef w + 1).

(** The world after [searchAndCompile] returned to a live run. *)
Definition compiledWorld (currentTopic markdown : string) (sources : list Web)
    (w : World) : World :=
  setLogs ((logs w ++ [mkLog COMPILING "Report compiled. Sources found:"
                         (DetailNumber (length sources))])
           ++ [mkLog REVIEWING "Sending report to reviewer agent..." NoDetails])
    (setState REVIEWING
       (setReport (Some (tempReport_of currentTopic markdown sources w)) w)).

(** The world after [reviewReport] returned to a live run, up to the
    decision. *)
Definition reviewedWorld (tempReport : ResearchReport) (review : ReviewResult)
    (w : World) : World :=
  setReport (Some (scoredReport tempReport review))
    (setLogs (logs w ++ [mkLog REVIEWING
                ("Review Complete. Score: " ++ show_Z (score review) ++ "/5")
                (DetailText (feedback review))]) w).

Definition rewriteEntry : LogEntry :=
  mkLog REVIEWING "Score too low (<4). Initiating rewrite loop." NoDetails.

(** The branch that loops back, before the loop is re-entered. *)
Definition retryWorld (w : World) : World :=
  setLogs (logs w ++ [rewriteEntry]) (setRetryCount (retryCountRef w + 1) w).

(** The branch that finishes. *)
Definition completedWorld (review : ReviewResult) (w : World) : World :=
  setState COMPLETED
    (setLogs (logs w ++ [mkLog COMPLETED
       (if (score review <? 4)%Z
        then "Max retries reached. Finalizing report despite low score."
        else "Report approved! Research complete.") NoDetails]) w).

(** [review.score < 4 && retryCountRef.current < MAX_RETRIES] *)
Definition loopsBack (review : ReviewResult) (w : World) : bool :=
  (score review <? 4)%Z && (retryCountRef w <? MAX_RETRIES).

Definition answeredReport (report_ : ResearchReport) (query_ answer : string)
    (sources : list Web) : ResearchReport :=
  mkReport (report_topic report_) (followUpMarkdown report_ query_ answer)
    (updatedSources report_ sources) (report_score report_)
    (report_feedback report_) (report_version report_).

(** The world after [askFollowUp] returned to a live follow-up. *)
Definition answeredWorld (report_ : ResearchReport) (query_ answer : string)
    (sources : list Web) (w : World) : World :=
  setState COMPLETED
    (setLogs (logs w ++ [mkLog COMPLETED "Follow-up answer added to report."
                (DetailNewSources (length (newUniqueSources report_ sources)))])
       (setReport (Some (answeredReport report_ query_ answer sources)) w)).

(** The world the [catch] clause of [handleFollowUp] leaves. *)
Definition followUpCaughtWorld (error : JsError) (w : World) : World :=
  setState COMPLETED
    (if isAbort error then
       setLogs (logs w ++ [mkLog COMPLETED "Follow-up stopped by user." NoDetails]) w
     else errorWorld error w).

(** The world [startResearch] leaves when it suspends at
    [brainstormQueries]. *)
Definition startedWorld (topic_ : string) (w : World) : World :=
  let w0 := stoppedWorld w in
  let ac := length (controllers w0) in
  setLogs [mkLog IDLE ("Starting research on: " ++ dquote ++ topic_ ++ dquote) NoDetails;
           mkLog BRAINSTORMING "Brainstorming search queries..." NoDetails]
    (setRetryCount 0
       (setQueries []
          (setReport None
             (setState BRAINSTORMING
                (setAbortController (Some ac)
                   (setControllers (controllers w0 ++ [false]) w0)))))).

(** The world [handleFollowUp] leaves when it suspends at [askFollowUp]. *)
Definition askedWorld (query_ : string) (w : World) : World :=
  let w0 := stoppedWorld w in
  let ac := length (controllers w0) in
  setLogs (logs w0 ++ [mkLog SEARCHING
             ("Processing follow-up question: " ++ dquote ++ query_ ++ dquote)
             NoDetails])
    (setState SEARCHING
       (setAbortController (Some ac)
          (setControllers (controllers w0 ++ [false]) w0))).

(** *** The invariant of the event loop *)

(** What the continuation of a task relies on while its signal is not
    aborted. *)
Definition task_ok (w : World) (t : Task) : Prop :=
  match t with
  | AwaitBrainstorm _ _ | AwaitReflect _ _ => report w = None
  | AwaitCompile _ _ _ _ _ => True
  | AwaitReview _ _ _ tempReport _ =>
      report w = Some tempReport
      ∧ report_version tempReport = retryCountRef w + 1
  | AwaitFollowUp report_ _ _ => report w = Some report_
  | Finished => True
  end.

Record Inv (w : World) : Prop := mkInv {
  (** every call of [startResearch] or [handleFollowUp] that suspended
      allocated one controller, and holds its signal *)
  inv_len : length (tasks w) = length (controllers w);
  inv_signal : ∀ i t, tasks w !! i = Some t → t ≠ Finished → signal_of t = Some i;
  (** only the controller in [abortControllerRef] can be not aborted *)
  inv_current : ∀ i, controllers w !! i = Some false → abortControllerRef w = Some i;
  inv_retry : retryCountRef w ≤ MAX_RETRIES;
  inv_sources : ∀ r, report w = Some r → NoDup (uri <$> report_sources r);
  inv_live : ∀ i t, tasks w !! i = Some t → controllers w !! i = Some false → task_ok w t
}.

(** Two worlds that differ in [topic], [state] and [logs] at most. *)
Definition same_core (w w' : World) : Prop :=
  report w' = report w ∧ queries w' = queries w
  ∧ retryCountRef w' = retryCountRef w
  ∧ abortControllerRef w' = abortControllerRef w
  ∧ controllers w' = controllers w ∧ tasks w' = tasks w.

(** What a main-pipeline task does once it got past the service call and the
    abort check. *)
Definition advanced (w : World) (tid : nat) (t : Task) (outcome : Outcome)
    (w' : World) : Prop :=
  match t with
  | AwaitBrainstorm tp s =>
      ∃ qs, brainstormQueries outcome = inr qs
        ∧ w' = park tid (AwaitReflect tp s) (brainstormedWorld qs w)
  | AwaitReflect tp s =>
      ∃ qs, reflectAndRefineQueries outcome = inr qs
        ∧ w' = park tid (AwaitCompile tp qs None None s)
                 (enteredWorld None (reflectedWorld qs w))
  | AwaitCompile tp qs _ _ s =>
      ∃ md srcs, searchAndCompile outcome = inr (md, srcs)
        ∧ w' = park tid (AwaitReview tp qs md (tempReport_of tp md srcs w) s)
                 (compiledWorld tp md srcs w)
  | AwaitReview tp qs md tmp s =>
      ∃ review, reviewReport outcome = inr review
        ∧ w' = if loopsBack review w then
                 park tid (AwaitCompile tp qs (Some (feedback review)) (Some md) s)
                   (enteredWorld (Some (feedback review))
                      (retryWorld (reviewedWorld tmp review w)))
               else
                 park tid Finished (completedWorld review (reviewedWorld tmp review w))
  | _ => False
  end.

(** *** Outcomes of a settled call *)

(** The error the service a main-pipeline task awaits rejects with, if it
    does. *)
Definition rejection (t : Task) (outcome : Outcome) : option JsError :=
  let failure {A : Type} (r : JsError + A) : option JsError :=
    match r with
    | inl e => Some e
    | inr _ => None
    end in
  match t with
  | AwaitBrainstorm _ _ => failure (brainstormQueries outcome)
  | AwaitReflect _ _ => failure (reflectAndRefineQueries outcome)
  | AwaitCompile _ _ _ _ _ => failure (searchAndCompile outcome)
  | AwaitReview _ _ _ _ _ => failure (reviewReport outcome)
  | AwaitFollowUp _ _ _ | Finished => None
  end.

(** The error a task's [try] block throws when its call settles with
    [outcome]: the rejection of the awaited service, or the abort check that
    follows it. *)
Definition thrown (t : Task) (outcome : Outcome) (w : World) : option JsError :=
  let check {A : Type} (r : JsError + A) (signal : nat) : option JsError :=
    match r with
    | inl e => Some e
    | inr _ => if aborted signal w then Some abortedError else None
    end in
  match t with
  | AwaitBrainstorm _ s => check (brainstormQueries outcome) s
  | AwaitReflect _ s => check (reflectAndRefineQueries outcome) s
  | AwaitCompile _ _ _ _ s => check (searchAndCompile outcome) s
  | AwaitReview _ _ _ _ s => check (reviewReport outcome) s
  | AwaitFollowUp _ _ s =>
      match outcome with
      | inl e => Some e
      | inr response =>
          if aborted s w then Some abortedError
          else if truthy_opt (text response) then None else Some noResponse
      end
  | Finished => None
  end.

(** *** Rewrite iterations *)

(** The number of rewrite iterations performed in the current run.  A call of
    [startResearch] that gets past its guard starts a run; a rewrite
    iteration is a pass entered with the feedback of a review, and it is
    performed when its compile returns and the pass goes on to its review. *)
Definition count_event (w : World) (e : Event) (n : nat) : nat :=
  match e with
  | StartResearch => if truthy (trim (topic w)) then 0 else n
  | Settle tid _ =>
      match tasks w !! tid, tasks (react w e) !! tid with
      | Some (AwaitCompile _ _ (Some _) _ _), Some (AwaitReview _ _ _ _ _) => S n
      | _, _ => n
      end
  | _ => n
  end.

Fixpoint count_rewrites (w : World) (n : nat) (events : list Event) : nat :=
  match events with
  | [] => n
  | e :: events' => count_rewrites (react w e) (count_event w e n) events'
  end.

Definition rewritesPerformed (events : list Event) : nat :=
  count_rewrites initial 0 events.

(** How the retry counter of a live task relates to the rewrite iterations
    performed so far: a rewrite pass that is compiling has been counted by
    the retry counter and not yet performed. *)
Definition counts_ok (w : World) (n : nat) (t : Task) : Prop :=
  match t with
  | AwaitCompile _ _ (Some _) _ _ => retryCountRef w = n + 1
  | AwaitBrainstorm _ _ | AwaitReflect _ _ | AwaitCompile _ _ None _ _
  | AwaitReview _ _ _ _ _ => retryCountRef w = n
  | AwaitFollowUp _ _ _ | Finished => True
  end.

Record CountInv (w : World) (n : nat) : Prop := mkCountInv {
  ci_le : n ≤ retryCountRef w;
  ci_version : ∀ r, report w = Some r → report_version r = 1 + n;
  ci_live : ∀ i t, tasks w !! i = Some t → controllers w !! i = Some false → counts_ok w n t
}.

End Controller.

(** ** What the user interface lets through

    [App] shows the Start button, and enables the topic input, only while no
    phase is running; [MarkdownReport] shows the follow-up form once a report
    exists and submits a non-blank question unless a follow-up is being
    processed. *)

Definition isRunning (w : World) : bool :=
  negb (bool_decide (state w = IDLE)) && negb (bool_decide (state w = COMPLETED))
    && negb (bool_decide (state w = ERROR)).

(** [s.includes(sub)] *)
Definition includes (s sub : string) : bool :=
  match String.index 0 sub s with
  | Some _ => true
  | None => false
  end.

(** [state === SEARCHING && logs[logs.length-1]?.message?.includes('follow-up')] *)
Definition isProcessing (w : World) : bool :=
  bool_decide (state w = SEARCHING)
    && match last (logs w) with
       | Some entry => includes (message entry) "follow-up"
       | None => false
       end.

Definition ui_enabled (w : World) (e : Event) : bool :=
  match e with
  | SetTopic _ => negb (isRunning w)
  | StartResearch => negb (isRunning w)
  | StopResearch => isRunning w
  | HandleFollowUp q =>
      match report w with
      | Some _ => truthy (trim q) && negb (isProcessing w)
      | None => false
      end
  | Settle tid _ =>
      match tasks w !! tid with
      | Some Finished | None => false
      | Some _ => true
      end
  end.

(** Every event of the list is one the interface lets through in the world
    it arrives in. *)
Fixpoint ui_trace (react_ : World -> Event -> World) (w : World) (events : list Event) : bool :=
  match events with
  | [] => true
  | e :: events' => ui_enabled w e && ui_trace react_ (react_ w e) events'
  end.

(** ** Concrete service traffic, for runs that can be evaluated

    A stand-in for [JSON.parse] on the texts below: a text that is the JSON of
    a listed value parses to that value, any other text is a syntax error. *)

Definition jstr (s : string) : string := dquote ++ s ++ dquote.

Definition json_review (r : ReviewResult) : string :=
  "{" ++ jstr "score" ++ ":" ++ show_Z (score r) ++ ","
      ++ jstr "feedback" ++ ":" ++ jstr (feedback r) ++ ","
      ++ jstr "approved" ++ ":" ++ (if approved r then "true" else "false") ++ "}".

Definition json_query (q : SearchQuery) : string :=
  "{" ++ jstr "query" ++ ":" ++ jstr (query q) ++ ","
      ++ jstr "rationale" ++ ":" ++ jstr (rationale q) ++ "}".

Definition json_queries (qs : list SearchQuery) : string :=
  "[" ++ String.concat "," (map json_query qs) ++ "]".

Definition syntaxError : JsError := mkError "SyntaxError" "Unexpected token".

Fixpoint parse_table {A : Type} (show : A -> string) (table : list A) (s : string) : JsError + A :=
  match table with
  | [] => inl syntaxError
  | a :: table' => if String.eqb (show a) s then inr a else parse_table show table' s
  end.

Definition demo_queries : list SearchQuery :=
  [mkSearchQuery "solid state battery energy density" "core metric";
   mkSearchQuery "solid state battery manufacturers 2025" "market"].

Definition review_low : ReviewResult := mkReview 3 "add depth" false.
Definition review_low_approved : ReviewResult := mkReview 3 "add depth" true.
Definition review_ok : ReviewResult := mkReview 4 "fine" true.
Definition review_mismatch : ReviewResult := mkReview 2 "thin" true.

Definition demo_parse_queries : string -> JsError + list SearchQuery :=
  parse_table json_queries [demo_queries; []].

Definition demo_parse_review : string -> JsError + ReviewResult :=
  parse_table json_review [review_low; review_low_approved; review_ok; review_mismatch].

Definition reply (t : string) (chunks : list GroundingChunk) : Outcome :=
  inr (mkResponse (Some t)
         (Some [mkCandidate (Some (mkGroundingMetadata (Some chunks)))])).

Definition chunk (u t : string) : GroundingChunk :=
  mkChunk (Some (mkWeb (Some u) (Some t))).

Definition reply_queries : Outcome := reply (json_queries demo_queries) [].
Definition reply_report : Outcome :=
  reply "# Report" [chunk "https://a" "A"; chunk "https://b" "B"; chunk "https://a" "A again"].
Definition reply_review (r : ReviewResult) : Outcome := reply (json_review r) [].
Definition reply_answer : Outcome :=
  reply "An answer" [chunk "https://a" "A"; chunk "https://c" "C"].
Definition reply_empty : Outcome := inr (mkResponse None None).
Definition reply_network_error : Outcome := inl (mkError "TypeError" "Failed to fetch").

Definition source_a : Web := mkWeb (Some "https://a") (Some "A").
Definition source_a_again : Web := mkWeb (Some "https://a") (Some "A again").
Definition source_b : Web := mkWeb (Some "https://b") (Some "B").
Definition source_c : Web := mkWeb (Some "https://c") (Some "C").

(** A run up to its first await, and up to the await of its first review. *)
Definition demo_to_brainstorm : list Event :=
  [SetTopic "batteries"; StartResearch].

Definition demo_to_review : list Event :=
  demo_to_brainstorm
    ++ [Settle 0 reply_queries; Settle 0 reply_queries; Settle 0 reply_report].

Definition demo_report : ResearchReport :=
  mkReport "batteries" "# Report" [source_a_again; source_b] None None 1.

Definition demo_brainstorm_task : Task := AwaitBrainstorm "batteries" 0.

Definition demo_compile_task : Task :=
  AwaitCompile "batteries" demo_queries None None 0.

Definition demo_review_task : Task :=
  AwaitReview "batteries" demo_queries "# Report" demo_report 0.

(** A run whose first review asks for a rewrite, up to the second review. *)
Definition demo_to_second_review : list Event :=
  demo_to_review ++ [Settle 0 (reply_review review_low); Settle 0 reply_report].

Definition demo_second_review_task : Task :=
  AwaitReview "batteries" demo_queries "# Report"
    (mkReport "batteries" "# Report" [source_a_again; source_b] None None 2) 0.

(** A follow-up asked while the first review is outstanding. *)
Definition demo_to_answer : list Event :=
  demo_to_review ++ [HandleFollowUp "why?"].

(** A follow-up asked between the first review, which scores 3, and the
    rewrite it triggers; then the answer arrives. *)
Definition demo_followUp_mid_run : list Event :=
  demo_to_review
    ++ [Settle 0 (reply_review review_low); HandleFollowUp "why?"; Settle 1 reply_answer].

(** A second start while the brainstorm call of the first is outstanding. *)
Definition demo_restart : list Event :=
  [SetTopic "batteries"; StartResearch; StartResearch].

(** The same through the interface: the follow-up cancels the first run and
    completes, which brings the Start button back while the review call of
    the first run is still outstanding. *)
Definition demo_restart_ui : list Event :=
  demo_to_answer ++ [Settle 1 reply_answer; StartResearch].

Abbreviation demo_react := (react demo_parse_queries demo_parse_review).
Abbreviation demo_run := (run demo_parse_queries demo_parse_review).

(** A review that asks for a rewrite and gives no feedback, a compile that
    finds no source, and a run up to the await of its first compile. *)
Definition review_blank : ReviewResult := mkReview 3 "" false.

Definition demo_parse_review_blank : string -> JsError + ReviewResult :=
  parse_table json_review [review_blank].

Definition reply_bare : Outcome := reply "# Report" [].

Definition demo_to_compile : list Event :=
  demo_to_brainstorm ++ [Settle 0 reply_queries; Settle 0 reply_queries].

Definition demo_followUp_task : Task := AwaitFollowUp demo_report "why?" 1.

Abbreviation demo_react_blank := (react demo_parse_queries demo_parse_review_blank).
Abbreviation demo_run_blank := (run demo_parse_queries demo_parse_review_blank).

(** ** The prompts of the grounded services

    What [searchAndCompile] and [askFollowUp] send to [generateContent], built
    from their arguments. *)

(** [queries.map(q => q.query).join(', ')] *)
Definition queryList (queries_ : list SearchQuery) : string :=
  String.concat ", " (map query queries_).

(** The section [searchAndCompile] appends for a rewrite. *)
Definition rewriteSection (previousReport previousFeedback : string) : string :=
  newline ++ newline ++ "---" ++ newline ++ "    PREVIOUS VERSION:" ++ newline ++
    "    " ++ previousReport ++ newline ++ "    " ++ newline ++
    "    FEEDBACK TO ADDRESS (CRITICAL):" ++ newline ++ "    " ++ previousFeedback ++
    newline ++ "    " ++ newline ++
    "    Please re-write the report to address the feedback specifically while maintaining the high quality parts of the original.".

Definition searchAndCompile_prompt (topic_ : string) (queries_ : list SearchQuery)
    (previousFeedback previousReport : option string) : string :=
  let prompt :=
    "Write a comprehensive, professional research report on: " ++ dquote ++ topic_ ++
    dquote ++ "." ++ newline ++ "  " ++ newline ++
    "  Use the following search angles to guide your research, but feel free to follow leads:" ++
    newline ++ "  " ++ queryList queries_ ++ newline ++ newline ++
    "  Structure the report with clear headings, bullet points, and a summary." ++
    newline ++ "  The report should be detailed and academic in tone." ++ newline ++
    "  " ++ newline ++
    "  IMPORTANT: You must use the 'googleSearch' tool to find real-time information. " ++
    newline ++ "  Cite your sources inline or at the end." in
  if truthy_opt previousFeedback && truthy_opt previousReport then
    prompt ++ rewriteSection (default "" previousReport) (default "" previousFeedback)
  else prompt.

(** [currentReport.substring(0, 20000)] *)
Definition truncatedReport (currentReport : string) : string :=
  substring 0 (Z.to_nat 20000) currentReport.

Definition askFollowUp_prompt (topic_ currentReport question : string) : string :=
  "CONTEXT:" ++ newline ++ "    The user is reading a research report on " ++ dquote ++
    topic_ ++ dquote ++ "." ++ newline ++ "    " ++ newline ++
    "    CURRENT REPORT CONTENT (Truncated):" ++ newline ++ "    " ++
    truncatedReport currentReport ++ newline ++ newline ++ "    USER QUESTION:" ++
    newline ++ "    " ++ dquote ++ question ++ dquote ++ newline ++ newline ++
    "    TASK:" ++ newline ++
    "    Answer the user's follow-up question comprehensively. " ++ newline ++
    "    You MUST use the 'googleSearch' tool to find up-to-date information if the answer is not in the context or requires external verification." ++
    newline ++ "    " ++ newline ++
    "    Format your answer in Markdown. Do not repeat the whole report. Just provide the answer.".

(** ** components/StepIndicator.tsx *)

Record Step : Type := mkStep {
  step_id : AgentState;
  step_label : string
}.

Definition steps : list Step :=
  [mkStep BRAINSTORMING "Brainstorm";
   mkStep REFLECTING "Reflect";
   mkStep SEARCHING "Search";
   mkStep COMPILING "Compile";
   mkStep REVIEWING "Review"].

(** [Array.prototype.findIndex]: the index of the first element that
    satisfies [p], or -1. *)
Fixpoint findIndex_from {A : Type} (p : A -> bool) (l : list A) (i : Z) : Z :=
  match l with
  | [] => (-1)%Z
  | x :: l' => if p x then i else findIndex_from p l' (i + 1)%Z
  end.

Definition findIndex {A : Type} (p : A -> bool) (l : list A) : Z :=
  findIndex_from p l 0%Z.

Inductive StepStatus : Type :=
  | completed
  | active
  | inactive.

#[global] Instance StepStatus_eq_dec : EqDecision StepStatus.
Proof. solve_decision. Defined.

Definition getStepStatus (currentState stepId : AgentState) : StepStatus :=
  let isComplete := bool_decide (currentState = COMPLETED) in
  let isError := bool_decide (currentState = ERROR) in
  let isRewriting := bool_decide (currentState = REWRITING) in
  if isComplete then completed
  else if isError then inactive
  else
    let stepOrder := findIndex (fun s => bool_decide (step_id s = stepId)) steps in
    let currentOrder := findIndex (fun s => bool_decide (step_id s = currentState)) steps in
    if isRewriting
       && (bool_decide (stepId = COMPILING) || bool_decide (stepId = REVIEWING))
    then active
    else if (currentOrder =? -1)%Z && negb isRewriting then inactive
    else if (currentOrder =? stepOrder)%Z then active
    else if (currentOrder >? stepOrder)%Z then completed
    else inactive.

(** The width of the progress line, in percent:
    [isComplete ? '100%' : `${Math.max(0, (findIndex / (steps.length - 1)) * 100)}%`].
    The quotients that occur are multiples of a quarter, which JavaScript
    numbers hold exactly. *)
Definition progressWidth (currentState : AgentState) : Q :=
  if bool_decide (currentState = COMPLETED) then 100%Q
  else
    Qmax 0
      ((inject_Z (findIndex (fun s => bool_decide (step_id s = currentState)) steps)
        / inject_Z (Z.of_nat (length steps) - 1)) * 100)%Q.

(** The status of every step, in the order the component draws them. *)
Definition stepStatuses (currentState : AgentState) : list StepStatus :=
  map (fun s => getStepStatus currentState (step_id s)) steps.

(** ** components/LogViewer.tsx

    [{log.details && (<pre>...</pre>)}]: for truthy details a block that holds
    the string itself or [JSON.stringify(log.details, null, 2)]; for falsy
    details React renders the value of the expression, which is nothing for
    [undefined] and for the empty string, and the text of the number for 0. *)

Inductive DetailsView : Type :=
  | NoBlock
  | BareText (s : string)
  | BlockVerbatim (s : string)
  | BlockStringified (d : Details).

(** [!!details] *)
Definition details_truthy (d : Details) : bool :=
  match d with
  | NoDetails => false
  | DetailNumber n => negb (n =? 0)
  | DetailText s => truthy s
  | DetailQueries _ | DetailFeedback _ | DetailNewSources _ => true
  end.

Definition renderDetails (d : Details) : DetailsView :=
  if details_truthy d then
    match d with
    | DetailText s => BlockVerbatim s
    | _ => BlockStringified d
    end
  else
    match d with
    | DetailNumber n => BareText (show_nat n)
    | _ => NoBlock
    end.

(** [logs.length === 0 && ...]: the placeholder line. *)
Definition showsWaiting (logs_ : list LogEntry) : bool := length logs_ =? 0.

(** ** components/MarkdownReport.tsx *)

(** [{report.score && (<div className=...>Grade: {report.score}/5</div>)}]:
    no badge without a score; a score of 0 is falsy and is rendered as the
    bare number; any other score gets a badge, green when it is at least 4. *)
Inductive GradeView : Type :=
  | NoGrade
  | BareScore (n : Z)
  | GradeBadge (green : bool) (n : Z).

Definition gradeBadge (r : ResearchReport) : GradeView :=
  match report_score r with
  | None => NoGrade
  | Some n => if (n =? 0)%Z then BareScore n else GradeBadge (4 <=? n)%Z n
  end.

(** [source.title || source.uri], the text of a source link. *)
Definition sourceLabel (s : Web) : option string :=
  if truthy_opt (title s) then title s else uri s.

(** ** What an event does, case by case

    The worlds an event can lead to, one constructor for each path through
    the handlers; [react_effect] shows that [react] follows them. *)

Definition followUpEntry (query_ : string) : LogEntry :=
  mkLog SEARCHING ("Processing follow-up question: " ++ dquote ++ query_ ++ dquote)
    NoDetails.

Definition followUpStoppedEntry : LogEntry :=
  mkLog COMPLETED "Follow-up stopped by user." NoDetails.

Section Effects.
Variable JSON_parse_queries : string -> JsError + list SearchQuery.
Variable JSON_parse_review : string -> JsError + ReviewResult.

Inductive effect (w : World) : Event -> World -> Prop :=
  | eff_setTopic t : effect w (SetTopic t) (setTopic t w)
  | eff_start_blank :
      truthy (trim (topic w)) = false -> effect w StartResearch w
  | eff_start :
      truthy (trim (topic w)) = true ->
      effect w StartResearch
        (setTasks (tasks w ++ [AwaitBrainstorm (topic w) (length (controllers w))])
           (startedWorld (topic w) w))
  | eff_stop : effect w StopResearch (stoppedWorld w)
  | eff_ask_no_report q :
      report w = None -> effect w (HandleFollowUp q) w
  | eff_ask q r :
      report w = Some r ->
      effect w (HandleFollowUp q)
        (setTasks (tasks w ++ [AwaitFollowUp r q (length (controllers w))])
           (askedWorld q w))
  | eff_no_task tid o :
      tasks w !! tid = None -> effect w (Settle tid o) w
  | eff_over tid o :
      tasks w !! tid = Some Finished -> effect w (Settle tid o) w
  | eff_thrown tid o t e :
      tasks w !! tid = Some t -> is_main t = true ->
      thrown JSON_parse_queries JSON_parse_review t o w = Some e ->
      effect w (Settle tid o) (park tid Finished (errorWorld e w))
  | eff_advanced tid o t w' :
      tasks w !! tid = Some t -> is_main t = true ->
      (forall s, signal_of t = Some s -> aborted s w = false) ->
      advanced JSON_parse_queries JSON_parse_review w tid t o w' ->
      effect w (Settle tid o) w'
  | eff_ask_thrown tid o r q s e :
      tasks w !! tid = Some (AwaitFollowUp r q s) ->
      thrown JSON_parse_queries JSON_parse_review (AwaitFollowUp r q s) o w = Some e ->
      effect w (Settle tid o) (park tid Finished (followUpCaughtWorld e w))
  | eff_answered tid response r q s answer :
      tasks w !! tid = Some (AwaitFollowUp r q s) ->
      aborted s w = false ->
      text response = Some answer -> truthy answer = true ->
      effect w (Settle tid (inr response))
        (park tid Finished
           (answeredWorld r q answer
              (uniqueSources (extractSources (groundingChunks_of response))) w)).

End Effects.

(** * Properties *)

Local Open Scope list_scope.

(** Unfold the synchronous code of the controller down to the world it
    computes. *)
Ltac js_unfold :=
  unfold resume, handleFollowUp_answered, handleFollowUp_catch, askFollowUp,
    askFollowUp_call, startResearch_brainstormed, startResearch_reflected,
    runSearchAndCompileLoop_compiled, runSearchAndCompileLoop_reviewed,
    runSearchAndCompileLoop, handleError, stopResearch, abort, throwIfAborted,
    addLog, tryCatch, bind, liftE, gets, modify, newAbortController, ret, throw;
  unfold followUpCaughtWorld, errorWorld, enteredWorld, brainstormedWorld,
    reflectedWorld, compiledWorld, reviewedWorld, retryWorld, completedWorld,
    answeredWorld, stoppedWorld, loopsBack, tempReport_of.

(** ** The [Map] idiom that removes duplicates *)

Lemma filter_all {A : Type} (P : A → Prop) `{∀ x, Decision (P x)} (l : list A) :
  (∀ x, x ∈ l → P x) → filter P l = l.
Proof.
  induction l as [|a l IH]; intros Hall; [done|].
  rewrite filter_cons_True by (apply Hall; left).
  f_equal. apply IH. intros x Hx. apply Hall. by right.
Qed.

Section JsMapFacts.
Context {K V : Type} `{EqDecision K}.
Implicit Types (m : list (K * V)) (k : K) (v : V).

Lemma Map_set_keys m k v :
  (Map_set m k v).*1 = if bool_decide (k ∈ m.*1) then m.*1 else (m.*1 ++ [k])%list.
Proof.
  induction m as [|[k' v'] m IH]; csimpl; [done|].
  destruct (decide (k' = k)) as [->|Hne]; csimpl.
  - by rewrite bool_decide_eq_true_2; [|left].
  - rewrite IH. destruct (decide (k ∈ m.*1)) as [Hin|Hin].
    + by rewrite !bool_decide_eq_true_2; [| right |].
    + rewrite !bool_decide_eq_false_2; [done| |done].
      intros [?|?]%elem_of_cons; congruence.
Qed.

Lemma Map_set_elem m k v k0 v0 :
  NoDup m.*1 →
  (k0, v0) ∈ Map_set m k v → (k0 = k ∧ v0 = v) ∨ (k0 ≠ k ∧ (k0, v0) ∈ m).
Proof.
  induction m as [|[k' v'] m IH]; csimpl; intros Hnd.
  - intros ?%list_elem_of_singleton. left. by simplify_eq.
  - apply NoDup_cons in Hnd as [Hk' Hnd].
    destruct (decide (k' = k)) as [->|Hne].
    + intros [?|Hin]%elem_of_cons; [left; by simplify_eq|].
      right. split; [|by right].
      intros ->. apply Hk'. by apply (list_elem_of_fmap_2 fst) in Hin.
    + intros [?|Hin]%elem_of_cons.
      * simplify_eq. right. split; [done|by left].
      * destruct (IH Hnd Hin) as [?|[? ?]]; [by left|right; split; [done|by right]].
Qed.

Lemma Map_new_snoc (entries : list (K * V)) k v :
  Map_new (entries ++ [(k, v)]) = Map_set (Map_new entries) k v.
Proof. unfold Map_new. by rewrite fold_left_app. Qed.

Lemma firstSeen_fold (l acc : list K) :
  fold_left (λ a k, if bool_decide (k ∈ a) then a else (a ++ [k])%list) l acc
  = (acc ++ filter (λ k, k ∉ acc) (firstSeen l))%list.
Proof.
  revert acc. induction l as [|x l IH]; intros acc; simpl.
  - by rewrite filter_nil, app_nil_r.
  - rewrite IH. case_bool_decide as Hx.
    + rewrite filter_cons_False by (intros Hn; by apply Hn).
      rewrite list_filter_filter. f_equal. apply list_filter_iff.
      intros y. split; [|tauto]. intros Hy. split; [done|]. by intros ->.
    + rewrite filter_cons_True by done.
      rewrite <- app_assoc. simpl. do 2 f_equal.
      rewrite list_filter_filter. apply list_filter_iff.
      intros y. rewrite not_elem_of_app, list_elem_of_singleton. tauto.
Qed.

Lemma Map_new_keys (entries : list (K * V)) :
  (Map_new entries).*1 = firstSeen entries.*1.
Proof.
  transitivity
    (fold_left (λ a k, if bool_decide (k ∈ a) then a else (a ++ [k])%list) entries.*1 []).
  - induction entries as [|[k v] entries IH] using rev_ind; [done|].
    rewrite Map_new_snoc, Map_set_keys, IH, fmap_app, fold_left_app. done.
  - rewrite firstSeen_fold. simpl. apply filter_all.
    intros ? _. apply not_elem_of_nil.
Qed.

Lemma firstSeen_NoDup (l : list K) : NoDup (firstSeen l).
Proof.
  induction l as [|x l IH]; simpl; [constructor|].
  apply NoDup_cons. split.
  - rewrite list_elem_of_filter. tauto.
  - by apply NoDup_filter.
Qed.

Lemma Map_new_NoDup (entries : list (K * V)) : NoDup (Map_new entries).*1.
Proof. rewrite Map_new_keys. apply firstSeen_NoDup. Qed.

End JsMapFacts.

(** ** Sources of a response *)

Lemma map_fmap {A B : Type} (f : A → B) (l : list A) : map f l = f <$> l.
Proof. reflexivity. Qed.

Lemma uniqueSources_unfold sources :
  uniqueSources sources = (Map_new (entries_of sources)).*2.
Proof. reflexivity. Qed.

Lemma entries_of_keys sources : (entries_of sources).*1 = uri <$> sources.
Proof. unfold entries_of. by rewrite <- list_fmap_compose. Qed.

Lemma Map_new_lastWith (sources : list Web) u s :
  (u, s) ∈ Map_new (entries_of sources) → lastWith u sources = Some s.
Proof.
  revert u s. induction sources as [|x l IH] using rev_ind; intros u s.
  - by intros ?%not_elem_of_nil.
  - unfold entries_of. rewrite fmap_app. csimpl. rewrite Map_new_snoc.
    intros Hin. apply Map_set_elem in Hin; [|apply Map_new_NoDup].
    unfold lastWith. rewrite filter_app.
    destruct Hin as [[-> ->]|[Hne Hin]].
    + rewrite filter_cons_True, filter_nil by done. by rewrite last_snoc.
    + rewrite filter_cons_False, filter_nil, app_nil_r by congruence.
      by apply IH.
Qed.

Lemma lastWith_Some u l s : lastWith u l = Some s → uri s = u ∧ s ∈ l.
Proof.
  unfold lastWith. intros Hl.
  assert (s ∈ filter (λ s, uri s = u) l) as Hin.
  { destruct (filter (λ s, uri s = u) l) as [|y f] using rev_ind; [done|].
    rewrite last_snoc in Hl. simplify_eq. apply elem_of_app. right. by left. }
  by apply list_elem_of_filter in Hin.
Qed.

(** The uris of the result are the uris of the input in first-seen order. *)
Lemma uniqueSources_uris sources :
  map uri (uniqueSources sources) = firstSeen (map uri sources).
Proof.
  rewrite uniqueSources_unfold, map_fmap.
  change (map uri sources) with (uri <$> sources).
  rewrite <- (entries_of_keys sources), <- Map_new_keys.
  assert (Forall (λ e, uri e.2 = e.1) (Map_new (entries_of sources))) as Hall.
  { apply Forall_forall. intros [u s] Hin.
    by apply Map_new_lastWith, lastWith_Some in Hin as [? _]. }
  induction Hall as [|[u s] m Hus _ IH]; csimpl; [done|]. simpl in Hus. by f_equal.
Qed.

Lemma uniqueSources_NoDup sources : NoDup (map uri (uniqueSources sources)).
Proof. rewrite uniqueSources_uris. apply firstSeen_NoDup. Qed.

(** The entry kept for a uri is the last one the input has for it. *)
Lemma uniqueSources_last sources s :
  s ∈ uniqueSources sources → lastWith (uri s) sources = Some s.
Proof.
  rewrite uniqueSources_unfold. intros Hin.
  apply list_elem_of_fmap in Hin as [[u s'] [-> Hin]]. simpl.
  pose proof (Map_new_lastWith _ _ _ Hin) as Hl.
  by destruct (lastWith_Some _ _ _ Hl) as [-> _].
Qed.

Lemma uniqueSources_elem sources s : s ∈ uniqueSources sources → s ∈ sources.
Proof. intros Hin. by apply uniqueSources_last, lastWith_Some in Hin as [_ ?]. Qed.

Lemma extractSources_elem chunks s :
  s ∈ extractSources chunks →
  truthy_opt (uri s) = true ∧ truthy_opt (title s) = true.
Proof.
  unfold extractSources. rewrite list_elem_of_omap.
  intros [[w|] [_ Hk]]; simpl in Hk; [|done].
  destruct (truthy_opt (uri w)) eqn:Hu, (truthy_opt (title w)) eqn:Ht;
    simpl in Hk; by simplify_eq.
Qed.

Lemma truthy_opt_true o : truthy_opt o = true ↔ ∃ s, o = Some s ∧ s ≠ "".
Proof.
  destruct o as [s|]; simpl; unfold truthy.
  - rewrite negb_true_iff, String.eqb_neq. split.
    + intros Hs. by exists s.
    + by intros (s' & [= ->] & Hs).
  - split; [done|]. by intros (s & ? & _).
Qed.

Lemma extractSources_chunk chunks s :
  s ∈ extractSources chunks → mkChunk (Some s) ∈ chunks.
Proof.
  unfold extractSources. rewrite list_elem_of_omap.
  intros [[w|] [Hin Hk]]; simpl in Hk; [|done].
  rewrite map_fmap in Hin. apply list_elem_of_fmap in Hin as [[c] [Hc Hin]].
  simpl in Hc. subst c.
  destruct (truthy_opt (uri w) && truthy_opt (title w)); by simplify_eq.
Qed.

(** What both grounded services return as [sources]. *)
Lemma grounded_sources_elem response s :
  s ∈ uniqueSources (extractSources (groundingChunks_of response)) →
  (∃ u t, uri s = Some u ∧ u ≠ "" ∧ title s = Some t ∧ t ≠ "")
  ∧ mkChunk (Some s) ∈ groundingChunks_of response.
Proof.
  intros Hin%uniqueSources_elem. split.
  - apply extractSources_elem in Hin as [Hu Ht].
    apply truthy_opt_true in Hu as (u & ? & ?), Ht as (t & ? & ?).
    by exists u, t.
  - by apply extractSources_chunk.
Qed.

Lemma searchAndCompile_inr outcome markdown sources :
  searchAndCompile outcome = inr (markdown, sources) →
  ∃ response, outcome = inr response ∧ text response = Some markdown
    ∧ markdown ≠ ""
    ∧ sources = uniqueSources (extractSources (groundingChunks_of response)).
Proof.
  destruct outcome as [e|response]; simpl; [done|].
  destruct (text response) as [t|] eqn:Ht; [|done].
  destruct (truthy t) eqn:Htr; [|done].
  intros [= -> <-]. exists response. split_and!; try done.
  unfold truthy in Htr. by apply negb_true_iff, String.eqb_neq in Htr.
Qed.

Lemma askFollowUp_inr signal outcome w answer sources w' :
  askFollowUp signal outcome w = (inr (answer, sources), w') →
  w' = w ∧ aborted signal w = false
  ∧ ∃ response, outcome = inr response ∧ text response = Some answer
    ∧ sources = uniqueSources (extractSources (groundingChunks_of response)).
Proof.
  unfold askFollowUp, bind, liftE, throwIfAborted, bind, gets, throw, ret.
  destruct outcome as [e|response]; [done|].
  destruct (aborted signal w); [done|].
  destruct (text response) as [t|] eqn:Ht; [|done].
  destruct (truthy t); [|done].
  intros [= -> <- <-]. split_and!; try done. by exists response.
Qed.

(** C10. For every response of the compile and of the follow-up service
    call, every entry of the returned sources list is the [web] entry of a
    grounding chunk of the response and has a uri and a title that are
    present and non-empty: a chunk without a [web] entry, or whose uri or
    title is missing or empty, contributes no source. *)
Theorem returned_sources_have_uri_and_title
    (outcome : Outcome) (body : string) (sources : list Web) (s : Web) :
  searchAndCompile outcome = inr (body, sources)
  ∨ (∃ signal w w', askFollowUp signal outcome w = (inr (body, sources), w')) →
  s ∈ sources →
  (∃ u t, uri s = Some u ∧ u ≠ "" ∧ title s = Some t ∧ t ≠ "")
  ∧ ∃ response, outcome = inr response
      ∧ mkChunk (Some s) ∈ groundingChunks_of response.
Proof.
  intros Hcall Hin.
  assert (∃ response, outcome = inr response
    ∧ sources = uniqueSources (extractSources (groundingChunks_of response)))
    as (response & -> & ->).
  { destruct Hcall as [Hc|(signal & w & w' & Hf)].
    - apply searchAndCompile_inr in Hc as (response & ? & _ & _ & ?).
      by exists response.
    - apply askFollowUp_inr in Hf as (_ & _ & response & ? & _ & ?).
      by exists response. }
  apply grounded_sources_elem in Hin as [Hfields Hchunk].
  split; [done|]. by exists response.
Qed.

Lemma returned_sources_have_uri_and_title_witness :
  (∃ u t, uri (mkWeb (Some "https://b") (Some "B")) = Some u ∧ u ≠ ""
          ∧ title (mkWeb (Some "https://b") (Some "B")) = Some t ∧ t ≠ "")
  ∧ ∃ response, reply_report = inr response
      ∧ mkChunk (Some (mkWeb (Some "https://b") (Some "B")))
          ∈ groundingChunks_of response.
Proof.
  apply (returned_sources_have_uri_and_title reply_report "# Report"
           [mkWeb (Some "https://a") (Some "A again");
            mkWeb (Some "https://b") (Some "B")]).
  - left. vm_compute. reflexivity.
  - right. left.
Defined.

(** The title-less and the chunk-less entries are dropped, an empty title
    included. *)
Example extractSources_drops :
  extractSources
    [mkChunk None;
     mkChunk (Some (mkWeb (Some "https://a") None));
     mkChunk (Some (mkWeb (Some "https://b") (Some "")));
     mkChunk (Some (mkWeb None (Some "C")));
     mkChunk (Some (mkWeb (Some "https://d") (Some "D")))]
  = [mkWeb (Some "https://d") (Some "D")].
Proof. reflexivity. Qed.

(** ** The controller, one segment at a time

    What each piece of synchronous code leaves behind, as equations. *)

Lemma handleError_eq error w : handleError error w = (inr (), errorWorld error w).
Proof. unfold handleError, errorWorld. by destruct (isAbort error). Qed.

Lemma stopResearch_eq w : stopResearch w = (inr (), stoppedWorld w).
Proof.
  unfold stopResearch, stoppedWorld, bind, gets.
  by destruct (abortControllerRef w).
Qed.

Lemma length_controllers_stoppedWorld w :
  length (controllers (stoppedWorld w)) = length (controllers w).
Proof.
  unfold stoppedWorld. destruct (abortControllerRef w); [|done].
  simpl. apply length_insert.
Qed.

Lemma lookup_fresh {A : Type} (l : list A) (x : A) : (l ++ [x]) !! length l = Some x.
Proof. by rewrite list_lookup_middle. Qed.

Lemma startResearch_body_eq topic_ w :
  startResearch_body topic_ w
  = (inr (AwaitBrainstorm topic_ (length (controllers w))), startedWorld topic_ w).
Proof.
  unfold startResearch_body, bind at 1. rewrite stopResearch_eq.
  unfold startedWorld. rewrite <- (length_controllers_stoppedWorld w).
  generalize (stoppedWorld w). intros w0.
  js_unfold. unfold aborted. simpl. by rewrite lookup_fresh.
Qed.

Lemma handleFollowUp_body_eq report_ query_ w :
  handleFollowUp_body report_ query_ w
  = (inr (AwaitFollowUp report_ query_ (length (controllers w))), askedWorld query_ w).
Proof.
  unfold handleFollowUp_body, bind at 1. rewrite stopResearch_eq.
  unfold askedWorld. rewrite <- (length_controllers_stoppedWorld w).
  generalize (stoppedWorld w). intros w0.
  js_unfold. unfold aborted. simpl. by rewrite lookup_fresh.
Qed.

Lemma startResearch_eq w :
  startResearch w
  = if truthy (trim (topic w)) then
      setTasks (tasks w ++ [AwaitBrainstorm (topic w) (length (controllers w))])
        (startedWorld (topic w) w)
    else w.
Proof.
  unfold startResearch. destruct (truthy (trim (topic w))); [|done].
  unfold launch. rewrite startResearch_body_eq. simpl.
  unfold stoppedWorld. by destruct (abortControllerRef w).
Qed.

(** [startResearch] signals the controller in place and drops it before it
    allocates its own. *)
Lemma startResearch_replaces_handle w c :
  truthy (trim (topic w)) = true →
  abortControllerRef w = Some c → c < length (controllers w) →
  controllers (startResearch w) = <[c := true]> (controllers w) ++ [false]
  ∧ abortControllerRef (startResearch w) = Some (length (controllers w))
  ∧ aborted c (startResearch w) = true
  ∧ aborted (length (controllers w)) (startResearch w) = false.
Proof.
  intros Htopic Href Hc. rewrite startResearch_eq, Htopic.
  unfold aborted. simpl. unfold stoppedWorld. rewrite Href. simpl.
  rewrite length_insert. split_and!; [done..| |].
  - rewrite lookup_app_l by (by rewrite length_insert).
    by rewrite list_lookup_insert_eq.
  - rewrite <- (length_insert (controllers w) c true). by rewrite lookup_fresh.
Qed.

Lemma handleFollowUp_eq query_ w :
  handleFollowUp query_ w
  = match report w with
    | Some r =>
        setTasks (tasks w ++ [AwaitFollowUp r query_ (length (controllers w))])
          (askedWorld query_ w)
    | None => w
    end.
Proof.
  unfold handleFollowUp. destruct (report w) as [r|]; [|done].
  unfold launch. rewrite handleFollowUp_body_eq. simpl.
  unfold stoppedWorld. by destruct (abortControllerRef w).
Qed.

(** ** The invariant of the event loop *)

Lemma same_core_errorWorld e w : same_core w (errorWorld e w).
Proof. unfold errorWorld, same_core. by destruct (isAbort e). Qed.

Lemma same_core_enteredWorld f w : same_core w (enteredWorld f w).
Proof. unfold enteredWorld, same_core. by destruct (truthy_opt f). Qed.

Lemma same_core_followUpCaughtWorld e w : same_core w (followUpCaughtWorld e w).
Proof. unfold followUpCaughtWorld, errorWorld, same_core. by destruct (isAbort e). Qed.

Lemma task_ok_same_core w w' t : same_core w w' → task_ok w t → task_ok w' t.
Proof. intros (Hr & _ & Hn & _). destruct t; simpl; by rewrite ?Hr, ?Hn. Qed.

Lemma Inv_same_core w w' : same_core w w' → Inv w → Inv w'.
Proof.
  intros Hc [H1 H2 H3 H4 H5 H6].
  pose proof Hc as (Hr & _ & Hn & Ha & Hcs & Hts).
  split; rewrite ?Hr, ?Hn, ?Ha, ?Hcs, ?Hts; try done.
  intros i t Ht Hl. eapply task_ok_same_core; eauto.
Qed.

Lemma Inv_park_finished tid w : Inv w → Inv (park tid Finished w).
Proof.
  intros [H1 H2 H3 H4 H5 H6]. split; simpl; try done.
  - by rewrite length_insert.
  - intros i t [[-> [-> _]]|[_ Ht]]%list_lookup_insert_Some Hne; [done|eauto].
  - intros i t [[-> [<- _]]|[_ Ht]]%list_lookup_insert_Some Hl; [exact I|].
    specialize (H6 i t Ht Hl). by destruct t.
Qed.

Lemma Inv_initial : Inv initial.
Proof. split; simpl; try done. unfold MAX_RETRIES. lia. Qed.

(** A task whose signal is not aborted is the task of the current
    controller. *)
Lemma live_task w tid t s :
  Inv w → tasks w !! tid = Some t → signal_of t = Some s → aborted s w = false →
  s = tid ∧ controllers w !! tid = Some false ∧ abortControllerRef w = Some tid.
Proof.
  intros Hinv Ht Hs Ha.
  assert (t ≠ Finished) as Hne by (by intros ->).
  pose proof (inv_signal _ Hinv _ _ Ht Hne) as Hs'.
  rewrite Hs in Hs'. injection Hs' as ->.
  assert (tid < length (controllers w)) as Hlt.
  { rewrite <- (inv_len _ Hinv). by eapply lookup_lt_Some. }
  apply lookup_lt_is_Some in Hlt as [b Hb].
  unfold aborted in Ha. rewrite Hb in Ha. subst b.
  split_and!; [done..|]. by apply (inv_current _ Hinv).
Qed.

(** After [stopResearch] every controller is aborted. *)
Lemma stoppedWorld_no_live w i :
  Inv w → controllers (stoppedWorld w) !! i ≠ Some false.
Proof.
  intros Hinv Hl. unfold stoppedWorld in Hl.
  destruct (abortControllerRef w) as [c|] eqn:Hc; simpl in Hl.
  - apply list_lookup_insert_Some in Hl as [[_ [? _]]|[Hne Hl]]; [done|].
    apply (inv_current _ Hinv) in Hl. congruence.
  - apply (inv_current _ Hinv) in Hl. congruence.
Qed.

(** A call of [startResearch] or [handleFollowUp] that suspends: the
    controllers are stopped, a fresh one becomes current, and the new task
    holds it. *)
Lemma Inv_launch w W t :
  Inv w →
  controllers W = controllers (stoppedWorld w) ++ [false] →
  abortControllerRef W = Some (length (controllers w)) →
  retryCountRef W ≤ MAX_RETRIES →
  (∀ r, report W = Some r → NoDup (uri <$> report_sources r)) →
  signal_of t = Some (length (controllers w)) →
  task_ok W t →
  Inv (setTasks (tasks w ++ [t]) W).
Proof.
  intros Hinv Hcs Href Hn Hsrc Hsig Hok.
  pose proof (length_controllers_stoppedWorld w) as Hlen.
  split; simpl; rewrite ?Hcs, ?Href; try done.
  - rewrite !length_app, Hlen, (inv_len _ Hinv). done.
  - intros i t' [Hold|[-> Hnew]]%lookup_snoc_Some Hne.
    + apply (inv_signal _ Hinv); [by destruct Hold|done].
    + subst t'. by rewrite (inv_len _ Hinv).
  - intros i [Hold|[Hi _]]%lookup_snoc_Some.
    + destruct Hold as [_ Hold]. by apply stoppedWorld_no_live in Hold.
    + f_equal. by rewrite Hi, Hlen.
  - intros i t' Ht' [Hold|[Hi _]]%lookup_snoc_Some.
    + destruct Hold as [_ Hold]. by apply stoppedWorld_no_live in Hold.
    + apply lookup_snoc_Some in Ht' as [[Hlt _]|[_ ->]]; [|done].
      rewrite (inv_len _ Hinv), <- Hlen in Hlt. lia.
Qed.

(** The live task moves on: nothing else is live. *)
Lemma Inv_progress w W tid t t' :
  Inv w → tasks w !! tid = Some t →
  controllers w !! tid = Some false →
  controllers W = controllers w →
  abortControllerRef W = abortControllerRef w →
  tasks W = tasks w →
  retryCountRef W ≤ MAX_RETRIES →
  (∀ r, report W = Some r → NoDup (uri <$> report_sources r)) →
  (t' ≠ Finished → signal_of t' = Some tid) →
  task_ok W t' →
  Inv (park tid t' W).
Proof.
  intros Hinv Ht Hl Hcs Href Hts Hn Hsrc Hsig Hok.
  split; simpl; rewrite ?Hcs, ?Href, ?Hts; try done.
  - rewrite length_insert. apply (inv_len _ Hinv).
  - intros i t0 [[-> [-> _]]|[_ Ht0]]%list_lookup_insert_Some Hne; [by apply Hsig|].
    by apply (inv_signal _ Hinv).
  - apply (inv_current _ Hinv).
  - intros i t0 [[-> [-> _]]|[Hne Ht0]]%list_lookup_insert_Some Hl0; [done|].
    apply (inv_current _ Hinv) in Hl, Hl0. congruence.
Qed.

(** *** The merge of [handleFollowUp] *)

Lemma newUniqueSources_filter r sources :
  newUniqueSources r sources
  = filter (λ s, uri s ∉ uri <$> report_sources r) sources.
Proof.
  unfold newUniqueSources, existingUris. rewrite map_fmap.
  induction sources as [|s l IH]; simpl; [done|].
  rewrite filter_cons, <- IH. case_bool_decide as Hin; simpl.
  - rewrite elem_of_list_to_set in Hin. by rewrite decide_False by tauto.
  - rewrite elem_of_list_to_set in Hin. by rewrite decide_True.
Qed.

Lemma NoDup_fmap_filter {A B : Type} (f : A → B) (P : A → Prop)
    `{∀ x, Decision (P x)} (l : list A) :
  NoDup (f <$> l) → NoDup (f <$> filter P l).
Proof.
  induction l as [|x l IH]; csimpl; [done|].
  intros [Hx Hnd]%NoDup_cons. rewrite filter_cons.
  destruct (decide (P x)); csimpl; [|by apply IH].
  apply NoDup_cons. split; [|by apply IH].
  intros (y & Hy & Hin)%list_elem_of_fmap. apply Hx.
  apply list_elem_of_filter in Hin as [_ Hin].
  apply list_elem_of_fmap. by exists y.
Qed.

Lemma updatedSources_NoDup r sources :
  NoDup (uri <$> report_sources r) → NoDup (uri <$> sources) →
  NoDup (uri <$> updatedSources r sources).
Proof.
  intros Hr Hs. unfold updatedSources. rewrite newUniqueSources_filter, fmap_app.
  apply NoDup_app. split_and!; [done| |by apply NoDup_fmap_filter].
  intros u Hu (s & -> & Hin)%list_elem_of_fmap.
  by apply list_elem_of_filter in Hin as [Hnot _].
Qed.

Lemma tasks_stoppedWorld w : tasks (stoppedWorld w) = tasks w.
Proof. unfold stoppedWorld. by destruct (abortControllerRef w). Qed.

Lemma report_stoppedWorld w : report (stoppedWorld w) = report w.
Proof. unfold stoppedWorld. by destruct (abortControllerRef w). Qed.

Lemma retryCountRef_stoppedWorld w : retryCountRef (stoppedWorld w) = retryCountRef w.
Proof. unfold stoppedWorld. by destruct (abortControllerRef w). Qed.

Lemma Inv_stoppedWorld w : Inv w → Inv (stoppedWorld w).
Proof.
  intros Hinv. split.
  - rewrite tasks_stoppedWorld, length_controllers_stoppedWorld. apply (inv_len _ Hinv).
  - rewrite tasks_stoppedWorld. apply (inv_signal _ Hinv).
  - intros i Hl. by apply stoppedWorld_no_live in Hl.
  - rewrite retryCountRef_stoppedWorld. apply (inv_retry _ Hinv).
  - rewrite report_stoppedWorld. apply (inv_sources _ Hinv).
  - intros i t _ Hl. by apply stoppedWorld_no_live in Hl.
Qed.

Section ControllerFacts.
Variable JSON_parse_queries : string -> JsError + list SearchQuery.
Variable JSON_parse_review : string -> JsError + ReviewResult.

Local Abbreviation resume_ := (resume JSON_parse_queries JSON_parse_review).
Local Abbreviation react_ := (react JSON_parse_queries JSON_parse_review).
Local Abbreviation run_ := (run JSON_parse_queries JSON_parse_review).
Local Abbreviation brainstormQueries_ := (brainstormQueries JSON_parse_queries).
Local Abbreviation reflectAndRefineQueries_ := (reflectAndRefineQueries JSON_parse_queries).
Local Abbreviation reviewReport_ := (reviewReport JSON_parse_review).
Local Abbreviation advanced_ := (advanced JSON_parse_queries JSON_parse_review).
Local Abbreviation thrown_ := (thrown JSON_parse_queries JSON_parse_review).
Local Abbreviation rejection_ := (rejection JSON_parse_queries JSON_parse_review).
Local Abbreviation count_event_ := (count_event JSON_parse_queries JSON_parse_review).
Local Abbreviation count_rewrites_ := (count_rewrites JSON_parse_queries JSON_parse_review).
Local Abbreviation rewritesPerformed_ :=
  (rewritesPerformed JSON_parse_queries JSON_parse_review).

Lemma resume_thrown_main t outcome w e :
  is_main t = true → thrown_ t outcome w = Some e →
  resume_ t outcome w = (inr Finished, errorWorld e w).
Proof.
  intros Hm Ht.
  destruct t; try done; simpl in Ht; js_unfold;
    [destruct (brainstormQueries_ outcome)
    |destruct (reflectAndRefineQueries_ outcome)
    |destruct (searchAndCompile outcome)
    |destruct (reviewReport_ outcome)];
    simplify_eq; try (by destruct (isAbort e));
    destruct (aborted signal w); by simplify_eq.
Qed.

Lemma resume_thrown_followUp r q s outcome w e :
  thrown_ (AwaitFollowUp r q s) outcome w = Some e →
  resume_ (AwaitFollowUp r q s) outcome w = (inr Finished, followUpCaughtWorld e w).
Proof.
  simpl. intros Ht. js_unfold.
  destruct outcome as [e'|response]; simplify_eq.
  - by destruct (isAbort e).
  - destruct (aborted s w); simplify_eq; [done|].
    destruct (text response) as [t|]; simpl in Ht.
    + destruct (truthy t); by simplify_eq.
    + by simplify_eq.
Qed.

Lemma resume_brainstormed topic_ s outcome w qs :
  brainstormQueries_ outcome = inr qs → aborted s w = false →
  resume_ (AwaitBrainstorm topic_ s) outcome w
  = (inr (AwaitReflect topic_ s), brainstormedWorld qs w).
Proof. intros Hq Ha. js_unfold. by rewrite Hq, Ha. Qed.

Lemma resume_reflected topic_ s outcome w qs :
  reflectAndRefineQueries_ outcome = inr qs → aborted s w = false →
  resume_ (AwaitReflect topic_ s) outcome w
  = (inr (AwaitCompile topic_ qs None None s),
     enteredWorld None (reflectedWorld qs w)).
Proof.
  intros Hq Ha. js_unfold. rewrite Hq, Ha.
  unfold aborted in *. simpl. by rewrite Ha.
Qed.

Lemma resume_compiled currentTopic qs f p s outcome w markdown sources :
  searchAndCompile outcome = inr (markdown, sources) → aborted s w = false →
  resume_ (AwaitCompile currentTopic qs f p s) outcome w
  = (inr (AwaitReview currentTopic qs markdown
            (tempReport_of currentTopic markdown sources w) s),
     compiledWorld currentTopic markdown sources w).
Proof. intros Hq Ha. js_unfold. by rewrite Hq, Ha. Qed.

Lemma resume_reviewed currentTopic qs markdown tempReport s outcome w review :
  reviewReport_ outcome = inr review → aborted s w = false →
  resume_ (AwaitReview currentTopic qs markdown tempReport s) outcome w
  = if loopsBack review w then
      (inr (AwaitCompile currentTopic qs (Some (feedback review)) (Some markdown) s),
       enteredWorld (Some (feedback review))
         (retryWorld (reviewedWorld tempReport review w)))
    else
      (inr Finished, completedWorld review (reviewedWorld tempReport review w)).
Proof.
  intros Hq Ha. js_unfold. rewrite Hq, Ha.
  unfold aborted in *. cbn [retryCountRef setReport setLogs].
  destruct (score review <? 4)%Z, (retryCountRef w <? MAX_RETRIES);
    cbn [andb]; try reflexivity.
  cbn [controllers setReport setLogs setRetryCount]. rewrite Ha.
  by destruct (truthy_opt (Some (feedback review))).
Qed.

Lemma resume_answered r q s outcome w response :
  outcome = inr response → truthy_opt (text response) = true →
  aborted s w = false →
  ∃ answer, text response = Some answer ∧
    resume_ (AwaitFollowUp r q s) outcome w
    = (inr Finished,
       answeredWorld r q answer
         (uniqueSources (extractSources (groundingChunks_of response))) w).
Proof.
  intros -> Ht Ha. destruct (text response) as [answer|] eqn:Hans; [|done].
  exists answer. split; [done|].
  js_unfold. rewrite Ha, Hans. simpl in Ht. by rewrite Ht.
Qed.

(** *** What a settled call does to the world *)

Lemma react_settle tid outcome w t :
  tasks w !! tid = Some t →
  react_ w (Settle tid outcome)
  = park tid (settled_task (resume_ t outcome w).1) (resume_ t outcome w).2.
Proof.
  intros Ht. simpl. rewrite Ht. unfold continue, park.
  by destruct (resume_ t outcome w).
Qed.

Lemma react_settle_thrown_main tid outcome w t e :
  tasks w !! tid = Some t → is_main t = true → thrown_ t outcome w = Some e →
  react_ w (Settle tid outcome) = park tid Finished (errorWorld e w).
Proof.
  intros Ht Hm He. rewrite (react_settle _ _ _ _ Ht).
  by rewrite (resume_thrown_main _ _ _ _ Hm He).
Qed.

Lemma react_settle_thrown_followUp tid outcome w r q s e :
  tasks w !! tid = Some (AwaitFollowUp r q s) →
  thrown_ (AwaitFollowUp r q s) outcome w = Some e →
  react_ w (Settle tid outcome) = park tid Finished (followUpCaughtWorld e w).
Proof.
  intros Ht He. rewrite (react_settle _ _ _ _ Ht).
  by rewrite (resume_thrown_followUp _ _ _ _ _ _ He).
Qed.

Lemma react_settle_finished tid outcome w :
  tasks w !! tid = Some Finished → react_ w (Settle tid outcome) = w.
Proof.
  intros Ht. rewrite (react_settle _ _ _ _ Ht). simpl. unfold park.
  rewrite list_insert_id by done. by destruct w.
Qed.

(** *** The invariant holds along every run *)

Lemma Inv_settle_main w tid t outcome :
  Inv w → tasks w !! tid = Some t → is_main t = true →
  Inv (react_ w (Settle tid outcome)).
Proof.
  intros Hinv Ht Hm.
  destruct (thrown_ t outcome w) as [e|] eqn:He.
  { rewrite (react_settle_thrown_main _ _ _ _ _ Ht Hm He).
    apply Inv_park_finished, (Inv_same_core w); [apply same_core_errorWorld|done]. }
  rewrite (react_settle _ _ _ _ Ht).
  destruct t as [tp s|tp s|tp qs f p s|tp qs md tmp s| |]; try done; simpl in He.
  - destruct (brainstormQueries_ outcome) as [|qs'] eqn:Hs; [done|].
    destruct (aborted s w) eqn:Ha; [done|].
    destruct (live_task _ _ _ _ Hinv Ht eq_refl Ha) as (-> & Hl & _).
    rewrite (resume_brainstormed _ _ _ _ _ Hs Ha). simpl.
    apply (Inv_progress w _ _ _ _ Hinv Ht Hl); simpl; try done;
      [apply (inv_retry _ Hinv)|apply (inv_sources _ Hinv)|].
    apply (inv_live _ Hinv _ _ Ht Hl).
  - destruct (reflectAndRefineQueries_ outcome) as [|qs'] eqn:Hs; [done|].
    destruct (aborted s w) eqn:Ha; [done|].
    destruct (live_task _ _ _ _ Hinv Ht eq_refl Ha) as (-> & Hl & _).
    rewrite (resume_reflected _ _ _ _ _ Hs Ha). simpl.
    apply (Inv_progress w _ _ _ _ Hinv Ht Hl); simpl; try done;
      [apply (inv_retry _ Hinv)|apply (inv_sources _ Hinv)].
  - destruct (searchAndCompile outcome) as [|[md srcs]] eqn:Hs; [done|].
    destruct (aborted s w) eqn:Ha; [done|].
    destruct (live_task _ _ _ _ Hinv Ht eq_refl Ha) as (-> & Hl & _).
    rewrite (resume_compiled _ _ _ _ _ _ _ _ _ Hs Ha). simpl.
    apply (Inv_progress w _ _ _ _ Hinv Ht Hl); simpl; try done;
      [apply (inv_retry _ Hinv)|].
    intros r [= <-]. simpl.
    apply searchAndCompile_inr in Hs as (response & _ & _ & _ & ->).
    rewrite <- map_fmap. apply uniqueSources_NoDup.
  - destruct (reviewReport_ outcome) as [|review] eqn:Hs; [done|].
    destruct (aborted s w) eqn:Ha; [done|].
    destruct (live_task _ _ _ _ Hinv Ht eq_refl Ha) as (-> & Hl & _).
    rewrite (resume_reviewed _ _ _ _ _ _ _ _ Hs Ha).
    destruct (inv_live _ Hinv _ _ Ht Hl) as [Hrep Hver].
    assert (NoDup (uri <$> report_sources tmp)) as Hnd
      by (by apply (inv_sources _ Hinv)).
    destruct (loopsBack review w) eqn:Hloop; simpl.
    + apply andb_true_iff in Hloop as [_ Hlt%Nat.ltb_lt].
      pose proof (same_core_enteredWorld (Some (feedback review))
                    (retryWorld (reviewedWorld tmp review w)))
        as (Er & _ & En & Ea & Ec & Et).
      apply (Inv_progress w _ _ _ _ Hinv Ht Hl);
        rewrite ?Er, ?En, ?Ea, ?Ec, ?Et; simpl; try done.
      * unfold MAX_RETRIES in *. lia.
      * by intros r [= <-].
    + apply (Inv_progress w _ _ _ _ Hinv Ht Hl); simpl; try done;
        [apply (inv_retry _ Hinv)|].
      by intros r [= <-].
Qed.

Lemma Inv_settle_followUp w tid r q s outcome :
  Inv w → tasks w !! tid = Some (AwaitFollowUp r q s) →
  Inv (react_ w (Settle tid outcome)).
Proof.
  intros Hinv Ht.
  destruct (thrown_ (AwaitFollowUp r q s) outcome w) as [e|] eqn:He.
  { rewrite (react_settle_thrown_followUp _ _ _ _ _ _ _ Ht He).
    apply Inv_park_finished, (Inv_same_core w);
      [apply same_core_followUpCaughtWorld|done]. }
  rewrite (react_settle _ _ _ _ Ht). simpl in He.
  destruct outcome as [|response]; [done|].
  destruct (aborted s w) eqn:Ha; [done|].
  destruct (truthy_opt (text response)) eqn:Htx; [|done].
  destruct (live_task _ _ _ _ Hinv Ht eq_refl Ha) as (-> & Hl & _).
  destruct (resume_answered r q tid _ w response eq_refl Htx Ha) as (answer & _ & ->).
  simpl. apply (Inv_progress w _ _ _ _ Hinv Ht Hl); simpl; try done;
    [apply (inv_retry _ Hinv)|].
  intros r' [= <-]. simpl. apply updatedSources_NoDup.
  - apply (inv_sources _ Hinv). apply (inv_live _ Hinv _ _ Ht Hl).
  - rewrite <- map_fmap. apply uniqueSources_NoDup.
Qed.

Lemma Inv_react w e : Inv w → Inv (react_ w e).
Proof.
  intros Hinv. destruct e as [t| | |q|tid outcome].
  - by apply (Inv_same_core w).
  - simpl. rewrite startResearch_eq. destruct (truthy (trim (topic w))); [|done].
    apply (Inv_launch w); simpl; try done.
    + by rewrite length_controllers_stoppedWorld.
    + unfold MAX_RETRIES. lia.
  - simpl. rewrite stopResearch_eq. by apply Inv_stoppedWorld.
  - simpl. rewrite handleFollowUp_eq. destruct (report w) as [r|] eqn:Hr; [|done].
    apply (Inv_launch w); simpl; try done.
    + by rewrite length_controllers_stoppedWorld.
    + rewrite retryCountRef_stoppedWorld. apply (inv_retry _ Hinv).
    + rewrite report_stoppedWorld. apply (inv_sources _ Hinv).
    + by rewrite report_stoppedWorld.
  - destruct (tasks w !! tid) as [t|] eqn:Ht; [|simpl; by rewrite Ht].
    destruct (is_main t) eqn:Hm; [by eapply Inv_settle_main|].
    destruct t; try done.
    + by eapply Inv_settle_followUp.
    + by rewrite react_settle_finished.
Qed.

Lemma Inv_run events w : Inv w → Inv (run_ w events).
Proof.
  revert w. induction events as [|e events IH]; intros w Hinv; [done|].
  simpl. by apply IH, Inv_react.
Qed.

Lemma Inv_reachable events : Inv (run_ initial events).
Proof. apply Inv_run, Inv_initial. Qed.

(** *** A settled call of the main pipeline, case by case *)

Lemma lookup_park tid t W w t0 :
  tasks W = tasks w → tasks w !! tid = Some t0 →
  tasks (park tid t W) !! tid = Some t.
Proof.
  intros Hts Ht. simpl. rewrite Hts.
  apply list_lookup_insert_eq. by eapply lookup_lt_Some.
Qed.

Lemma tasks_enteredWorld f w : tasks (enteredWorld f w) = tasks w.
Proof. apply same_core_enteredWorld. Qed.

Lemma tasks_errorWorld e w : tasks (errorWorld e w) = tasks w.
Proof. apply same_core_errorWorld. Qed.

Lemma tasks_followUpCaughtWorld e w : tasks (followUpCaughtWorld e w) = tasks w.
Proof. apply same_core_followUpCaughtWorld. Qed.

Ltac park_lookup w Ht :=
  match goal with
  | |- context [tasks (park ?tid ?t ?W) !! ?tid] =>
      rewrite (lookup_park tid t W w _
                 ltac:(first [reflexivity
                             | exact (tasks_enteredWorld _ _)
                             | exact (tasks_errorWorld _ _)
                             | exact (tasks_followUpCaughtWorld _ _)]) Ht)
  end.

Lemma thrown_main t outcome w s :
  is_main t = true → signal_of t = Some s →
  thrown_ t outcome w
  = match rejection_ t outcome with
    | Some e => Some e
    | None => if aborted s w then Some abortedError else None
    end.
Proof.
  intros Hm Hs. destruct t; try done; simpl in *; simplify_eq;
    [destruct (brainstormQueries_ outcome)
    |destruct (reflectAndRefineQueries_ outcome)
    |destruct (searchAndCompile outcome)
    |destruct (reviewReport_ outcome)]; done.
Qed.

Lemma settle_main_cases w tid t outcome :
  tasks w !! tid = Some t → is_main t = true →
  (∃ e, thrown_ t outcome w = Some e
        ∧ react_ w (Settle tid outcome) = park tid Finished (errorWorld e w))
  ∨ (thrown_ t outcome w = None
     ∧ (∀ s, signal_of t = Some s → aborted s w = false)
     ∧ advanced_ w tid t outcome (react_ w (Settle tid outcome))).
Proof.
  intros Ht Hm.
  destruct (thrown_ t outcome w) as [e|] eqn:He.
  { left. exists e. split; [done|]. by apply react_settle_thrown_main with t. }
  right. split; [done|].
  rewrite (react_settle _ _ _ _ Ht).
  destruct t as [tp s|tp s|tp qs f p s|tp qs md tmp s| |]; try done; simpl in He.
  - destruct (brainstormQueries_ outcome) as [|qs'] eqn:Hs; [done|].
    destruct (aborted s w) eqn:Ha; [done|].
    split; [by intros ? [= <-]|].
    rewrite (resume_brainstormed _ _ _ _ _ Hs Ha). by exists qs'.
  - destruct (reflectAndRefineQueries_ outcome) as [|qs'] eqn:Hs; [done|].
    destruct (aborted s w) eqn:Ha; [done|].
    split; [by intros ? [= <-]|].
    rewrite (resume_reflected _ _ _ _ _ Hs Ha). by exists qs'.
  - destruct (searchAndCompile outcome) as [|[md srcs]] eqn:Hs; [done|].
    destruct (aborted s w) eqn:Ha; [done|].
    split; [by intros ? [= <-]|].
    rewrite (resume_compiled _ _ _ _ _ _ _ _ _ Hs Ha). by exists md, srcs.
  - destruct (reviewReport_ outcome) as [|review] eqn:Hs; [done|].
    destruct (aborted s w) eqn:Ha; [done|].
    split; [by intros ? [= <-]|].
    rewrite (resume_reviewed _ _ _ _ _ _ _ _ Hs Ha). exists review.
    split; [done|]. by destruct (loopsBack review w).
Qed.

Lemma state_errorWorld e w :
  state (errorWorld e w) = if isAbort e then IDLE else ERROR.
Proof. unfold errorWorld. by destruct (isAbort e). Qed.

Lemma logs_errorWorld e w :
  logs (errorWorld e w)
  = logs w ++ [if isAbort e then stoppedEntry else errorEntry e].
Proof. unfold errorWorld. by destruct (isAbort e). Qed.

Lemma state_enteredWorld f w :
  state (enteredWorld f w) = if truthy_opt f then REWRITING else COMPILING.
Proof. unfold enteredWorld. by destruct (truthy_opt f). Qed.

(** ** The claims about the main pipeline *)

(** A main-pipeline task that is over left the phase at Idle or Error, unless
    it returned from a reviewed pass. *)
Lemma finished_completed w tid t outcome :
  tasks w !! tid = Some t → is_main t = true →
  tasks (react_ w (Settle tid outcome)) !! tid = Some Finished →
  state (react_ w (Settle tid outcome)) = COMPLETED →
  ∃ tp qs md tmp s review,
    t = AwaitReview tp qs md tmp s ∧ aborted s w = false
    ∧ reviewReport_ outcome = inr review ∧ loopsBack review w = false
    ∧ react_ w (Settle tid outcome)
      = park tid Finished (completedWorld review (reviewedWorld tmp review w)).
Proof.
  intros Ht Hm.
  destruct (settle_main_cases w tid t outcome Ht Hm)
    as [(e & _ & Hw')|(_ & Hlive & Hadv)].
  { rewrite Hw'. intros _. simpl. rewrite state_errorWorld. by destruct (isAbort e). }
  destruct t as [tp s|tp s|tp qs f p s|tp qs md tmp s| |]; try done;
    unfold advanced in Hadv.
  - destruct Hadv as (qs & _ & Hw'). rewrite Hw'. by park_lookup w Ht.
  - destruct Hadv as (qs & _ & Hw'). rewrite Hw'. by park_lookup w Ht.
  - destruct Hadv as (md & srcs & _ & Hw'). rewrite Hw'. by park_lookup w Ht.
  - destruct Hadv as (review & Hrev & Hw'). rewrite Hw'.
    destruct (loopsBack review w) eqn:Hloop.
    + by park_lookup w Ht.
    + intros _ _. exists tp, qs, md, tmp, s, review.
      split_and!; try done. by apply Hlive.
Qed.

(** C1. After a review completes, the pass loops back exactly when the score
    is below 4 and the retry counter is below [MAX_RETRIES]: the counter goes
    up by one and the loop is re-entered with the feedback and the body just
    reviewed; otherwise the phase becomes Completed. So a main-pipeline run
    that reaches Completed holds a report whose score is at least 4, or has
    its retry counter at [MAX_RETRIES]. *)
Theorem review_decision (events : list Event) (tid : nat) (t : Task) (outcome : Outcome) :
  let w := run_ initial events in
  let w' := react_ w (Settle tid outcome) in
  tasks w !! tid = Some t → is_main t = true →
  (∀ tp qs md tmp s review,
     t = AwaitReview tp qs md tmp s →
     reviewReport_ outcome = inr review → aborted s w = false →
     if (score review <? 4)%Z && (retryCountRef w <? MAX_RETRIES) then
       retryCountRef w' = retryCountRef w + 1
       ∧ tasks w' !! tid
         = Some (AwaitCompile tp qs (Some (feedback review)) (Some md) s)
       ∧ state w' ≠ COMPLETED
     else
       state w' = COMPLETED ∧ tasks w' !! tid = Some Finished
       ∧ retryCountRef w' = retryCountRef w)
  ∧ (tasks w' !! tid = Some Finished → state w' = COMPLETED →
     ∃ r sc, report w' = Some r ∧ report_score r = Some sc
       ∧ ((4 ≤ sc)%Z ∨ retryCountRef w' = MAX_RETRIES)).
Proof.
  intros w w' Ht Hm. split.
  - intros tp qs md tmp s review -> Hrev Ha.
    destruct (settle_main_cases w tid _ outcome Ht Hm)
      as [(e & He & _)|(_ & _ & Hadv)].
    { simpl in He. rewrite Hrev, Ha in He. done. }
    unfold advanced in Hadv. destruct Hadv as (review' & Hrev' & Hw').
    rewrite Hrev in Hrev'. injection Hrev' as <-.
    fold w' in Hw'. rewrite Hw'. fold (loopsBack review w).
    destruct (loopsBack review w).
    + pose proof (same_core_enteredWorld (Some (feedback review))
                    (retryWorld (reviewedWorld tmp review w)))
        as (_ & _ & En & _ & _ & Et).
      split_and!.
      * simpl. by rewrite En.
      * by park_lookup w Ht.
      * simpl. rewrite state_enteredWorld. by destruct (truthy_opt _).
    + split_and!; [done| |done]. by park_lookup w Ht.
  - intros Hfin Hst.
    destruct (finished_completed w tid t outcome Ht Hm Hfin Hst)
      as (tp & qs & md & tmp & s & review & -> & Ha & Hrev & Hloop & Hw').
    fold w' in Hw'. rewrite Hw'. simpl.
    exists (scoredReport tmp review), (score review). split_and!; try done.
    pose proof (inv_retry _ (Inv_reachable events)) as Hle. fold w in Hle.
    apply andb_false_iff in Hloop as [Hsc%Z.ltb_ge|Hn%Nat.ltb_ge]; [by left|].
    right. lia.
Qed.

(** *** The version counts the rewrite iterations performed *)

Lemma CountInv_same_core w w' n : same_core w w' → CountInv w n → CountInv w' n.
Proof.
  intros (Hr & _ & Hn & _ & Hcs & Hts) [H1 H2 H3].
  split; rewrite ?Hr, ?Hn, ?Hcs, ?Hts; try done.
  intros i t Ht Hl. specialize (H3 i t Ht Hl).
  destruct t as [| |? ? [?|] ? ?| | |]; simpl in *; by rewrite ?Hn.
Qed.

Lemma CountInv_park_finished tid w n : CountInv w n → CountInv (park tid Finished w) n.
Proof.
  intros [H1 H2 H3]. split; simpl; try done.
  intros i t [[-> [<- _]]|[_ Ht]]%list_lookup_insert_Some Hl; [exact I|].
  specialize (H3 i t Ht Hl). by destruct t as [| |? ? [?|] ? ?| | |].
Qed.

(** A call that suspends leaves its task as the only live one. *)
Lemma CountInv_launch w W t n :
  Inv w →
  controllers W = controllers (stoppedWorld w) ++ [false] →
  n ≤ retryCountRef W →
  (∀ r, report W = Some r → report_version r = 1 + n) →
  counts_ok W n t →
  CountInv (setTasks (tasks w ++ [t]) W) n.
Proof.
  intros Hinv Hcs Hle Hver Hok.
  pose proof (length_controllers_stoppedWorld w) as Hlen.
  split; simpl; rewrite ?Hcs; try done.
  intros i t' Ht' [Hold|[Hi _]]%lookup_snoc_Some.
  - destruct Hold as [_ Hold]. by apply stoppedWorld_no_live in Hold.
  - apply lookup_snoc_Some in Ht' as [[Hlt _]|[_ <-]].
    + rewrite (inv_len _ Hinv), <- Hlen in Hlt. lia.
    + by destruct t as [| |? ? [?|] ? ?| | |].
Qed.

(** The live task moves on. *)
Lemma CountInv_progress w W tid t t' n :
  Inv w → tasks w !! tid = Some t →
  controllers w !! tid = Some false →
  controllers W = controllers w → tasks W = tasks w →
  n ≤ retryCountRef W →
  (∀ r, report W = Some r → report_version r = 1 + n) →
  counts_ok W n t' →
  CountInv (park tid t' W) n.
Proof.
  intros Hinv Ht Hl Hcs Hts Hle Hver Hok.
  split; simpl; rewrite ?Hcs, ?Hts; try done.
  intros i t0 [[-> [<- _]]|[Hne Ht0]]%list_lookup_insert_Some Hl0.
  - by destruct t' as [| |? ? [?|] ? ?| | |].
  - apply (inv_current _ Hinv) in Hl, Hl0. congruence.
Qed.

Lemma CountInv_settle_main w tid t outcome n :
  Inv w → CountInv w n → tasks w !! tid = Some t → is_main t = true →
  CountInv (react_ w (Settle tid outcome)) (count_event_ w (Settle tid outcome) n).
Proof.
  intros Hinv Hc Ht Hm. unfold count_event. rewrite Ht.
  destruct (settle_main_cases w tid t outcome Ht Hm)
    as [(e & _ & Hw')|(_ & Hlive & Hadv)].
  { rewrite Hw'. park_lookup w Ht.
    assert (CountInv (park tid Finished (errorWorld e w)) n) as Hc'.
    { apply CountInv_park_finished, (CountInv_same_core w);
        [apply same_core_errorWorld|done]. }
    by destruct t as [| |? ? [?|] ? ?| | |]. }
  destruct t as [tp s|tp s|tp qs f p s|tp qs md tmp s| |]; try done;
    unfold advanced in Hadv;
    destruct (live_task _ _ _ _ Hinv Ht eq_refl (Hlive _ eq_refl)) as (-> & Hl & _);
    pose proof (ci_live _ _ Hc _ _ Ht Hl) as Hok;
    pose proof (ci_le _ _ Hc) as Hle;
    pose proof (ci_version _ _ Hc) as Hver.
  - destruct Hadv as (qs & _ & ->). try park_lookup w Ht.
    by apply (CountInv_progress w _ _ _ _ _ Hinv Ht Hl).
  - destruct Hadv as (qs & _ & ->). try park_lookup w Ht.
    by apply (CountInv_progress w _ _ _ _ _ Hinv Ht Hl).
  - destruct Hadv as (md & srcs & _ & ->).
    destruct f as [fb|]; simpl in Hok; try park_lookup w Ht;
      apply (CountInv_progress w _ _ _ _ _ Hinv Ht Hl); simpl; try done; try lia;
      intros r [= <-]; simpl; lia.
  - destruct Hadv as (review & _ & ->).
    destruct (inv_live _ Hinv _ _ Ht Hl) as [Hrep Hv]. simpl in Hok.
    destruct (loopsBack review w).
    + pose proof (same_core_enteredWorld (Some (feedback review))
                    (retryWorld (reviewedWorld tmp review w)))
        as (Er & _ & En & _ & Ec & Et).
      apply (CountInv_progress w _ _ _ _ _ Hinv Ht Hl);
        cbn [counts_ok]; rewrite ?Er, ?En, ?Ec, ?Et; simpl; try done; try lia.
      intros r [= <-]. simpl. lia.
    + apply (CountInv_progress w _ _ _ _ _ Hinv Ht Hl); simpl; try done.
      intros r [= <-]. simpl. lia.
Qed.

Lemma CountInv_settle_followUp w tid r q s outcome n :
  Inv w → CountInv w n → tasks w !! tid = Some (AwaitFollowUp r q s) →
  CountInv (react_ w (Settle tid outcome)) (count_event_ w (Settle tid outcome) n).
Proof.
  intros Hinv Hc Ht. unfold count_event. rewrite Ht.
  destruct (thrown_ (AwaitFollowUp r q s) outcome w) as [e|] eqn:He.
  { rewrite (react_settle_thrown_followUp _ _ _ _ _ _ _ Ht He).
    apply CountInv_park_finished, (CountInv_same_core w);
      [apply same_core_followUpCaughtWorld|done]. }
  rewrite (react_settle _ _ _ _ Ht). simpl in He.
  destruct outcome as [|response]; [done|].
  destruct (aborted s w) eqn:Ha; [done|].
  destruct (truthy_opt (text response)) eqn:Htx; [|done].
  destruct (live_task _ _ _ _ Hinv Ht eq_refl Ha) as (-> & Hl & _).
  destruct (resume_answered r q tid _ w response eq_refl Htx Ha) as (answer & _ & ->).
  cbn [fst snd settled_task].
  apply (CountInv_progress w _ _ _ _ _ Hinv Ht Hl); simpl; try done.
  - apply (ci_le _ _ Hc).
  - intros r' [= <-]. simpl. apply (ci_version _ _ Hc), (inv_live _ Hinv _ _ Ht Hl).
Qed.

Lemma CountInv_react w e n :
  Inv w → CountInv w n → CountInv (react_ w e) (count_event_ w e n).
Proof.
  intros Hinv Hc. destruct e as [tp| | |q|tid outcome].
  - by apply (CountInv_same_core w).
  - simpl. rewrite startResearch_eq. destruct (truthy (trim (topic w))); [|done].
    apply (CountInv_launch w); simpl; done.
  - simpl. rewrite stopResearch_eq. cbn [snd]. destruct Hc as [H1 H2 H3]. split.
    + by rewrite retryCountRef_stoppedWorld.
    + by rewrite report_stoppedWorld.
    + intros i t _ Hl. by apply stoppedWorld_no_live in Hl.
  - simpl. rewrite handleFollowUp_eq. destruct (report w) as [r|] eqn:Hr; [|done].
    apply (CountInv_launch w); simpl; try done.
    + rewrite retryCountRef_stoppedWorld. apply (ci_le _ _ Hc).
    + rewrite report_stoppedWorld. apply (ci_version _ _ Hc).
  - destruct (tasks w !! tid) as [t|] eqn:Ht; [|simpl; by rewrite Ht].
    destruct (is_main t) eqn:Hm; [by apply (CountInv_settle_main _ _ t)|].
    destruct t; try done.
    + by eapply CountInv_settle_followUp.
    + rewrite react_settle_finished by done. simpl. by rewrite Ht.
Qed.

Lemma CountInv_run events w n :
  Inv w → CountInv w n → CountInv (run_ w events) (count_rewrites_ w n events).
Proof.
  revert w n. induction events as [|e events IH]; intros w n Hinv Hc; [done|].
  simpl. apply IH; [by apply Inv_react|by apply CountInv_react].
Qed.

Lemma CountInv_reachable events :
  CountInv (run_ initial events) (rewritesPerformed_ events).
Proof. apply CountInv_run; [apply Inv_initial|]. by split. Qed.

Lemma run_snoc w events e : run_ w (events ++ [e]) = react_ (run_ w events) e.
Proof. unfold run. by rewrite fold_left_app. Qed.

(** C2. Each compile pass sets the version of the working report to the
    retry counter plus one, and the retry counter is zero when a run starts.
    In every state reached, the version of the report in place is one plus
    the number of rewrite iterations performed in the run, and that number is
    at most [MAX_RETRIES]; in particular a run that completes holds a report
    whose version is one plus the number of rewrite iterations it
    performed. *)
Theorem version_counts_rewrites (events : list Event) (tid : nat) (t : Task)
    (outcome : Outcome) :
  let w := run_ initial events in
  let w' := react_ w (Settle tid outcome) in
  let n := rewritesPerformed_ (events ++ [Settle tid outcome]) in
  tasks w !! tid = Some t → is_main t = true →
  (∀ tp qs f p s md srcs,
     t = AwaitCompile tp qs f p s →
     searchAndCompile outcome = inr (md, srcs) → aborted s w = false →
     ∃ r, report w' = Some r ∧ report_version r = retryCountRef w + 1)
  ∧ (truthy (trim (topic w)) = true → retryCountRef (react_ w StartResearch) = 0)
  ∧ (∀ r, report w' = Some r → report_version r = 1 + n)
  ∧ n ≤ MAX_RETRIES
  ∧ (tasks w' !! tid = Some Finished → state w' = COMPLETED →
     ∃ r, report w' = Some r ∧ report_version r = 1 + n
       ∧ n = retryCountRef w').
Proof.
  intros w w' n Ht Hm.
  pose proof (Inv_reachable events) as Hinv. fold w in Hinv.
  pose proof (CountInv_reachable (events ++ [Settle tid outcome])) as Hc.
  rewrite run_snoc in Hc. fold w w' n in Hc.
  split_and!.
  - intros tp qs f p s md srcs -> Hs Ha.
    destruct (settle_main_cases w tid _ outcome Ht Hm)
      as [(e & He & _)|(_ & _ & Hadv)].
    { simpl in He. rewrite Hs, Ha in He. done. }
    unfold advanced in Hadv. destruct Hadv as (md' & srcs' & Hs' & Hw').
    fold w' in Hw'. rewrite Hw'. simpl.
    by exists (tempReport_of tp md' srcs' w).
  - intros Htopic. simpl. by rewrite startResearch_eq, Htopic.
  - apply (ci_version _ _ Hc).
  - pose proof (ci_le _ _ Hc) as Hle.
    pose proof (inv_retry _ (Inv_react w (Settle tid outcome) Hinv)) as Hmax.
    fold w' in Hmax. lia.
  - intros Hfin Hst.
    destruct (finished_completed w tid t outcome Ht Hm Hfin Hst)
      as (tp & qs & md & tmp & s & review & -> & Ha & Hrev & Hloop & Hw').
    destruct (live_task _ _ _ _ Hinv Ht eq_refl Ha) as (-> & Hl & _).
    destruct (inv_live _ Hinv _ _ Ht Hl) as [_ Hver].
    pose proof (ci_version _ _ Hc (scoredReport tmp review)) as Hv.
    fold w' in Hw'. rewrite Hw' in Hv |- *. simpl in Hv |- *.
    specialize (Hv eq_refl).
    exists (scoredReport tmp review). split_and!; [done..|]. lia.
Qed.

(** *** Failure and cancellation *)

(** C6. When the service a main-pipeline step awaits fails with a generic
    error (an error that is not an abort), the pipeline ends there: the phase
    becomes Error, exactly one log entry is appended, of kind Error and
    carrying the detail of the error, and nothing else changes, so no report
    is created; when the step is the brainstorm of the current run there is
    no report at all. *)
Theorem generic_failure_aborts_pipeline (events : list Event) (tid : nat)
    (t : Task) (outcome : Outcome) (e : JsError) :
  let w := run_ initial events in
  let w' := react_ w (Settle tid outcome) in
  tasks w !! tid = Some t → is_main t = true →
  rejection_ t outcome = Some e → isAbort e = false →
  state w' = ERROR
  ∧ logs w' = logs w ++ [errorEntry e]
  ∧ step (errorEntry e) = ERROR
  ∧ details (errorEntry e)
    = DetailText (if truthy (err_message e) then err_message e else String_of_error e)
  ∧ tasks w' !! tid = Some Finished
  ∧ report w' = report w ∧ queries w' = queries w
  ∧ retryCountRef w' = retryCountRef w
  ∧ (∀ tp s, t = AwaitBrainstorm tp s → aborted s w = false → report w' = None).
Proof.
  intros w w' Ht Hm Hrej Hgen.
  assert (∃ s, signal_of t = Some s) as [s Hs] by (destruct t; by eauto).
  assert (thrown_ t outcome w = Some e) as He.
  { rewrite (thrown_main _ _ _ _ Hm Hs). by rewrite Hrej. }
  unfold w'. rewrite (react_settle_thrown_main _ _ _ _ _ Ht Hm He).
  park_lookup w Ht. simpl.
  rewrite state_errorWorld, logs_errorWorld, Hgen.
  destruct (same_core_errorWorld e w) as (Hr & Hq & Hn & _).
  split_and!; try done.
  intros tp s' -> Ha. rewrite Hr.
  pose proof (Inv_reachable events) as Hinv. fold w in Hinv.
  destruct (live_task _ _ _ _ Hinv Ht eq_refl Ha) as (-> & Hl & _).
  apply (inv_live _ Hinv _ _ Ht Hl).
Qed.

(** A response without text is such a failure, at every step. *)
Lemma no_text_rejection t response :
  is_main t = true → truthy_opt (text response) = false →
  rejection_ t (inr response) = Some noResponse ∧ isAbort noResponse = false.
Proof.
  intros Hm Htx. split; [|done].
  destruct t; try done; simpl;
    destruct (text response) as [tx|]; simpl in Htx; by rewrite ?Htx.
Qed.

(** C5 (amended). Once [stopResearch] ran, a main-pipeline task whose awaited service
    does not fail with a generic error ends the run at its next abort check:
    the phase becomes Idle, the one log entry appended is the "stopped by
    user" entry, of kind Idle, and report, queries and retry counter are
    untouched. *)
Theorem stop_then_response_goes_idle (events : list Event) (tid : nat) (t : Task)
    (outcome : Outcome) :
  let w := run_ initial events in
  let w1 := react_ w StopResearch in
  let w2 := react_ w1 (Settle tid outcome) in
  tasks w !! tid = Some t → is_main t = true →
  (∀ e, rejection_ t outcome = Some e → isAbort e = true) →
  abortControllerRef w1 = None
  ∧ (∀ s, signal_of t = Some s → aborted s w1 = true)
  ∧ state w2 = IDLE
  ∧ logs w2 = logs w ++ [stoppedEntry]
  ∧ step stoppedEntry = IDLE
  ∧ tasks w2 !! tid = Some Finished
  ∧ report w2 = report w ∧ queries w2 = queries w
  ∧ retryCountRef w2 = retryCountRef w.
Proof.
  intros w w1 w2 Ht Hm Hrej.
  pose proof (Inv_reachable events) as Hinv. fold w in Hinv.
  assert (w1 = stoppedWorld w) as Hw1 by (unfold w1; simpl; by rewrite stopResearch_eq).
  assert (t ≠ Finished) as Hne by (by intros ->).
  pose proof (inv_signal _ Hinv _ _ Ht Hne) as Hs.
  assert (aborted tid w1 = true) as Ha.
  { rewrite Hw1. unfold aborted.
    assert (tid < length (controllers (stoppedWorld w))) as Hlt.
    { rewrite length_controllers_stoppedWorld, <- (inv_len _ Hinv).
      by eapply lookup_lt_Some. }
    apply lookup_lt_is_Some in Hlt as [b Hb]. rewrite Hb.
    destruct b; [done|]. by apply stoppedWorld_no_live in Hb. }
  assert (tasks w1 !! tid = Some t) as Ht1 by (by rewrite Hw1, tasks_stoppedWorld).
  assert (∃ e, thrown_ t outcome w1 = Some e ∧ isAbort e = true) as (e & He & Hab).
  { rewrite (thrown_main _ _ _ _ Hm Hs).
    destruct (rejection_ t outcome) as [e|] eqn:Hr.
    - exists e. split; [done|]. by apply Hrej.
    - rewrite Ha. by exists abortedError. }
  unfold w2. rewrite (react_settle_thrown_main _ _ _ _ _ Ht1 Hm He).
  park_lookup w1 Ht1. simpl.
  rewrite state_errorWorld, logs_errorWorld, Hab.
  destruct (same_core_errorWorld e w1) as (Hr & Hq & Hn & _).
  rewrite Hr, Hq, Hn, Hw1.
  split_and!; try done.
  - unfold stoppedWorld. by destruct (abortControllerRef w) eqn:Href.
  - intros s Hs'. assert (s = tid) as -> by congruence. by rewrite Hw1 in Ha.
  - unfold stoppedWorld. by destruct (abortControllerRef w).
  - apply report_stoppedWorld.
  - unfold stoppedWorld. by destruct (abortControllerRef w).
  - apply retryCountRef_stoppedWorld.
Qed.

(** *** Follow-up and start *)

Lemma string_length_app (s1 s2 : string) :
  String.length (s1 ++ s2)%string = String.length s1 + String.length s2.
Proof.
  induction s1 as [|c s1 IH]; [done|].
  change (S (String.length (s1 ++ s2)%string) = S (String.length s1 + String.length s2)).
  by rewrite IH.
Qed.

(** C8. A follow-up whose service call succeeds replaces the report by the
    report it was asked about with the answer appended to the markdown and
    the sources merged; topic, score, feedback and version are the ones of
    the report in place when the answer arrives.  The new markdown is the old
    one, a rule between two blank lines, the heading that quotes the
    question, a blank line and the answer, which is not empty. *)
Theorem followUp_frame (events : list Event) (tid : nat) (r : ResearchReport)
    (q : string) (s : nat) (outcome : Outcome) (response : GenerateContentResponse) :
  let w := run_ initial events in
  let w' := react_ w (Settle tid outcome) in
  tasks w !! tid = Some (AwaitFollowUp r q s) → aborted s w = false →
  outcome = inr response → truthy_opt (text response) = true →
  ∃ answer r',
    text response = Some answer
    ∧ report w = Some r ∧ report w' = Some r'
    ∧ report_markdown r' = followUpMarkdown r q answer
    ∧ report_sources r'
      = updatedSources r (uniqueSources (extractSources (groundingChunks_of response)))
    ∧ report_version r' = report_version r
    ∧ report_score r' = report_score r
    ∧ report_feedback r' = report_feedback r
    ∧ report_topic r' = report_topic r
    ∧ queries w' = queries w ∧ retryCountRef w' = retryCountRef w
    ∧ answer ≠ ""
    ∧ report_markdown r'
      = (report_markdown r ++ newline ++ newline ++ "---" ++ newline ++ newline
           ++ "### Follow-up: " ++ q ++ newline ++ newline ++ answer)%string
    ∧ String.length (report_markdown r')
      = String.length (report_markdown r) + 24 + String.length q
        + String.length answer.
Proof.
  intros w w' Ht Ha -> Htx.
  pose proof (Inv_reachable events) as Hinv. fold w in Hinv.
  destruct (live_task _ _ _ _ Hinv Ht eq_refl Ha) as (-> & Hl & _).
  pose proof (inv_live _ Hinv _ _ Ht Hl) as Hrep. simpl in Hrep.
  unfold w'. rewrite (react_settle _ _ _ _ Ht).
  destruct (resume_answered r q tid _ w response eq_refl Htx Ha) as (answer & Hans & ->).
  exists answer, (answeredReport r q answer
                    (uniqueSources (extractSources (groundingChunks_of response)))).
  split_and!; try done.
  - rewrite Hans in Htx. by apply truthy_opt_true in Htx as (a & [= <-] & ?).
  - cbn [report_markdown answeredReport]. unfold followUpMarkdown.
    rewrite !string_length_app. cbn [String.length newline]. lia.
Qed.

Lemma trimStart_blank (l : list ascii) :
  (∀ c, c ∈ l → isWhiteSpace c = true) → trimStart l = [].
Proof.
  induction l as [|c l IH]; intros Hall; [done|].
  simpl. rewrite Hall by left. apply IH. intros c' Hc'. apply Hall. by right.
Qed.

(** C9. In every state of the controller, [startResearch] with a topic that
    is empty or all white space changes nothing: phase, log, report, queries,
    retry counter, cancellation handle and the calls in flight stay as they
    are. *)
Theorem startResearch_blank_is_noop (w : World) :
  (∀ c, c ∈ list_ascii_of_string (topic w) → isWhiteSpace c = true) →
  react_ w StartResearch = w.
Proof.
  intros Hblank. simpl. unfold startResearch, trim.
  by rewrite (trimStart_blank _ Hblank).
Qed.

(** *** Sources and reviews *)

(** C3 (amended). In every reachable state the sources of the report carry
    pairwise different uris.  A response is deduplicated by uri in first-seen
    order, and the entry kept for a uri is the last one the response has for
    it.  A follow-up merge keeps the existing entries and appends, in order,
    the returned sources whose uri is not among them. *)
Theorem report_sources_unique (events : list Event) (r : ResearchReport)
    (sources : list Web) :
  report (run_ initial events) = Some r →
  NoDup (map uri (report_sources r))
  ∧ NoDup (map uri (uniqueSources sources))
  ∧ map uri (uniqueSources sources) = firstSeen (map uri sources)
  ∧ (∀ s, s ∈ uniqueSources sources → lastWith (uri s) sources = Some s)
  ∧ updatedSources r sources
    = report_sources r ++ filter (λ s, uri s ∉ map uri (report_sources r)) sources
  ∧ NoDup (map uri (updatedSources r (uniqueSources sources))).
Proof.
  intros Hr.
  pose proof (inv_sources _ (Inv_reachable events) _ Hr) as Hnd.
  split_and!.
  - done.
  - apply uniqueSources_NoDup.
  - apply uniqueSources_uris.
  - apply uniqueSources_last.
  - unfold updatedSources. by rewrite newUniqueSources_filter.
  - rewrite map_fmap. apply updatedSources_NoDup; [done|].
    rewrite <- map_fmap. apply uniqueSources_NoDup.
Qed.

(** C4 (amended). The controller never reads [approved]. Two review results
    with the same score and feedback leave the controller in the same state
    whatever their [approved] fields say, and a live pass whose review scores
    4 or more finishes, while one that scores less loops back as long as
    retries remain. *)
Theorem decision_ignores_approved (w : World) (tid : nat) (tp : string)
    (qs : list SearchQuery) (md : string) (tmp : ResearchReport) (s : nat)
    (o1 o2 : Outcome) (r1 r2 : ReviewResult) :
  tasks w !! tid = Some (AwaitReview tp qs md tmp s) →
  reviewReport_ o1 = inr r1 → reviewReport_ o2 = inr r2 →
  score r1 = score r2 → feedback r1 = feedback r2 →
  react_ w (Settle tid o1) = react_ w (Settle tid o2)
  ∧ (aborted s w = false →
     ((4 ≤ score r1)%Z →
        tasks (react_ w (Settle tid o1)) !! tid = Some Finished
        ∧ state (react_ w (Settle tid o1)) = COMPLETED)
     ∧ ((score r1 < 4)%Z → retryCountRef w < MAX_RETRIES →
        tasks (react_ w (Settle tid o1)) !! tid
        = Some (AwaitCompile tp qs (Some (feedback r1)) (Some md) s))).
Proof.
  intros Ht H1 H2 Hsc Hfb.
  rewrite !(react_settle _ _ _ _ Ht).
  destruct (aborted s w) eqn:Ha.
  - split; [|done].
    rewrite !(resume_thrown_main _ _ _ abortedError); try done;
      simpl; by rewrite ?H1, ?H2, Ha.
  - rewrite (resume_reviewed _ _ _ _ _ _ _ _ H1 Ha),
      (resume_reviewed _ _ _ _ _ _ _ _ H2 Ha).
    assert (loopsBack r2 w = loopsBack r1 w) as -> by (unfold loopsBack; by rewrite Hsc).
    assert (reviewedWorld tmp r2 w = reviewedWorld tmp r1 w) as ->
      by (unfold reviewedWorld, scoredReport; by rewrite Hsc, Hfb).
    assert (completedWorld r2 = completedWorld r1) as ->
      by (unfold completedWorld; by rewrite Hsc).
    rewrite <- Hfb. split; [done|]. intros _. unfold loopsBack. split.
    + intros Hge. apply Z.ltb_ge in Hge. rewrite Hge. cbn [andb fst snd settled_task].
      split; [|done]. by park_lookup w Ht.
    + intros Hlt Hn. apply Z.ltb_lt in Hlt. apply Nat.ltb_lt in Hn.
      rewrite Hlt, Hn. cbn [andb fst snd settled_task]. by park_lookup w Ht.
Qed.

(** A main-pipeline task whose signal is aborted, once its call returns:
    the handler of [startResearch] writes the phase and the log of whatever
    run is current, and nothing else. *)
Lemma stale_response_effect w tid t s outcome :
  tasks w !! tid = Some t → is_main t = true → signal_of t = Some s →
  aborted s w = true → rejection_ t outcome = None →
  react_ w (Settle tid outcome)
  = park tid Finished (setState IDLE (setLogs (logs w ++ [stoppedEntry]) w)).
Proof.
  intros Ht Hm Hs Ha Hrej.
  rewrite (react_settle_thrown_main _ _ _ _ abortedError Ht Hm); [done|].
  by rewrite (thrown_main _ _ _ _ Hm Hs), Hrej, Ha.
Qed.

End ControllerFacts.

(** ** The claims on concrete runs *)

Ltac by_vm := vm_compute; reflexivity.

Lemma review_decision_witness :
  let w := demo_run initial demo_to_review in
  let w' := demo_react w (Settle 0 (reply_review review_low)) in
  (tasks w !! 0 = Some demo_review_task ∧ is_main demo_review_task = true)
  ∧ retryCountRef w' = retryCountRef w + 1
  ∧ tasks w' !! 0
    = Some (AwaitCompile "batteries" demo_queries (Some "add depth") (Some "# Report") 0)
  ∧ state w' ≠ COMPLETED.
Proof.
  intros w w'. split; [split; by_vm|].
  destruct (review_decision demo_parse_queries demo_parse_review demo_to_review 0
              demo_review_task (reply_review review_low)) as [Hdec _];
    [by_vm..|].
  assert (reviewReport demo_parse_review (reply_review review_low) = inr review_low)
    as Hrev by by_vm.
  assert (aborted 0 (demo_run initial demo_to_review) = false) as Ha by by_vm.
  pose proof (Hdec _ _ _ _ _ review_low eq_refl Hrev Ha) as H.
  vm_compute in H. vm_compute. exact H.
Defined.

Lemma version_counts_rewrites_witness :
  let w := demo_run initial demo_to_second_review in
  let w' := demo_react w (Settle 0 (reply_review review_ok)) in
  let n := rewritesPerformed demo_parse_queries demo_parse_review
             (demo_to_second_review ++ [Settle 0 (reply_review review_ok)]) in
  (tasks w !! 0 = Some demo_second_review_task
   ∧ is_main demo_second_review_task = true)
  ∧ n = 1 ∧ n ≤ MAX_RETRIES
  ∧ ∃ r, report w' = Some r ∧ report_version r = 1 + n.
Proof.
  intros w w' n. split; [split; by_vm|]. split; [by_vm|].
  destruct (version_counts_rewrites demo_parse_queries demo_parse_review
              demo_to_second_review 0 demo_second_review_task
              (reply_review review_ok))
    as (_ & _ & _ & Hle & Hdone); [by_vm..|].
  split; [exact Hle|].
  destruct Hdone as (r & Hr & Hv & _); [by_vm..|]. by exists r.
Defined.

Lemma report_sources_unique_witness :
  report (demo_run initial demo_to_review) = Some demo_report
  ∧ NoDup (map uri (report_sources demo_report))
  ∧ NoDup (map uri (updatedSources demo_report (uniqueSources [source_a; source_c]))).
Proof.
  split; [by_vm|].
  destruct (report_sources_unique demo_parse_queries demo_parse_review
              demo_to_review demo_report [source_a; source_c])
    as (H1 & _ & _ & _ & _ & H2); [by_vm|].
  split; [exact H1|exact H2].
Defined.

Lemma decision_ignores_approved_witness :
  demo_react (demo_run initial demo_to_review) (Settle 0 (reply_review review_low))
  = demo_react (demo_run initial demo_to_review)
      (Settle 0 (reply_review review_low_approved)).
Proof.
  apply (decision_ignores_approved demo_parse_queries demo_parse_review
           (demo_run initial demo_to_review) 0 "batteries" demo_queries
           "# Report" demo_report 0 (reply_review review_low)
           (reply_review review_low_approved) review_low review_low_approved);
    by_vm.
Defined.

Lemma stop_then_response_goes_idle_witness :
  let w := demo_run initial demo_to_brainstorm in
  let w2 := demo_react (demo_react w StopResearch) (Settle 0 reply_queries) in
  (tasks w !! 0 = Some demo_brainstorm_task ∧ is_main demo_brainstorm_task = true
   ∧ rejection demo_parse_queries demo_parse_review demo_brainstorm_task reply_queries
     = None)
  ∧ state w2 = IDLE ∧ logs w2 = logs w ++ [stoppedEntry].
Proof.
  intros w w2. split; [split_and!; by_vm|].
  destruct (stop_then_response_goes_idle demo_parse_queries demo_parse_review
              demo_to_brainstorm 0 demo_brainstorm_task reply_queries)
    as (_ & _ & Hst & Hlogs & _); [by_vm..| |by split].
  intros e He. vm_compute in He. discriminate He.
Defined.

Lemma generic_failure_aborts_pipeline_witness :
  let w := demo_run initial demo_to_brainstorm in
  let w' := demo_react w (Settle 0 reply_empty) in
  (tasks w !! 0 = Some demo_brainstorm_task ∧ aborted 0 w = false
   ∧ rejection demo_parse_queries demo_parse_review demo_brainstorm_task reply_empty
     = Some noResponse)
  ∧ state w' = ERROR ∧ logs w' = logs w ++ [errorEntry noResponse]
  ∧ report w' = None.
Proof.
  intros w w'. split; [split_and!; by_vm|].
  destruct (generic_failure_aborts_pipeline demo_parse_queries demo_parse_review
              demo_to_brainstorm 0 demo_brainstorm_task reply_empty noResponse)
    as (Hst & Hlogs & _ & _ & _ & _ & _ & _ & Hnone); [by_vm..|].
  split_and!; [exact Hst|exact Hlogs|].
  apply (Hnone "batteries" 0); by_vm.
Defined.

Lemma followUp_frame_witness :
  let w := demo_run initial demo_to_answer in
  let w' := demo_react w (Settle 1 reply_answer) in
  let nl := String "010"%char "" in
  (tasks w !! 1 = Some (AwaitFollowUp demo_report "why?" 1) ∧ aborted 1 w = false)
  ∧ ∃ r', report w' = Some r'
      ∧ report_sources r' = [source_a_again; source_b; source_c]
      ∧ report_version r' = report_version demo_report
      ∧ report_score r' = report_score demo_report
      ∧ report_feedback r' = report_feedback demo_report
      ∧ report_topic r' = report_topic demo_report
      ∧ report_markdown r'
        = ("# Report" ++ nl ++ nl ++ "---" ++ nl ++ nl ++ "### Follow-up: why?" ++ nl
             ++ nl ++ "An answer")%string
      ∧ String.length (report_markdown r') = 45.
Proof.
  intros w w' nl. split; [split; by_vm|].
  destruct (followUp_frame demo_parse_queries demo_parse_review demo_to_answer 1
              demo_report "why?" 1 reply_answer
              (mkResponse (Some "An answer")
                 (Some [mkCandidate (Some (mkGroundingMetadata
                    (Some [chunk "https://a" "A"; chunk "https://c" "C"])))])))
    as (answer & r' & Hans & _ & Hrep & _ & Hsrc & Hv & Hsc & Hfb & Htp & _ & _ & _
        & Hmd & Hlen);
    [by_vm..|].
  injection Hans as <-.
  exists r'.
  split_and!; [exact Hrep|rewrite Hsrc; by_vm|exact Hv|exact Hsc|exact Hfb|exact Htp
              |rewrite Hmd; by_vm|rewrite Hlen; by_vm].
Defined.

Lemma startResearch_blank_is_noop_witness :
  let w := setTopic "  " (demo_run initial demo_to_review) in
  tasks w !! 0 = Some demo_review_task ∧ demo_react w StartResearch = w.
Proof.
  intros w. split; [by_vm|].
  apply (startResearch_blank_is_noop demo_parse_queries demo_parse_review w).
  apply Forall_forall. vm_compute. repeat constructor.
Defined.

(** The phase Completed is also set by [handleFollowUp], which cancels the
    run in flight.  Asked between two passes, it ends in Completed over the
    report of the cancelled run: scored 3, one retry used, version 1, no
    rewrite iteration performed.  No run of the loop completed here; the
    cancelled run is still suspended. *)
Example followUp_completes_over_cancelled_run :
  let w := demo_run initial demo_followUp_mid_run in
  ui_trace demo_react initial demo_followUp_mid_run = true
  ∧ state w = COMPLETED
  ∧ (report_score <$> report w) = Some (Some 3%Z)
  ∧ (report_version <$> report w) = Some 1
  ∧ retryCountRef w = 1
  ∧ rewritesPerformed demo_parse_queries demo_parse_review demo_followUp_mid_run = 0
  ∧ tasks w !! 0
    = Some (AwaitCompile "batteries" demo_queries (Some "add depth") (Some "# Report") 0).
Proof. intros w. split_and!; by_vm. Qed.

(** ** Where the code departs from the claims *)

(** C3, as stated, fails: of two entries with one uri, the [Map] keeps the
    later one (at the place of the earlier one). *)
Lemma first_seen_entry_does_not_win :
  ¬ (∀ (sources : list Web) (s : Web),
       s ∈ uniqueSources sources → firstWith (uri s) sources = Some s).
Proof.
  intros H.
  specialize (H [source_a; source_b; source_a_again] source_a_again).
  assert (source_a_again ∈ uniqueSources [source_a; source_b; source_a_again])
    as Hin by (vm_compute; left).
  specialize (H Hin). vm_compute in H. discriminate H.
Qed.

Example searchAndCompile_keeps_last :
  searchAndCompile reply_report = inr ("# Report", [source_a_again; source_b]).
Proof. by_vm. Qed.

(** C4, as stated, fails: the controller takes the review as the service
    returns it, and a returned result may be approved with a score of 2. *)
Lemma controller_acts_on_mismatched_review :
  ¬ (∀ (events : list Event) (tid : nat) tp qs md tmp s (outcome : Outcome)
       (review : ReviewResult),
       tasks (demo_run initial events) !! tid = Some (AwaitReview tp qs md tmp s) →
       reviewReport demo_parse_review outcome = inr review →
       approved review = true ↔ (4 ≤ score review)%Z).
Proof.
  intros H.
  assert (tasks (demo_run initial demo_to_review) !! 0 = Some demo_review_task)
    as Ht by by_vm.
  assert (reviewReport demo_parse_review (reply_review review_mismatch)
          = inr review_mismatch) as Hrev by by_vm.
  destruct (H demo_to_review 0 _ _ _ _ _ _ _ Ht Hrev) as [Hwrong _].
  specialize (Hwrong eq_refl). vm_compute in Hwrong. by apply Hwrong.
Qed.

(** The controller then loops back on that result, by its score. *)
Example mismatched_review_loops_back :
  tasks (demo_run initial (demo_to_review ++ [Settle 0 (reply_review review_mismatch)]))
    !! 0
  = Some (AwaitCompile "batteries" demo_queries (Some "thin") (Some "# Report") 0).
Proof. by_vm. Qed.

(** C5, as stated, fails: when the call that is outstanding at the stop
    fails, the run ends in the Error phase with an Error entry in the log. *)
Lemma stop_then_failure_goes_error :
  ¬ (∀ (events : list Event) (tid : nat) (t : Task) (outcome : Outcome),
       let w := demo_run initial events in
       let w2 := demo_run w [StopResearch; Settle tid outcome] in
       tasks w !! tid = Some t → is_main t = true → isRunning w = true →
       state w2 = IDLE ∧ Forall (λ entry, step entry ≠ ERROR) (logs w2)).
Proof.
  intros H.
  destruct (H demo_to_brainstorm 0 demo_brainstorm_task reply_empty) as [Hst _];
    [by_vm..|].
  vm_compute in Hst. discriminate Hst.
Qed.

Example stop_then_failure_run :
  let w2 := demo_run initial (demo_to_brainstorm ++ [StopResearch; Settle 0 reply_empty]) in
  state w2 = ERROR ∧ last (logs w2) = Some (errorEntry noResponse).
Proof. split; by_vm. Qed.

(** C7. The second [startResearch] aborts the controller of the first run and
    drops it before it allocates its own; yet when the call of the first run
    returns, the abort check throws into the handler of [startResearch],
    which sets the phase to Idle and appends the "stopped by user" entry:
    phase and log of the second run, which is still waiting for its
    brainstorm.  The same happens through the interface, once a follow-up has
    cancelled the first run and completed. *)
Theorem stale_response_reaches_new_run :
  (let w1 := demo_run initial demo_to_brainstorm in
   let w := demo_run initial demo_restart in
   let w' := demo_react w (Settle 0 reply_queries) in
   abortControllerRef w1 = Some 0 ∧ controllers w1 = [false]
   ∧ abortControllerRef w = Some 1 ∧ controllers w = [true; false]
   ∧ tasks w = [AwaitBrainstorm "batteries" 0; AwaitBrainstorm "batteries" 1]
   ∧ state w = BRAINSTORMING
   ∧ state w' = IDLE
   ∧ logs w' = logs w ++ [stoppedEntry]
   ∧ tasks w' = [Finished; AwaitBrainstorm "batteries" 1]
   ∧ report w' = report w ∧ queries w' = queries w
   ∧ retryCountRef w' = retryCountRef w)
  ∧ (let w := demo_run initial demo_restart_ui in
     let w' := demo_react w (Settle 0 (reply_review review_ok)) in
     ui_trace demo_react initial
       (demo_restart_ui ++ [Settle 0 (reply_review review_ok)]) = true
     ∧ tasks w = [demo_review_task; Finished; AwaitBrainstorm "batteries" 2]
     ∧ controllers w = [true; true; false]
     ∧ state w = BRAINSTORMING
     ∧ state w' = IDLE
     ∧ logs w' = logs w ++ [stoppedEntry]
     ∧ tasks w' = [Finished; Finished; AwaitBrainstorm "batteries" 2]).
Proof. split; intros; split_and!; by_vm. Qed.

(** * Further properties of the code *)

(** ** Every event follows one of the listed paths *)

Section Coverage.
Variable JSON_parse_queries : string -> JsError + list SearchQuery.
Variable JSON_parse_review : string -> JsError + ReviewResult.

Local Abbreviation resume_ := (resume JSON_parse_queries JSON_parse_review).
Local Abbreviation react_ := (react JSON_parse_queries JSON_parse_review).
Local Abbreviation run_ := (run JSON_parse_queries JSON_parse_review).
Local Abbreviation brainstormQueries_ := (brainstormQueries JSON_parse_queries).
Local Abbreviation reflectAndRefineQueries_ := (reflectAndRefineQueries JSON_parse_queries).
Local Abbreviation reviewReport_ := (reviewReport JSON_parse_review).
Local Abbreviation advanced_ := (advanced JSON_parse_queries JSON_parse_review).
Local Abbreviation thrown_ := (thrown JSON_parse_queries JSON_parse_review).
Local Abbreviation effect_ := (effect JSON_parse_queries JSON_parse_review).

Lemma react_effect w e : effect_ w e (react_ w e).
Proof.
  destruct e as [t| | |q|tid outcome].
  - constructor.
  - simpl. rewrite startResearch_eq.
    destruct (truthy (trim (topic w))) eqn:Ht; by constructor.
  - simpl. rewrite stopResearch_eq. constructor.
  - simpl. rewrite handleFollowUp_eq.
    destruct (report w) as [r|] eqn:Hr; by constructor.
  - destruct (tasks w !! tid) as [t|] eqn:Ht;
      [|simpl; rewrite Ht; by constructor].
    destruct (is_main t) eqn:Hm.
    { destruct (settle_main_cases JSON_parse_queries JSON_parse_review
                  w tid t outcome Ht Hm) as [(e & He & ->)|(_ & Hlive & Hadv)].
      - by eapply eff_thrown.
      - by eapply eff_advanced. }
    destruct t as [| | | |r q s|]; try done.
    + destruct (thrown_ (AwaitFollowUp r q s) outcome w) as [e|] eqn:He.
      { rewrite (react_settle_thrown_followUp _ _ _ _ _ _ _ _ _ Ht He).
        by eapply eff_ask_thrown. }
      rewrite (react_settle _ _ _ _ _ _ Ht). simpl in He.
      destruct outcome as [|response]; [done|].
      destruct (aborted s w) eqn:Ha; [done|].
      destruct (truthy_opt (text response)) eqn:Htx; [|done].
      destruct (resume_answered JSON_parse_queries JSON_parse_review
                  r q s _ w response eq_refl Htx Ha) as (answer & Hans & ->).
      cbn [fst snd settled_task]. eapply eff_answered; try done.
      by rewrite Hans in Htx.
    + rewrite react_settle_finished by done. by apply eff_over.
Qed.

(** Case analysis on what the event [e] does to [w]: the world reached
    becomes one of the worlds of [effect]. *)
Ltac effect_cases w e :=
  let H := fresh "Heff" in
  let w' := fresh "w'" in
  let E := fresh "E" in
  pose proof (react_effect w e) as H;
  remember (react_ w e) as w' eqn:E; clear E;
  destruct H as [t| Htopic | Htopic | | q Hrep | q r Hrep | tid o Htask | tid o Htask
                | tid o t err Htask Hmain Hthrown
                | tid o t w'' Htask Hmain Hlive Hadv
                | tid o r q s err Htask Hthrown
                | tid response r q s answer Htask Hlive Hanswer Htruthy].

(** The task a settled call was parked at. *)
Ltac parked w Ht :=
  match goal with
  | |- context [tasks (park ?tid ?t ?W) !! ?tid] =>
      rewrite (lookup_park tid t W w _
                 ltac:(first [reflexivity
                             | exact (tasks_enteredWorld _ _)
                             | exact (tasks_errorWorld _ _)
                             | exact (tasks_followUpCaughtWorld _ _)]) Ht)
  end.

(** The main-pipeline paths of [advanced], one goal for each. *)
Ltac advanced_cases w t Hadv :=
  destruct t as [tp s|tp s|tp qs f p s|tp qs md tmp s| |]; try done;
  unfold advanced in Hadv;
  [destruct Hadv as (qs & Hcall & ->)
  |destruct Hadv as (qs & Hcall & ->)
  |destruct Hadv as (md & srcs & Hcall & ->)
  |let review := fresh "review" in
   let Hloop := fresh "Hloop" in
   destruct Hadv as (review & Hcall & ->);
   destruct (loopsBack review w) eqn:Hloop].

Lemma stoppedWorld_frame w :
  topic (stoppedWorld w) = topic w ∧ state (stoppedWorld w) = state w
  ∧ logs (stoppedWorld w) = logs w ∧ report (stoppedWorld w) = report w
  ∧ queries (stoppedWorld w) = queries w
  ∧ retryCountRef (stoppedWorld w) = retryCountRef w
  ∧ tasks (stoppedWorld w) = tasks w.
Proof. unfold stoppedWorld. by destruct (abortControllerRef w). Qed.

Lemma logs_park tid t w : logs (park tid t w) = logs w.
Proof. reflexivity. Qed.

Lemma state_park tid t w : state (park tid t w) = state w.
Proof. reflexivity. Qed.

Lemma logs_enteredWorld f w :
  ∃ entry, logs (enteredWorld f w) = logs w ++ [entry].
Proof. unfold enteredWorld. destruct (truthy_opt f); by eexists. Qed.

Lemma logs_followUpCaughtWorld e w :
  ∃ entry, logs (followUpCaughtWorld e w) = logs w ++ [entry].
Proof.
  unfold followUpCaughtWorld, errorWorld. destruct (isAbort e); by eexists.
Qed.

(** What one event does to the log. *)
Lemma logs_step w e :
  (e = StartResearch ∧ truthy (trim (topic w)) = true
   ∧ logs (react_ w e)
     = [mkLog IDLE ("Starting research on: " ++ dquote ++ topic w ++ dquote) NoDetails;
        mkLog BRAINSTORMING "Brainstorming search queries..." NoDetails])
  ∨ ∃ added, logs (react_ w e) = logs w ++ added ∧ length added ≤ 3.
Proof.
  effect_cases w e;
    try (right; exists []; rewrite app_nil_r; split; [done|simpl; lia]).
  - by left.
  - right. exists []. rewrite app_nil_r. split; [apply stoppedWorld_frame|simpl; lia].
  - right. exists [followUpEntry q]. simpl.
    destruct (stoppedWorld_frame w) as (_ & _ & -> & _). split; [done|lia].
  - right. rewrite logs_park, logs_errorWorld. eexists. split; [done|simpl; lia].
  - right. advanced_cases w t Hadv; rewrite logs_park.
    + simpl. rewrite <- app_assoc. eexists. split; [done|simpl; lia].
    + destruct (logs_enteredWorld None (reflectedWorld qs w)) as [entry ->].
      simpl. rewrite <- app_assoc. eexists. split; [done|simpl; lia].
    + simpl. rewrite <- app_assoc. eexists. split; [done|simpl; lia].
    + destruct (logs_enteredWorld (Some (feedback review))
                  (retryWorld (reviewedWorld tmp review w))) as [entry ->].
      simpl. rewrite <- !app_assoc. eexists. split; [done|simpl; lia].
    + simpl. rewrite <- app_assoc. eexists. split; [done|simpl; lia].
  - right. rewrite logs_park. destruct (logs_followUpCaughtWorld err w) as [entry ->].
    eexists. split; [done|simpl; lia].
  - right. simpl. eexists. split; [done|simpl; lia].
Qed.

(** ** The log *)

(** X1. Between two starts the log only grows: along events that hold no
    [StartResearch], the entries already logged stay in place, in order, and
    every event appends at most three entries. *)
Theorem logs_only_grow (w : World) (events : list Event) :
  StartResearch ∉ events →
  logs w `prefix_of` logs (run_ w events)
  ∧ length (logs (run_ w events)) ≤ length (logs w) + 3 * length events.
Proof.
  revert w. induction events as [|e events IH]; intros w Hno.
  { simpl. split; [done|lia]. }
  apply not_elem_of_cons in Hno as [Hne Hno].
  destruct (IH (react_ w e) Hno) as [Hpre Hlen].
  destruct (logs_step w e) as [(-> & _)|(added & Hadd & Hthree)]; [done|].
  change (run_ w (e :: events)) with (run_ (react_ w e) events).
  rewrite Hadd in Hpre, Hlen. split.
  - etrans; [|exact Hpre]. by apply prefix_app_r.
  - rewrite length_app in Hlen. simpl. lia.
Qed.

Lemma showsWaiting_nil (l : list LogEntry) : showsWaiting l = true ↔ l = [].
Proof.
  unfold showsWaiting. rewrite Nat.eqb_eq. split; [|by intros ->].
  by destruct l.
Qed.

(** X2. [LogViewer] shows its placeholder only before the first run: in a
    state reached with an empty log nothing but the topic differs from the
    state first rendered, and once an entry is logged no event empties the
    log again. *)
Theorem waiting_only_before_first_run (events : list Event) (e : Event) :
  let w := run_ initial events in
  (showsWaiting (logs w) = true → w = setTopic (topic w) initial)
  ∧ (showsWaiting (logs w) = false → showsWaiting (logs (react_ w e)) = false).
Proof.
  intros w. split.
  - unfold w. clear w e.
    induction events as [|e events IH] using rev_ind; [done|].
    rewrite (run_snoc JSON_parse_queries JSON_parse_review).
    set (w := run_ initial events) in *.
    rewrite showsWaiting_nil. intros Hnil.
    assert (logs w = []) as Hw.
    { destruct (logs_step w e) as [(_ & _ & Hl)|(added & Hl & _)];
        rewrite Hl in Hnil; [done|]. by apply app_eq_nil in Hnil as [? _]. }
    apply showsWaiting_nil, IH in Hw.
    assert (tasks w = []) as Hts by (by rewrite Hw).
    assert (report w = None) as Hr by (by rewrite Hw).
    assert (abortControllerRef w = None) as Ha by (by rewrite Hw).
    revert Hnil. effect_cases w e; intros Hnil; try done;
      try (by rewrite Hts in Htask); try congruence.
    + by rewrite Hw.
    + unfold stoppedWorld in *. by rewrite Ha in *.
  - rewrite <- !not_true_iff_false, !showsWaiting_nil. intros Hne Hnil.
    destruct (logs_step w e) as [(_ & _ & Hl)|(added & Hl & _)];
      rewrite Hl in Hnil; [done|]. by apply app_eq_nil in Hnil as [? _].
Qed.

(** ** The phase shown *)

Lemma includes_followUpEntry q : includes (message (followUpEntry q)) "follow-up" = true.
Proof. reflexivity. Qed.

Lemma state_followUpCaughtWorld e w : state (followUpCaughtWorld e w) = COMPLETED.
Proof. reflexivity. Qed.

(** The phase is Searching only while the log ends with the entry of a
    follow-up. *)
Lemma searching_step w e :
  (state w = SEARCHING → ∃ q, last (logs w) = Some (followUpEntry q)) →
  state (react_ w e) = SEARCHING → ∃ q, last (logs (react_ w e)) = Some (followUpEntry q).
Proof.
  intros Hw. effect_cases w e; try done.
  - by destruct (stoppedWorld_frame w) as (_ & -> & -> & _).
  - intros _. exists q. simpl. by rewrite last_snoc.
  - rewrite state_park, state_errorWorld. by destruct (isAbort err).
  - advanced_cases w t Hadv; rewrite state_park, ?state_enteredWorld; try done.
    by destruct (truthy_opt (Some (feedback review))).
Qed.

(** X3. In every state an event leaves the controller in, the phase is
    Searching only while the last log entry is the entry of a follow-up
    question: a research run sets Searching and then Compiling before it
    awaits, so it never rests in Searching, and [isProcessing] holds exactly
    when the phase is Searching. *)
Theorem isProcessing_iff_searching (events : list Event) :
  let w := run_ initial events in
  (state w = SEARCHING → ∃ q, last (logs w) = Some (followUpEntry q))
  ∧ isProcessing w = bool_decide (state w = SEARCHING).
Proof.
  intros w.
  assert (state w = SEARCHING → ∃ q, last (logs w) = Some (followUpEntry q)) as Hw.
  { unfold w. clear w. induction events as [|e events IH] using rev_ind; [done|].
    rewrite (run_snoc JSON_parse_queries JSON_parse_review). by apply searching_step. }
  split; [done|]. unfold isProcessing.
  case_bool_decide as Hs; [|done].
  destruct (Hw Hs) as [q ->]. apply includes_followUpEntry.
Qed.

(** ** Cancellation handles *)

(** What one event does to the [AbortController] objects and to the ref
    that holds the current one: nothing, or [stopResearch], or
    [stopResearch] followed by a fresh controller that becomes current. *)
Lemma handles_step w e :
  let w' := react_ w e in
  (controllers w' = controllers w ∧ abortControllerRef w' = abortControllerRef w)
  ∨ (controllers w' = controllers (stoppedWorld w) ∧ abortControllerRef w' = None)
  ∨ (controllers w' = controllers (stoppedWorld w) ++ [false]
     ∧ abortControllerRef w' = Some (length (controllers (stoppedWorld w)))).
Proof.
  intros w'. unfold w'. clear w'.
  effect_cases w e; try (by left); try (by right; right).
  - right. left. split; [done|].
    unfold stoppedWorld. by destruct (abortControllerRef w) eqn:Href.
  - left. by destruct (same_core_errorWorld err w) as (_ & _ & _ & ? & ? & _).
  - left. advanced_cases w t Hadv; try done;
      change (controllers (park ?a ?b ?c)) with (controllers c);
      change (abortControllerRef (park ?a ?b ?c)) with (abortControllerRef c).
    by destruct (same_core_enteredWorld (Some (feedback review))
                   (retryWorld (reviewedWorld tmp review w)))
      as (_ & _ & _ & -> & -> & _).
  - left. by destruct (same_core_followUpCaughtWorld err w) as (_ & _ & _ & ? & ? & _).
Qed.

Lemma aborted_stoppedWorld i w : aborted i w = true → aborted i (stoppedWorld w) = true.
Proof.
  unfold stoppedWorld, aborted. destruct (abortControllerRef w) as [c|]; [|done].
  simpl. destruct (controllers w !! i) as [b|] eqn:Hi; [|done]. intros ->.
  destruct (decide (c = i)) as [->|Hne].
  - rewrite list_lookup_insert_eq; [done|]. by eapply lookup_lt_Some.
  - by rewrite list_lookup_insert_ne, Hi.
Qed.

Lemma aborted_step i w e : aborted i w = true → aborted i (react_ w e) = true.
Proof.
  intros Ha. pose proof (aborted_stoppedWorld i w Ha) as Hs.
  unfold aborted in *.
  destruct (handles_step w e) as [[-> _]|[[-> _]|[-> _]]]; try done.
  destruct (controllers (stoppedWorld w) !! i) as [b|] eqn:Hi; [|done].
  by rewrite (lookup_app_l_Some _ _ _ _ Hi).
Qed.

(** X4. An abort is permanent: a signal that is aborted stays aborted
    whatever happens next, since no code path resets a controller. *)
Theorem abort_is_permanent (w : World) (events : list Event) (signal : nat) :
  aborted signal w = true → aborted signal (run_ w events) = true.
Proof.
  revert w. induction events as [|e events IH]; intros w Ha; [done|].
  change (run_ w (e :: events)) with (run_ (react_ w e) events).
  by apply IH, aborted_step.
Qed.

(** The controller in the ref is the one allocated last. *)
Lemma current_is_last (events : list Event) (c : nat) :
  abortControllerRef (run_ initial events) = Some c →
  S c = length (controllers (run_ initial events)).
Proof.
  revert c. induction events as [|e events IH] using rev_ind; intros c; [done|].
  rewrite (run_snoc JSON_parse_queries JSON_parse_review).
  set (w := run_ initial events) in *.
  destruct (handles_step w e) as [[-> ->]|[[_ ->]|[-> ->]]]; [apply IH|done|].
  intros [= <-]. rewrite length_app. simpl. lia.
Qed.

(** X5. At any time at most one call is live, and it is the one launched
    last: its controller is the current one, and every other call still in
    flight holds an aborted signal. *)
Theorem live_call_is_last_launched (events : list Event) (i : nat) :
  let w := run_ initial events in
  controllers w !! i = Some false →
  S i = length (tasks w)
  ∧ abortControllerRef w = Some i
  ∧ ∀ j t s, tasks w !! j = Some t → signal_of t = Some s → j ≠ i →
      aborted s w = true.
Proof.
  intros w Hi.
  pose proof (Inv_reachable JSON_parse_queries JSON_parse_review events) as Hinv.
  fold w in Hinv.
  pose proof (inv_current _ Hinv _ Hi) as Href.
  split_and!; [|done|].
  - rewrite (inv_len _ Hinv). by apply current_is_last.
  - intros j t s Ht Hs Hne.
    assert (t ≠ Finished) as Hfin by (by intros ->).
    pose proof (inv_signal _ Hinv _ _ Ht Hfin) as Hs'.
    assert (s = j) as -> by congruence.
    assert (j < length (controllers w)) as Hlt.
    { rewrite <- (inv_len _ Hinv). by eapply lookup_lt_Some. }
    apply lookup_lt_is_Some in Hlt as [b Hb].
    unfold aborted. rewrite Hb. destruct b; [done|].
    apply (inv_current _ Hinv) in Hb. congruence.
Qed.

(** X6. [stopResearch] only signals: it aborts the current controller and
    clears the ref, and leaves topic, phase, log, report, queries, retry
    counter and the calls in flight as they are, so the interface keeps
    showing the run until its outstanding call settles.  Afterwards every
    signal handed out so far is aborted, and a second stop changes nothing. *)
Theorem stop_only_signals (events : list Event) :
  let w := run_ initial events in
  let w' := react_ w StopResearch in
  (topic w' = topic w ∧ state w' = state w ∧ logs w' = logs w
   ∧ report w' = report w ∧ queries w' = queries w
   ∧ retryCountRef w' = retryCountRef w ∧ tasks w' = tasks w)
  ∧ isRunning w' = isRunning w
  ∧ abortControllerRef w' = None
  ∧ (∀ j t s, tasks w' !! j = Some t → signal_of t = Some s → aborted s w' = true)
  ∧ react_ w' StopResearch = w'.
Proof.
  intros w w'.
  pose proof (Inv_reachable JSON_parse_queries JSON_parse_review events) as Hinv.
  fold w in Hinv.
  assert (w' = stoppedWorld w) as -> by (unfold w'; simpl; by rewrite stopResearch_eq).
  destruct (stoppedWorld_frame w) as (Htp & Hst & Hlg & Hrp & Hqs & Hrc & Hts).
  assert (abortControllerRef (stoppedWorld w) = None) as Hnone
    by (unfold stoppedWorld; by destruct (abortControllerRef w) eqn:Href).
  split_and!; try done.
  - unfold isRunning. by rewrite Hst.
  - intros j t s Ht Hs. rewrite Hts in Ht.
    assert (t ≠ Finished) as Hfin by (by intros ->).
    pose proof (inv_signal _ Hinv _ _ Ht Hfin) as Hs'.
    assert (s = j) as -> by congruence.
    assert (j < length (controllers (stoppedWorld w))) as Hlt.
    { rewrite length_controllers_stoppedWorld, <- (inv_len _ Hinv).
      by eapply lookup_lt_Some. }
    apply lookup_lt_is_Some in Hlt as [b Hb].
    unfold aborted. rewrite Hb. destruct b; [done|].
    by apply stoppedWorld_no_live in Hb.
  - simpl. rewrite stopResearch_eq. simpl.
    unfold stoppedWorld at 1. by rewrite Hnone.
Qed.

(** ** Calls that settle *)

Lemma logs_followUpCaughtWorld_eq e w :
  logs (followUpCaughtWorld e w)
  = logs w ++ [if isAbort e then followUpStoppedEntry else errorEntry e].
Proof. unfold followUpCaughtWorld, errorWorld. by destruct (isAbort e). Qed.

(** X7. However its call settles, a follow-up leaves the phase at
    Completed, appends one log entry and ends; queries and retry counter stay.
    When the call rejects, was cancelled, or returns no text, the report stays
    as it was, and a failure shows in the log only: an Error entry under the
    phase Completed. *)
Theorem followUp_always_ends_completed (w : World) (tid : nat) (r : ResearchReport)
    (q : string) (s : nat) (outcome : Outcome) :
  let w' := react_ w (Settle tid outcome) in
  tasks w !! tid = Some (AwaitFollowUp r q s) →
  state w' = COMPLETED
  ∧ tasks w' !! tid = Some Finished
  ∧ (∃ entry, logs w' = logs w ++ [entry])
  ∧ queries w' = queries w ∧ retryCountRef w' = retryCountRef w
  ∧ (∀ e, outcome = inl e →
       report w' = report w
       ∧ logs w' = logs w ++ [if isAbort e then followUpStoppedEntry else errorEntry e])
  ∧ (∀ response, outcome = inr response → aborted s w = true →
       report w' = report w ∧ logs w' = logs w ++ [followUpStoppedEntry])
  ∧ (∀ response, outcome = inr response → aborted s w = false →
       truthy_opt (text response) = false →
       report w' = report w ∧ logs w' = logs w ++ [errorEntry noResponse]).
Proof.
  intros w' Ht. unfold w'. clear w'.
  destruct (thrown_ (AwaitFollowUp r q s) outcome w) as [e|] eqn:He.
  - rewrite (react_settle_thrown_followUp _ _ _ _ _ _ _ _ _ Ht He).
    parked w Ht. rewrite state_park, logs_park, logs_followUpCaughtWorld_eq.
    destruct (same_core_followUpCaughtWorld e w) as (Hr & Hq & Hn & _).
    change (report (park ?a ?b ?c)) with (report c).
    change (queries (park ?a ?b ?c)) with (queries c).
    change (retryCountRef (park ?a ?b ?c)) with (retryCountRef c).
    rewrite Hr, Hq, Hn. simpl in He.
    split_and!; try done; [by eexists| | |].
    + intros e' ->. by simplify_eq.
    + intros response -> Ha. rewrite Ha in He. by simplify_eq.
    + intros response -> Ha Htx. rewrite Ha, Htx in He. by simplify_eq.
  - rewrite (react_settle _ _ _ _ _ _ Ht). simpl in He.
    destruct outcome as [|response]; [done|].
    destruct (aborted s w) eqn:Ha; [done|].
    destruct (truthy_opt (text response)) eqn:Htx; [|done].
    destruct (resume_answered JSON_parse_queries JSON_parse_review
                r q s _ w response eq_refl Htx Ha) as (answer & _ & ->).
    cbn [fst snd settled_task]. parked w Ht.
    split_and!; try done; [by eexists|].
    intros response' [= <-] _ Htx'. congruence.
Qed.

(** X8. A call whose signal is aborted cannot write the results of the run:
    when it settles, whatever it settles with, report, queries, retry counter,
    topic and the cancellation handles stay as they are and the call ends.
    Its error handler still runs: one log entry is appended and the phase is
    set, to Idle or Error by [startResearch], to Completed by
    [handleFollowUp]. *)
Theorem cancelled_call_cannot_write (w : World) (tid : nat) (t : Task) (s : nat)
    (outcome : Outcome) :
  let w' := react_ w (Settle tid outcome) in
  tasks w !! tid = Some t → signal_of t = Some s → aborted s w = true →
  (report w' = report w ∧ queries w' = queries w
   ∧ retryCountRef w' = retryCountRef w ∧ topic w' = topic w
   ∧ controllers w' = controllers w ∧ abortControllerRef w' = abortControllerRef w)
  ∧ tasks w' = <[tid := Finished]> (tasks w)
  ∧ (∃ entry, logs w' = logs w ++ [entry])
  ∧ (if is_main t then state w' = IDLE ∨ state w' = ERROR else state w' = COMPLETED).
Proof.
  intros w' Ht Hs Ha. unfold w'. clear w'.
  destruct (is_main t) eqn:Hm.
  - assert (∃ e, thrown_ t outcome w = Some e) as [e He].
    { rewrite (thrown_main _ _ _ _ _ _ Hm Hs), Ha.
      destruct (rejection JSON_parse_queries JSON_parse_review t outcome); by eexists. }
    rewrite (react_settle_thrown_main _ _ _ _ _ _ _ Ht Hm He).
    destruct (same_core_errorWorld e w) as (Hr & Hq & Hn & Hc & Hcs & Hts).
    unfold park. cbn [report queries retryCountRef topic controllers
                      abortControllerRef tasks logs state setTasks].
    rewrite state_errorWorld, logs_errorWorld, Hr, Hq, Hn, Hc, Hcs, Hts.
    split_and!; try done.
    + unfold errorWorld. by destruct (isAbort e).
    + by eexists.
    + destruct (isAbort e); [by left|by right].
  - destruct t as [| | | |r q s'|]; try done. simpl in Hs. simplify_eq.
    assert (∃ e, thrown_ (AwaitFollowUp r q s) outcome w = Some e) as [e He].
    { simpl. rewrite Ha. destruct outcome; by eexists. }
    rewrite (react_settle_thrown_followUp _ _ _ _ _ _ _ _ _ Ht He).
    destruct (same_core_followUpCaughtWorld e w) as (Hr & Hq & Hn & Hc & Hcs & Hts).
    unfold park. cbn [report queries retryCountRef topic controllers
                      abortControllerRef tasks logs state setTasks].
    rewrite logs_followUpCaughtWorld_eq, Hr, Hq, Hn, Hc, Hcs, Hts.
    split_and!; try done.
    + unfold followUpCaughtWorld, errorWorld. by destruct (isAbort e).
    + by eexists.
Qed.

(** ** The sources of the report in place *)

Lemma grounded_usable response s :
  s ∈ uniqueSources (extractSources (groundingChunks_of response)) →
  truthy_opt (uri s) = true ∧ truthy_opt (title s) = true.
Proof. intros Hin%uniqueSources_elem. by apply extractSources_elem in Hin. Qed.

Lemma usable_step w e :
  Inv w →
  (∀ r s, report w = Some r → s ∈ report_sources r →
     truthy_opt (uri s) = true ∧ truthy_opt (title s) = true) →
  ∀ r s, report (react_ w e) = Some r → s ∈ report_sources r →
    truthy_opt (uri s) = true ∧ truthy_opt (title s) = true.
Proof.
  intros Hinv Hw. effect_cases w e; try done;
    change (report (park ?a ?b ?c)) with (report c).
  - destruct (stoppedWorld_frame w) as (_ & _ & _ & -> & _). apply Hw.
  - intros r' s'. simpl.
    destruct (stoppedWorld_frame w) as (_ & _ & _ & -> & _). apply Hw.
  - destruct (same_core_errorWorld err w) as (-> & _). apply Hw.
  - advanced_cases w t Hadv; change (report (park ?a ?b ?c)) with (report c).
    + apply Hw.
    + destruct (same_core_enteredWorld None (reflectedWorld qs w)) as (-> & _).
      apply Hw.
    + intros r s' [= <-] Hin. simpl in Hin.
      apply searchAndCompile_inr in Hcall as (response & _ & _ & _ & ->).
      by apply grounded_usable in Hin.
    + destruct (same_core_enteredWorld (Some (feedback review))
                  (retryWorld (reviewedWorld tmp review w))) as (-> & _).
      intros r s' [= <-] Hin. simpl in Hin.
      destruct (live_task _ _ _ _ Hinv Htask eq_refl (Hlive _ eq_refl)) as (-> & Hl & _).
      destruct (inv_live _ Hinv _ _ Htask Hl) as [Hrep _]. by apply (Hw tmp).
    + intros r s' [= <-] Hin. simpl in Hin.
      destruct (live_task _ _ _ _ Hinv Htask eq_refl (Hlive _ eq_refl)) as (-> & Hl & _).
      destruct (inv_live _ Hinv _ _ Htask Hl) as [Hrep _]. by apply (Hw tmp).
  - destruct (same_core_followUpCaughtWorld err w) as (-> & _). apply Hw.
  - intros r' s' [= <-] Hin. simpl in Hin. unfold updatedSources in Hin.
    destruct (live_task _ _ _ _ Hinv Htask eq_refl Hlive) as (-> & Hl & _).
    pose proof (inv_live _ Hinv _ _ Htask Hl) as Hrep. simpl in Hrep.
    apply elem_of_app in Hin as [Hin|Hin]; [by apply (Hw r)|].
    rewrite newUniqueSources_filter in Hin.
    apply list_elem_of_filter in Hin as [_ Hin]. by apply grounded_usable in Hin.
Qed.

(** X9. Every source of the report in place, in every state the controller
    reaches, has a uri and a title that are present and non-empty, so
    [MarkdownReport] labels each link with its title and never falls back to
    the uri. *)
Theorem report_sources_are_linkable (events : list Event) (r : ResearchReport)
    (s : Web) :
  report (run_ initial events) = Some r → s ∈ report_sources r →
  ∃ u t, uri s = Some u ∧ u ≠ "" ∧ title s = Some t ∧ t ≠ ""
    ∧ sourceLabel s = Some t.
Proof.
  intros Hr Hin.
  assert (truthy_opt (uri s) = true ∧ truthy_opt (title s) = true) as [Hu Ht].
  { revert r s Hr Hin. induction events as [|e events IH] using rev_ind; [done|].
    rewrite (run_snoc JSON_parse_queries JSON_parse_review).
    apply usable_step; [apply Inv_reachable|done]. }
  unfold sourceLabel. rewrite Ht.
  apply truthy_opt_true in Hu as (u & Hu & ?), Ht as (t & Ht & ?).
  by exists u, t.
Qed.

(** ** The rewrite loop *)

(** X10. When a live review asks for a rewrite, the pass re-enters the loop
    with the retry counter raised to the attempt number, which lies between 1
    and [MAX_RETRIES].  With a non-empty feedback the phase is Rewriting, the
    log announces that attempt, and the prompt is the one of a first pass
    followed by the previous version and the feedback.  With an empty
    feedback the pass is not taken for a retry: the phase is Compiling, the
    log entry is the one of a first search, and the prompt sent is exactly
    the prompt of the first pass.  Both prompts are written out. *)
Theorem rewrite_pass_entry (w : World) (tid : nat) (tp : string)
    (qs : list SearchQuery) (md : string) (tmp : ResearchReport) (s : nat)
    (outcome : Outcome) (review : ReviewResult) :
  let w' := react_ w (Settle tid outcome) in
  let attempt := retryCountRef w + 1 in
  tasks w !! tid = Some (AwaitReview tp qs md tmp s) → aborted s w = false →
  reviewReport_ outcome = inr review →
  (score review < 4)%Z → retryCountRef w < MAX_RETRIES →
  tasks w' !! tid = Some (AwaitCompile tp qs (Some (feedback review)) (Some md) s)
  ∧ retryCountRef w' = attempt ∧ 1 ≤ attempt ≤ MAX_RETRIES
  ∧ searchAndCompile_prompt tp qs None None
    = ("Write a comprehensive, professional research report on: " ++ dquote ++ tp
         ++ dquote ++ "." ++ newline ++ "  " ++ newline
         ++ "  Use the following search angles to guide your research, but feel free to follow leads:"
         ++ newline ++ "  " ++ String.concat ", " (map query qs) ++ newline ++ newline
         ++ "  Structure the report with clear headings, bullet points, and a summary."
         ++ newline ++ "  The report should be detailed and academic in tone."
         ++ newline ++ "  " ++ newline
         ++ "  IMPORTANT: You must use the 'googleSearch' tool to find real-time information. "
         ++ newline ++ "  Cite your sources inline or at the end.")%string
  ∧ if truthy (feedback review) then
      state w' = REWRITING
      ∧ last (logs w')
        = Some (mkLog REWRITING
                  ("Rewriting report (Attempt " ++ show_nat attempt ++ "/"
                     ++ show_nat MAX_RETRIES ++ ")...")%string
                  (DetailFeedback (Some (feedback review))))
      ∧ (truthy md = true →
         searchAndCompile_prompt tp qs (Some (feedback review)) (Some md)
         = (searchAndCompile_prompt tp qs None None
              ++ rewriteSection md (feedback review))%string)
      ∧ (truthy md = true →
         searchAndCompile_prompt tp qs (Some (feedback review)) (Some md)
         = (searchAndCompile_prompt tp qs None None
              ++ newline ++ newline ++ "---" ++ newline
              ++ "    PREVIOUS VERSION:" ++ newline
              ++ "    " ++ md ++ newline
              ++ "    " ++ newline
              ++ "    FEEDBACK TO ADDRESS (CRITICAL):" ++ newline
              ++ "    " ++ feedback review ++ newline
              ++ "    " ++ newline
              ++ "    Please re-write the report to address the feedback specifically while maintaining the high quality parts of the original.")%string)
    else
      state w' = COMPILING
      ∧ last (logs w')
        = Some (mkLog SEARCHING
                  "Searching web (via Google Grounding) and compiling report..."
                  NoDetails)
      ∧ searchAndCompile_prompt tp qs (Some (feedback review)) (Some md)
        = searchAndCompile_prompt tp qs None None.
Proof.
  intros w' attempt Ht Ha Hrev Hsc Hn. unfold w', attempt. clear w' attempt.
  rewrite (react_settle _ _ _ _ _ _ Ht), (resume_reviewed _ _ _ _ _ _ _ _ _ _ Hrev Ha).
  assert (loopsBack review w = true) as ->.
  { unfold loopsBack. apply andb_true_iff. split.
    - by apply Z.ltb_lt.
    - by apply Nat.ltb_lt. }
  cbn [fst snd settled_task]. parked w Ht.
  destruct (same_core_enteredWorld (Some (feedback review))
              (retryWorld (reviewedWorld tmp review w))) as (_ & _ & En & _).
  rewrite state_park, logs_park, state_enteredWorld.
  change (retryCountRef (park ?a ?b ?c)) with (retryCountRef c). rewrite En.
  split_and!; [done|done|lia|lia|reflexivity|].
  unfold searchAndCompile_prompt, enteredWorld. cbn [truthy_opt].
  destruct (truthy (feedback review)) eqn:Hfb.
  - split_and!; [done|simpl; by rewrite last_snoc| |].
    + intros ->. reflexivity.
    + intros ->. reflexivity.
  - split_and!; [done|simpl; by rewrite last_snoc|done].
Qed.



(** ** What the components show of the controller's state *)

(** X11. The count logged when a report is compiled is shown by [LogViewer]
    in its details block only when it is not zero: with no source found the
    details are the number 0, which is falsy, so no block is drawn and the
    bare number is rendered in its place. *)
Theorem compiled_count_rendering (w : World) (tid : nat) (tp : string)
    (qs : list SearchQuery) (f p : option string) (s : nat) (outcome : Outcome)
    (md : string) (srcs : list Web) :
  let w' := react_ w (Settle tid outcome) in
  tasks w !! tid = Some (AwaitCompile tp qs f p s) → aborted s w = false →
  searchAndCompile outcome = inr (md, srcs) →
  ∃ entry,
    logs w' = logs w ++ [entry; mkLog REVIEWING "Sending report to reviewer agent..."
                                  NoDetails]
    ∧ step entry = COMPILING
    ∧ message entry = "Report compiled. Sources found:"
    ∧ renderDetails (details entry)
      = match srcs with
        | [] => BareText "0"
        | _ :: _ => BlockStringified (DetailNumber (length srcs))
        end.
Proof.
  intros w' Ht Ha Hs. unfold w'. clear w'.
  rewrite (react_settle _ _ _ _ _ _ Ht), (resume_compiled _ _ _ _ _ _ _ _ _ _ _ Hs Ha).
  cbn [fst snd settled_task]. rewrite logs_park.
  exists (mkLog COMPILING "Report compiled. Sources found:" (DetailNumber (length srcs))).
  split_and!; try done.
  - simpl. by rewrite <- app_assoc.
  - by destruct srcs.
Qed.

(** X12. The entry [handleError] logs for an error that is not an abort is
    of kind Error, and [LogViewer] shows with it the message of the error, or
    the name of the error when the message is empty, and no details block
    when both are empty. *)
Theorem error_detail_rendering (e : JsError) (w : World) :
  isAbort e = false →
  ∃ entry,
    logs (handleError e w).2 = logs w ++ [entry]
    ∧ state (handleError e w).2 = ERROR
    ∧ step entry = ERROR
    ∧ renderDetails (details entry)
      = if truthy (err_message e) then BlockVerbatim (err_message e)
        else if truthy (err_name e) then BlockVerbatim (err_name e)
        else NoBlock.
Proof.
  intros Hab. rewrite handleError_eq. cbn [snd].
  rewrite logs_errorWorld, state_errorWorld, Hab.
  exists (errorEntry e). split_and!; try done.
  unfold errorEntry, renderDetails, details_truthy, String_of_error, truthy.
  cbn [details].
  destruct (String.eqb (err_message e) "") eqn:Hm; cbn [negb].
  - destruct (String.eqb (err_name e) "") eqn:Hn; cbn [negb]; rewrite ?Hm, ?Hn; done.
  - by rewrite Hm.
Qed.

(** X13. The grade [MarkdownReport] shows for a run that ends agrees with
    the decision of the controller: the badge is green exactly when the score
    is at least 4, which is exactly when the log closes with the approval
    entry; a run that ends on exhausted retries gets the amber badge, or, for
    a score of 0, no badge but the bare number. *)
Theorem grade_of_a_finished_run (w : World) (tid : nat) (tp : string)
    (qs : list SearchQuery) (md : string) (tmp : ResearchReport) (s : nat)
    (outcome : Outcome) (review : ReviewResult) :
  let w' := react_ w (Settle tid outcome) in
  tasks w !! tid = Some (AwaitReview tp qs md tmp s) → aborted s w = false →
  reviewReport_ outcome = inr review →
  (4 ≤ score review)%Z ∨ MAX_RETRIES ≤ retryCountRef w →
  ∃ r entry,
    state w' = COMPLETED ∧ report w' = Some r ∧ last (logs w') = Some entry
    ∧ gradeBadge r
      = (if (score review =? 0)%Z then BareScore 0
         else GradeBadge (4 <=? score review)%Z (score review))
    ∧ (gradeBadge r = GradeBadge true (score review) ↔ (4 ≤ score review)%Z)
    ∧ (message entry = "Report approved! Research complete." ↔ (4 ≤ score review)%Z).
Proof.
  intros w' Ht Ha Hrev Hend. unfold w'. clear w'.
  rewrite (react_settle _ _ _ _ _ _ Ht), (resume_reviewed _ _ _ _ _ _ _ _ _ _ Hrev Ha).
  assert (loopsBack review w = false) as ->.
  { unfold loopsBack. apply andb_false_iff.
    destruct Hend as [Hge|Hmax]; [left; by apply Z.ltb_ge|right; by apply Nat.ltb_ge]. }
  cbn [fst snd settled_task]. rewrite state_park, logs_park.
  change (report (park ?a ?b ?c)) with (report c).
  eexists _, _. split_and!; [done|done|simpl; by rewrite last_snoc|..].
  - unfold gradeBadge. cbn [report_score scoredReport].
    destruct (score review =? 0)%Z eqn:Hz; [|done].
    by apply Z.eqb_eq in Hz as ->.
  - unfold gradeBadge. cbn [report_score scoredReport].
    destruct (score review =? 0)%Z eqn:Hz.
    + apply Z.eqb_eq in Hz. split; [done|lia].
    + split.
      * intros [= Hge]. by apply Z.leb_le.
      * intros Hge%Z.leb_le. by rewrite Hge.
  - cbn [message]. destruct (score review <? 4)%Z eqn:Hlt.
    + apply Z.ltb_lt in Hlt. split; [done|lia].
    + apply Z.ltb_ge in Hlt. done.
Qed.

(** ** Launching a call *)

Lemma earlier_calls_stopped w j :
  Inv w → j < length (tasks w) →
  (controllers (stoppedWorld w) ++ [false]) !! j = Some true.
Proof.
  intros Hinv Hj.
  assert (j < length (controllers (stoppedWorld w))) as Hlt
    by (by rewrite length_controllers_stoppedWorld, <- (inv_len _ Hinv)).
  rewrite lookup_app_l by done.
  apply lookup_lt_is_Some in Hlt as [b Hb]. rewrite Hb.
  destruct b; [done|]. by apply stoppedWorld_no_live in Hb.
Qed.

(** What a start on a non-blank topic leaves. *)
Lemma start_segment w :
  Inv w → truthy (trim (topic w)) = true →
  let w' := react_ w StartResearch in
  let tid := length (tasks w) in
  state w' = BRAINSTORMING ∧ report w' = None ∧ queries w' = []
  ∧ retryCountRef w' = 0 ∧ topic w' = topic w
  ∧ logs w'
    = [mkLog IDLE ("Starting research on: " ++ dquote ++ topic w ++ dquote) NoDetails;
       mkLog BRAINSTORMING "Brainstorming search queries..." NoDetails]
  ∧ tasks w' = tasks w ++ [AwaitBrainstorm (topic w) tid]
  ∧ abortControllerRef w' = Some tid ∧ aborted tid w' = false
  ∧ ∀ j, j < tid → aborted j w' = true.
Proof.
  intros Hinv Htopic w' tid.
  assert (length (controllers (stoppedWorld w)) = tid) as Hc.
  { rewrite length_controllers_stoppedWorld. symmetry. apply (inv_len _ Hinv). }
  assert (length (controllers w) = tid) as Hc' by (symmetry; apply (inv_len _ Hinv)).
  unfold w'. change (react_ w StartResearch) with (startResearch w).
  rewrite startResearch_eq, Htopic, Hc'.
  split_and!; try done.
  - unfold startedWorld. simpl. by destruct (stoppedWorld_frame w) as (-> & _).
  - simpl. by rewrite Hc.
  - unfold aborted. simpl. rewrite <- Hc at 1. by rewrite lookup_fresh.
  - intros j Hj. unfold aborted. simpl. by rewrite (earlier_calls_stopped w j).
Qed.

(** X14. Starting on a non-blank topic resets the run at once, before any
    result arrives: the phase is Brainstorming, the report and the queries
    are gone, the retry counter is 0, the log holds the two opening entries,
    every call launched before is cancelled and the new call is live. *)
Theorem start_resets_the_run (events : list Event) :
  let w := run_ initial events in
  let w' := react_ w StartResearch in
  let tid := length (tasks w) in
  truthy (trim (topic w)) = true →
  state w' = BRAINSTORMING ∧ report w' = None ∧ queries w' = []
  ∧ retryCountRef w' = 0 ∧ topic w' = topic w
  ∧ logs w'
    = [mkLog IDLE ("Starting research on: " ++ dquote ++ topic w ++ dquote) NoDetails;
       mkLog BRAINSTORMING "Brainstorming search queries..." NoDetails]
  ∧ tasks w' = tasks w ++ [AwaitBrainstorm (topic w) tid]
  ∧ abortControllerRef w' = Some tid ∧ aborted tid w' = false
  ∧ ∀ j, j < tid → aborted j w' = true.
Proof.
  intros w w' tid Htopic.
  by apply start_segment; [apply Inv_reachable|].
Qed.

(** X15. A follow-up question asked while a report is in place cancels
    every call launched before, the run in flight included, and keeps the
    report, the queries, the retry counter and the log, to which it appends
    its own entry.  The phase is Searching, so the interface shows the
    follow-up as being processed, and the new call holds the report it was
    asked about. *)
Theorem followUp_cancels_and_keeps (events : list Event) (q : string)
    (r : ResearchReport) :
  let w := run_ initial events in
  let w' := react_ w (HandleFollowUp q) in
  let tid := length (tasks w) in
  report w = Some r →
  state w' = SEARCHING ∧ isProcessing w' = true ∧ isRunning w' = true
  ∧ report w' = Some r ∧ queries w' = queries w
  ∧ retryCountRef w' = retryCountRef w
  ∧ logs w' = logs w ++ [followUpEntry q]
  ∧ tasks w' = tasks w ++ [AwaitFollowUp r q tid]
  ∧ abortControllerRef w' = Some tid ∧ aborted tid w' = false
  ∧ ∀ j, j < tid → aborted j w' = true.
Proof.
  intros w w' tid Hr.
  pose proof (Inv_reachable JSON_parse_queries JSON_parse_review events) as Hinv.
  fold w in Hinv.
  assert (length (controllers (stoppedWorld w)) = tid) as Hc.
  { rewrite length_controllers_stoppedWorld. symmetry. apply (inv_len _ Hinv). }
  assert (length (controllers w) = tid) as Hc' by (symmetry; apply (inv_len _ Hinv)).
  destruct (stoppedWorld_frame w) as (Htp & Hst & Hlg & Hrp & Hqs & Hrc & Hts).
  unfold w'. change (react_ w (HandleFollowUp q)) with (handleFollowUp q w).
  rewrite handleFollowUp_eq, Hr, Hc'.
  assert (logs (askedWorld q w) = logs w ++ [followUpEntry q]) as Hlogs
    by (unfold askedWorld; simpl; by rewrite Hlg).
  split_and!; try done.
  - unfold isProcessing. cbn [state logs setTasks askedWorld setLogs setState].
    rewrite Hlg, last_snoc. by rewrite bool_decide_eq_true_2.
  - simpl. by rewrite Hrp.
  - simpl. by rewrite Hc.
  - unfold aborted. simpl. rewrite <- Hc at 1. by rewrite lookup_fresh.
  - intros j Hj. unfold aborted. simpl. by rewrite (earlier_calls_stopped w j).
Qed.

(** ** A run from start to end *)

(** The four segments of a live run, each on the world it finds. *)
Lemma brainstorm_segment w tid tp o qs :
  tasks w !! tid = Some (AwaitBrainstorm tp tid) → aborted tid w = false →
  brainstormQueries_ o = inr qs →
  let w' := react_ w (Settle tid o) in
  tasks w' !! tid = Some (AwaitReflect tp tid) ∧ aborted tid w' = false
  ∧ retryCountRef w' = retryCountRef w
  ∧ logs w'
    = logs w ++ [mkLog BRAINSTORMING
                   ("Generated " ++ show_nat (length qs) ++ " initial queries")
                   (DetailQueries qs);
                 mkLog REFLECTING "Reflecting and refining queries..." NoDetails].
Proof.
  intros Ht Ha Hq w'. unfold w'.
  rewrite (react_settle _ _ _ _ _ _ Ht), (resume_brainstormed _ _ _ _ _ _ _ Hq Ha).
  cbn [fst snd settled_task]. parked w Ht.
  split_and!; try done. simpl. by rewrite <- app_assoc.
Qed.

Lemma reflect_segment w tid tp o qs :
  tasks w !! tid = Some (AwaitReflect tp tid) → aborted tid w = false →
  reflectAndRefineQueries_ o = inr qs →
  let w' := react_ w (Settle tid o) in
  tasks w' !! tid = Some (AwaitCompile tp qs None None tid) ∧ aborted tid w' = false
  ∧ retryCountRef w' = retryCountRef w ∧ queries w' = qs
  ∧ logs w'
    = logs w ++ [mkLog REFLECTING ("Selected top " ++ show_nat (length qs) ++ " queries")
                   (DetailQueries qs);
                 mkLog SEARCHING
                   "Searching web (via Google Grounding) and compiling report..."
                   NoDetails].
Proof.
  intros Ht Ha Hq w'. unfold w'.
  rewrite (react_settle _ _ _ _ _ _ Ht), (resume_reflected _ _ _ _ _ _ _ Hq Ha).
  cbn [fst snd settled_task]. parked w Ht.
  split_and!; try done. simpl. by rewrite <- app_assoc.
Qed.

Lemma compile_segment w tid tp qs f p o md srcs :
  tasks w !! tid = Some (AwaitCompile tp qs f p tid) → aborted tid w = false →
  searchAndCompile o = inr (md, srcs) →
  let w' := react_ w (Settle tid o) in
  let tmp := mkReport tp md srcs None None (retryCountRef w + 1) in
  tasks w' !! tid = Some (AwaitReview tp qs md tmp tid) ∧ aborted tid w' = false
  ∧ retryCountRef w' = retryCountRef w ∧ queries w' = queries w
  ∧ logs w'
    = logs w ++ [mkLog COMPILING "Report compiled. Sources found:"
                   (DetailNumber (length srcs));
                 mkLog REVIEWING "Sending report to reviewer agent..." NoDetails].
Proof.
  intros Ht Ha Hq w' tmp. unfold w', tmp.
  rewrite (react_settle _ _ _ _ _ _ Ht), (resume_compiled _ _ _ _ _ _ _ _ _ _ _ Hq Ha).
  cbn [fst snd settled_task]. parked w Ht.
  split_and!; try done. simpl. by rewrite <- app_assoc.
Qed.

Lemma approve_segment w tid tp qs md tmp o review :
  tasks w !! tid = Some (AwaitReview tp qs md tmp tid) → aborted tid w = false →
  reviewReport_ o = inr review → (4 ≤ score review)%Z →
  let w' := react_ w (Settle tid o) in
  tasks w' !! tid = Some Finished ∧ state w' = COMPLETED
  ∧ report w' = Some (scoredReport tmp review)
  ∧ retryCountRef w' = retryCountRef w ∧ queries w' = queries w
  ∧ logs w'
    = logs w ++ [mkLog REVIEWING
                   ("Review Complete. Score: " ++ show_Z (score review) ++ "/5")
                   (DetailText (feedback review));
                 mkLog COMPLETED "Report approved! Research complete." NoDetails].
Proof.
  intros Ht Ha Hq Hsc w'. unfold w'.
  assert ((score review <? 4)%Z = false) as Hlt by (by apply Z.ltb_ge).
  rewrite (react_settle _ _ _ _ _ _ Ht), (resume_reviewed _ _ _ _ _ _ _ _ _ _ Hq Ha).
  unfold loopsBack. rewrite Hlt. cbn [andb fst snd settled_task]. parked w Ht.
  unfold completedWorld. rewrite Hlt.
  split_and!; try done. simpl. by rewrite <- app_assoc.
Qed.

(** X16. A run that nothing interrupts: started on a non-blank topic in any
    state the controller reaches, with a brainstorm, a reflection, a compile
    and a review that succeed and a score of at least 4, it ends in the phase
    Completed with version 1 of the report, scored, on the topic it was
    started with, the refined queries in place, the retry counter at 0, and a
    log of exactly ten entries. *)
Theorem uninterrupted_run (events : list Event) (o1 o2 o3 o4 : Outcome)
    (qs1 qs2 : list SearchQuery) (md : string) (srcs : list Web)
    (review : ReviewResult) :
  let w := run_ initial events in
  let tid := length (tasks w) in
  let w' := run_ w [StartResearch; Settle tid o1; Settle tid o2; Settle tid o3;
                    Settle tid o4] in
  truthy (trim (topic w)) = true →
  brainstormQueries_ o1 = inr qs1 → reflectAndRefineQueries_ o2 = inr qs2 →
  searchAndCompile o3 = inr (md, srcs) → reviewReport_ o4 = inr review →
  (4 ≤ score review)%Z →
  state w' = COMPLETED
  ∧ report w'
    = Some (mkReport (topic w) md srcs (Some (score review)) (Some (feedback review)) 1)
  ∧ queries w' = qs2 ∧ retryCountRef w' = 0
  ∧ tasks w' !! tid = Some Finished
  ∧ logs w'
    = [mkLog IDLE ("Starting research on: " ++ dquote ++ topic w ++ dquote) NoDetails;
       mkLog BRAINSTORMING "Brainstorming search queries..." NoDetails;
       mkLog BRAINSTORMING
         ("Generated " ++ show_nat (length qs1) ++ " initial queries")
         (DetailQueries qs1);
       mkLog REFLECTING "Reflecting and refining queries..." NoDetails;
       mkLog REFLECTING ("Selected top " ++ show_nat (length qs2) ++ " queries")
         (DetailQueries qs2);
       mkLog SEARCHING
         "Searching web (via Google Grounding) and compiling report..." NoDetails;
       mkLog COMPILING "Report compiled. Sources found:" (DetailNumber (length srcs));
       mkLog REVIEWING "Sending report to reviewer agent..." NoDetails;
       mkLog REVIEWING ("Review Complete. Score: " ++ show_Z (score review) ++ "/5")
         (DetailText (feedback review));
       mkLog COMPLETED "Report approved! Research complete." NoDetails].
Proof.
  intros w tid w' Htopic H1 H2 H3 H4 Hsc.
  destruct (start_segment w (Inv_reachable JSON_parse_queries JSON_parse_review events)
              Htopic) as (_ & _ & _ & Hn0 & _ & Hl0 & Ht0 & _ & Ha0 & _).
  fold tid in Hn0, Hl0, Ht0, Ha0.
  assert (w' = react_ (react_ (react_ (react_ (react_ w StartResearch)
                 (Settle tid o1)) (Settle tid o2)) (Settle tid o3)) (Settle tid o4))
    as -> by reflexivity.
  remember (react_ w StartResearch) as w0 eqn:E0. clear E0.
  assert (tasks w0 !! tid = Some (AwaitBrainstorm (topic w) tid)) as Ht0'
    by (rewrite Ht0; apply lookup_fresh).
  destruct (brainstorm_segment w0 tid _ o1 qs1 Ht0' Ha0 H1) as (Ht1 & Ha1 & Hn1 & Hl1).
  remember (react_ w0 (Settle tid o1)) as w1 eqn:E1. clear E1.
  destruct (reflect_segment w1 tid _ o2 qs2 Ht1 Ha1 H2)
    as (Ht2 & Ha2 & Hn2 & Hq2 & Hl2).
  remember (react_ w1 (Settle tid o2)) as w2 eqn:E2. clear E2.
  destruct (compile_segment w2 tid _ _ _ _ o3 md srcs Ht2 Ha2 H3)
    as (Ht3 & Ha3 & Hn3 & Hq3 & Hl3).
  remember (react_ w2 (Settle tid o3)) as w3 eqn:E3. clear E3.
  destruct (approve_segment w3 tid _ _ _ _ o4 review Ht3 Ha3 H4 Hsc)
    as (Ht4 & Hs4 & Hr4 & Hn4 & Hq4 & Hl4).
  rewrite Hs4, Hr4, Hq4, Hq3, Hq2, Hn4, Hn3, Hn2, Hn1, Hn0, Ht4.
  rewrite Hl4, Hl3, Hl2, Hl1, Hl0.
  by split_and!.
Qed.

(** ** Running means waiting *)

Lemma running_step w e :
  (isRunning w = true → ∃ tid t, tasks w !! tid = Some t ∧ t ≠ Finished) →
  isRunning (react_ w e) = true →
  ∃ tid t, tasks (react_ w e) !! tid = Some t ∧ t ≠ Finished.
Proof.
  intros Hw. effect_cases w e; try done.
  - intros _. eexists _, _. split; [apply lookup_fresh|done].
  - unfold isRunning. destruct (stoppedWorld_frame w) as (_ & -> & _ & _ & _ & _ & ->).
    apply Hw.
  - intros _. eexists _, _. split; [apply lookup_fresh|done].
  - unfold isRunning. rewrite state_park, state_errorWorld. by destruct (isAbort err).
  - advanced_cases w t Hadv; try done; intros _; exists tid; eexists;
      (split; [by parked w Htask|done]).
Qed.

(** X17. Whenever the interface shows a phase as running, a call of the
    controller is still waiting for its service: no event leaves the phase at
    a running one without a call in flight. *)
Theorem running_means_call_outstanding (events : list Event) :
  let w := run_ initial events in
  isRunning w = true → ∃ tid t, tasks w !! tid = Some t ∧ t ≠ Finished.
Proof.
  induction events as [|e events IH] using rev_ind; [done|].
  rewrite (run_snoc JSON_parse_queries JSON_parse_review).
  by apply running_step.
Qed.

End Coverage.

(** ** Duplicates and merges *)

Lemma Map_set_fresh {K V : Type} `{EqDecision K} (m : list (K * V)) k v :
  k ∉ m.*1 → Map_set m k v = m ++ [(k, v)].
Proof.
  induction m as [|[k' v'] m IH]; csimpl; intros Hk; [done|].
  apply not_elem_of_cons in Hk as [Hne Hk].
  rewrite decide_False by done. by rewrite IH.
Qed.

Lemma Map_new_NoDup_id (sources : list Web) :
  NoDup (uri <$> sources) → Map_new (entries_of sources) = entries_of sources.
Proof.
  induction sources as [|x l IH] using rev_ind; intros Hnd; [done|].
  rewrite fmap_app in Hnd. apply NoDup_app in Hnd as (Hl & Hx & _).
  unfold entries_of. rewrite fmap_app. csimpl. rewrite Map_new_snoc.
  fold (entries_of l). rewrite (IH Hl). apply Map_set_fresh.
  rewrite entries_of_keys. intros Hin. apply (Hx _ Hin). by left.
Qed.

(** X18. [uniqueSources] leaves a list alone exactly when its uris are
    pairwise different, so removing duplicates twice is the same as removing
    them once. *)
Theorem uniqueSources_fixpoint (sources : list Web) :
  (uniqueSources sources = sources ↔ NoDup (map uri sources))
  ∧ uniqueSources (uniqueSources sources) = uniqueSources sources.
Proof.
  assert (∀ l, NoDup (map uri l) → uniqueSources l = l) as Hfix.
  { intros l Hnd. rewrite uniqueSources_unfold, Map_new_NoDup_id by done.
    unfold entries_of. rewrite <- list_fmap_compose. apply list_fmap_id. }
  split; [split|].
  - intros <-. apply uniqueSources_NoDup.
  - apply Hfix.
  - apply Hfix, uniqueSources_NoDup.
Qed.

Lemma elem_of_firstSeen {A : Type} `{EqDecision A} (l : list A) x :
  x ∈ firstSeen l ↔ x ∈ l.
Proof.
  induction l as [|y l IH]; simpl; [done|].
  rewrite !elem_of_cons, list_elem_of_filter, IH.
  destruct (decide (x = y)) as [->|Hne]; [split; by left|].
  split; [intros [?|[_ ?]]; [by left|by right]|intros [?|?]; [by left|by right]].
Qed.

Lemma length_firstSeen {A : Type} `{Countable A} (l : list A) :
  length (firstSeen l) = size (list_to_set l : gset A).
Proof.
  rewrite <- (size_list_to_set (C := gset A) (firstSeen l)) by apply firstSeen_NoDup.
  f_equal. apply set_eq. intros x.
  by rewrite !elem_of_list_to_set, elem_of_firstSeen.
Qed.

Lemma length_firstSeen_le {A : Type} `{EqDecision A} (l : list A) :
  length (firstSeen l) ≤ length l.
Proof.
  induction l as [|x l IH]; simpl; [done|].
  pose proof (length_filter (λ y, y ≠ x) (firstSeen l)). lia.
Qed.

Lemma length_extractSources chunks : length (extractSources chunks) ≤ length chunks.
Proof.
  unfold extractSources. induction chunks as [|c chunks IH]; csimpl; [done|].
  destruct (keepWeb (web c)); csimpl; lia.
Qed.

Lemma filter_none {A : Type} (P : A → Prop) `{∀ x, Decision (P x)} (l : list A) :
  (∀ x, x ∈ l → ¬ P x) → filter P l = [].
Proof.
  induction l as [|a l IH]; intros Hall; [done|].
  rewrite filter_cons_False by (apply Hall; left).
  apply IH. intros x Hx. apply Hall. by right.
Qed.

(** X19. The number of sources [searchAndCompile] returns, which the
    controller logs as the sources found, is the number of different uris
    among the usable grounding chunks of the response; it is at most the
    number of chunks. *)
Theorem sources_found_counts_uris (outcome : Outcome) (md : string) (srcs : list Web) :
  searchAndCompile outcome = inr (md, srcs) →
  ∃ response,
    outcome = inr response
    ∧ length srcs
      = size (list_to_set (map uri (extractSources (groundingChunks_of response)))
                : gset (option string))
    ∧ length srcs ≤ length (groundingChunks_of response).
Proof.
  intros (response & -> & _ & _ & ->)%searchAndCompile_inr.
  exists response. split; [done|].
  assert (length (uniqueSources (extractSources (groundingChunks_of response)))
          = length (firstSeen (map uri (extractSources (groundingChunks_of response)))))
    as Hlen by (by rewrite <- uniqueSources_uris, length_map).
  split.
  - by rewrite Hlen, length_firstSeen.
  - rewrite Hlen. etrans; [apply length_firstSeen_le|].
    rewrite length_map. apply length_extractSources.
Qed.

(** X20. The merge of [handleFollowUp] keeps the sources of the report in
    front, in their order, and brings in every uri of the answer; merging the
    same answer sources a second time finds no new source and changes
    nothing. *)
Theorem followUp_merge_is_idempotent (r : ResearchReport)
    (q answer q' answer' : string) (sources : list Web) :
  let r' := answeredReport r q answer sources in
  report_sources r `prefix_of` report_sources r'
  ∧ (∀ s, s ∈ sources → uri s ∈ map uri (report_sources r'))
  ∧ newUniqueSources r' sources = []
  ∧ report_sources (answeredReport r' q' answer' sources) = report_sources r'.
Proof.
  intros r'.
  assert (∀ s, s ∈ sources → uri s ∈ uri <$> report_sources r') as Hall.
  { intros s Hs. unfold r'. cbn [report_sources answeredReport].
    unfold updatedSources. rewrite newUniqueSources_filter, fmap_app, elem_of_app.
    destruct (decide (uri s ∈ uri <$> report_sources r)) as [Hin|Hout]; [by left|].
    right. apply list_elem_of_fmap. exists s. split; [done|].
    by apply list_elem_of_filter. }
  assert (newUniqueSources r' sources = []) as Hnone.
  { rewrite newUniqueSources_filter. apply filter_none.
    intros s Hs Hout. by apply Hout, Hall. }
  split_and!; try done.
  - by apply prefix_app_r.
  - cbn [report_sources answeredReport]. unfold updatedSources at 1.
    by rewrite Hnone, app_nil_r.
Qed.

(** ** The step indicator *)

(** X21. While the phase is one of the five steps, [StepIndicator] shows
    the steps before it as completed, the step itself as active and the steps
    after it as inactive. *)
Theorem steps_follow_the_phase (i j : nat) (current shown : Step) :
  steps !! i = Some current → steps !! j = Some shown →
  getStepStatus (step_id current) (step_id shown)
  = if j <? i then completed else if j =? i then active else inactive.
Proof.
  intros Hi Hj.
  do 5 (destruct i as [|i];
        [do 5 (destruct j as [|j]; [cbv in Hi, Hj; by simplify_eq|]); by cbv in Hj|]).
  by cbv in Hi.
Qed.

(** X22. The progress line reaches exactly the steps shown as completed, a
    quarter of the width for each, and is full once the run is complete. *)
Theorem progress_matches_completed_steps (currentState : AgentState) :
  (progressWidth currentState
   == inject_Z (Z.min 100
        (25 * Z.of_nat (length (filter (λ st, st = completed)
                                  (stepStatuses currentState))))))%Q.
Proof. destruct currentState; vm_compute; reflexivity. Qed.

(** X23. In a phase that is neither a step nor Completed, that is Idle,
    Error and Rewriting, no step is shown as completed and the progress line
    is empty; a step is shown as active only while rewriting, when Compile
    and Review are.  So the indicator of a run that goes from its review into
    a rewrite falls back from a full line to an empty one. *)
Theorem indicator_off_the_steps (currentState : AgentState) :
  currentState ∉ (step_id <$> steps) → currentState ≠ COMPLETED →
  (progressWidth currentState == 0)%Q
  ∧ (progressWidth REVIEWING == 100)%Q
  ∧ (completed ∉ stepStatuses currentState)
  ∧ (active ∈ stepStatuses currentState ↔ currentState = REWRITING)
  ∧ stepStatuses REWRITING = [inactive; inactive; inactive; active; active].
Proof.
  intros Hout Hne.
  assert (currentState = IDLE ∨ currentState = REWRITING ∨ currentState = ERROR)
    as Hcases.
  { destruct currentState; try done; try (by left); try (by right; left);
      try (by right; right); exfalso; apply Hout;
      apply (bool_decide_unpack _); by vm_compute. }
  split; [|split; [by vm_compute|]].
  - destruct Hcases as [Hc|[Hc|Hc]]; rewrite Hc; by vm_compute.
  - destruct Hcases as [Hc|[Hc|Hc]]; rewrite Hc;
      apply (bool_decide_unpack _); by vm_compute.
Qed.

(** ** The prompt of a follow-up *)

Lemma substring_0_idemp n s : substring 0 n (substring 0 n s) = substring 0 n s.
Proof.
  revert s. induction n as [|n IH]; intros [|c s]; simpl; try done.
  by rewrite IH.
Qed.

Lemma substring_0_length n s : String.length (substring 0 n s) = Nat.min n (String.length s).
Proof.
  revert s. induction n as [|n IH]; intros [|c s]; simpl; try done.
  by rewrite IH.
Qed.

Lemma substring_0_prefix n s : ∃ rest, s = (substring 0 n s ++ rest)%string.
Proof.
  revert s. induction n as [|n IH]; intros [|c s]; simpl.
  - by exists "".
  - by exists (String c s).
  - by exists "".
  - destruct (IH s) as [rest Hrest]. exists rest.
    change (String c s = String c (substring 0 n s ++ rest)%string). by f_equal.
Qed.

(** X24. [askFollowUp] sends the first 20000 code units of the report and
    nothing of what follows them: the prompt for a report is the prompt for
    its first 20000 code units, which is the whole report when it is no
    longer than that. *)
Theorem followUp_prompt_truncates (topic_ currentReport question : string) :
  askFollowUp_prompt topic_ currentReport question
  = askFollowUp_prompt topic_ (truncatedReport currentReport) question
  ∧ String.length (truncatedReport currentReport)
    = Nat.min (Z.to_nat 20000) (String.length currentReport)
  ∧ ∃ rest, currentReport = (truncatedReport currentReport ++ rest)%string.
Proof.
  unfold askFollowUp_prompt, truncatedReport.
  generalize (Z.to_nat 20000). intros n. split_and!.
  - by rewrite substring_0_idemp.
  - apply substring_0_length.
  - apply substring_0_prefix.
Qed.

(** ** The further properties on concrete runs *)

Lemma logs_only_grow_witness :
  let w := demo_run initial demo_to_brainstorm in
  let events := [Settle 0 reply_queries; StopResearch; Settle 0 reply_queries] in
  (StartResearch ∉ events)
  ∧ logs w `prefix_of` logs (demo_run w events)
  ∧ length (logs (demo_run w events)) ≤ length (logs w) + 3 * length events.
Proof.
  intros w events.
  assert (StartResearch ∉ events) as Hno.
  { intros Hin. repeat (apply elem_of_cons in Hin as [Hin|Hin]; [discriminate|]).
    by apply not_elem_of_nil in Hin. }
  split; [done|].
  exact (logs_only_grow demo_parse_queries demo_parse_review w events Hno).
Defined.

Lemma abort_is_permanent_witness :
  let w := demo_run initial (demo_to_brainstorm ++ [StopResearch]) in
  aborted 0 w = true
  ∧ aborted 0 (demo_run w [StartResearch; Settle 1 reply_queries]) = true.
Proof.
  intros w. assert (aborted 0 w = true) as Ha by by_vm. split; [done|].
  exact (abort_is_permanent demo_parse_queries demo_parse_review w
           [StartResearch; Settle 1 reply_queries] 0 Ha).
Defined.

Lemma live_call_is_last_launched_witness :
  let w := demo_run initial demo_to_answer in
  controllers w !! 1 = Some false
  ∧ 2 = length (tasks w) ∧ abortControllerRef w = Some 1
  ∧ aborted 0 w = true.
Proof.
  intros w. assert (controllers w !! 1 = Some false) as Hl by by_vm.
  split; [done|].
  destruct (live_call_is_last_launched demo_parse_queries demo_parse_review
              demo_to_answer 1 Hl) as (Hlast & Href & Hrest).
  split_and!; [done|done|].
  apply (Hrest 0 demo_review_task 0); [by_vm|done|done].
Defined.

Lemma followUp_always_ends_completed_witness :
  let w := demo_run initial demo_to_answer in
  let w' := demo_react w (Settle 1 reply_network_error) in
  tasks w !! 1 = Some demo_followUp_task
  ∧ state w' = COMPLETED ∧ report w' = report w
  ∧ logs w' = logs w ++ [errorEntry (mkError "TypeError" "Failed to fetch")].
Proof.
  intros w w'. assert (tasks w !! 1 = Some demo_followUp_task) as Ht by by_vm.
  split; [done|].
  destruct (followUp_always_ends_completed demo_parse_queries demo_parse_review
              w 1 demo_report "why?" 1 reply_network_error Ht)
    as (Hst & _ & _ & _ & _ & Hrej & _).
  destruct (Hrej (mkError "TypeError" "Failed to fetch") eq_refl) as [Hr Hl].
  by split_and!.
Defined.

Lemma cancelled_call_cannot_write_witness :
  let w := demo_run initial demo_to_answer in
  let w' := demo_react w (Settle 0 (reply_review review_ok)) in
  (tasks w !! 0 = Some demo_review_task ∧ aborted 0 w = true)
  ∧ report w' = report w ∧ retryCountRef w' = retryCountRef w
  ∧ (state w' = IDLE ∨ state w' = ERROR).
Proof.
  intros w w'.
  assert (tasks w !! 0 = Some demo_review_task) as Ht by by_vm.
  assert (aborted 0 w = true) as Ha by by_vm.
  split; [done|].
  destruct (cancelled_call_cannot_write demo_parse_queries demo_parse_review
              w 0 demo_review_task 0 (reply_review review_ok) Ht eq_refl Ha)
    as ((Hr & _ & Hn & _) & _ & _ & Hst).
  by split_and!.
Defined.

Lemma report_sources_are_linkable_witness :
  report (demo_run initial demo_to_review) = Some demo_report
  ∧ ∃ u t, uri source_b = Some u ∧ u ≠ "" ∧ title source_b = Some t ∧ t ≠ ""
      ∧ sourceLabel source_b = Some t.
Proof.
  assert (report (demo_run initial demo_to_review) = Some demo_report) as Hr by by_vm.
  split; [done|].
  apply (report_sources_are_linkable demo_parse_queries demo_parse_review
           demo_to_review demo_report source_b Hr).
  right. left.
Defined.

Lemma rewrite_pass_entry_witness :
  let w := demo_run initial demo_to_review in
  let w' := demo_react w (Settle 0 (reply_review review_low)) in
  let wb := demo_run_blank initial demo_to_review in
  let wb' := demo_react_blank wb (Settle 0 (reply_review review_blank)) in
  let nl := String "010"%char "" in
  let dq := String "034"%char "" in
  let first_pass :=
    ("Write a comprehensive, professional research report on: " ++ dq ++
     "batteries" ++ dq ++ "." ++ nl ++ "  " ++ nl ++
     "  Use the following search angles to guide your research, but feel free to follow leads:" ++
     nl ++
     "  solid state battery energy density, solid state battery manufacturers 2025" ++
     nl ++ nl ++
     "  Structure the report with clear headings, bullet points, and a summary." ++
     nl ++ "  The report should be detailed and academic in tone." ++ nl ++ "  " ++
     nl ++
     "  IMPORTANT: You must use the 'googleSearch' tool to find real-time information. " ++
     nl ++ "  Cite your sources inline or at the end.")%string in
  (tasks w !! 0 = Some demo_review_task ∧ aborted 0 w = false
   ∧ reviewReport demo_parse_review (reply_review review_low) = inr review_low)
  ∧ (tasks wb !! 0 = Some demo_review_task ∧ aborted 0 wb = false
     ∧ reviewReport demo_parse_review_blank (reply_review review_blank)
       = inr review_blank)
  ∧ (retryCountRef w' = 1 ∧ state w' = REWRITING
     ∧ last (logs w')
       = Some (mkLog REWRITING "Rewriting report (Attempt 1/2)..."
                 (DetailFeedback (Some "add depth")))
     ∧ searchAndCompile_prompt "batteries" demo_queries (Some "add depth")
         (Some "# Report")
       = (first_pass ++ nl ++ nl ++ "---" ++ nl ++
          "    PREVIOUS VERSION:" ++ nl ++ "    # Report" ++ nl ++ "    " ++ nl ++
          "    FEEDBACK TO ADDRESS (CRITICAL):" ++ nl ++ "    add depth" ++ nl ++
          "    " ++ nl ++
          "    Please re-write the report to address the feedback specifically while maintaining the high quality parts of the original.")%string)
  ∧ (retryCountRef wb' = 1 ∧ state wb' = COMPILING
     ∧ last (logs wb')
       = Some (mkLog SEARCHING
                 "Searching web (via Google Grounding) and compiling report..."
                 NoDetails)
     ∧ searchAndCompile_prompt "batteries" demo_queries (Some "") (Some "# Report")
       = first_pass).
Proof.
  intros w w' wb wb' nl dq first_pass.
  assert (tasks w !! 0 = Some demo_review_task) as Ht by by_vm.
  assert (aborted 0 w = false) as Ha by by_vm.
  assert (reviewReport demo_parse_review (reply_review review_low) = inr review_low)
    as Hrev by by_vm.
  assert (tasks wb !! 0 = Some demo_review_task) as Htb by by_vm.
  assert (aborted 0 wb = false) as Hab by by_vm.
  assert (reviewReport demo_parse_review_blank (reply_review review_blank)
          = inr review_blank) as Hrevb by by_vm.
  split; [exact (conj Ht (conj Ha Hrev))|].
  split; [exact (conj Htb (conj Hab Hrevb))|].
  destruct (rewrite_pass_entry demo_parse_queries demo_parse_review
              w 0 "batteries" demo_queries "# Report" demo_report 0
              (reply_review review_low) review_low Ht Ha Hrev)
    as (_ & Hn & _ & Hbase & Hst & Hlog & _ & Hprompt); [simpl; lia|vm_compute; lia|].
  destruct (rewrite_pass_entry demo_parse_queries demo_parse_review_blank
              wb 0 "batteries" demo_queries "# Report" demo_report 0
              (reply_review review_blank) review_blank Htb Hab Hrevb)
    as (_ & Hnb & _ & _ & Hstb & Hlogb & Hpromptb); [simpl; lia|vm_compute; lia|].
  split; split_and!.
  - exact Hn.
  - exact Hst.
  - etrans; [exact Hlog|by_vm].
  - etrans; [exact (Hprompt eq_refl)|by_vm].
  - exact Hnb.
  - exact Hstb.
  - exact Hlogb.
  - etrans; [exact Hpromptb|]. etrans; [exact Hbase|by_vm].
Defined.

Lemma uninterrupted_run_witness :
  let w := demo_run initial [SetTopic "batteries"] in
  let w' := demo_run w [StartResearch; Settle 0 reply_queries; Settle 0 reply_queries;
                        Settle 0 reply_report; Settle 0 (reply_review review_ok)] in
  truthy (trim (topic w)) = true
  ∧ state w' = COMPLETED
  ∧ report w'
    = Some (mkReport "batteries" "# Report" [source_a_again; source_b]
              (Some 4%Z) (Some "fine") 1)
  ∧ length (logs w') = 10.
Proof.
  intros w w'. assert (truthy (trim (topic w)) = true) as Htopic by by_vm.
  split; [done|].
  destruct (uninterrupted_run demo_parse_queries demo_parse_review
              [SetTopic "batteries"] reply_queries reply_queries reply_report
              (reply_review review_ok) demo_queries demo_queries "# Report"
              [source_a_again; source_b] review_ok Htopic)
    as (Hst & Hr & _ & _ & _ & Hl); [by_vm|by_vm|by_vm|by_vm|simpl; lia|].
  split_and!; [exact Hst|exact Hr|exact (f_equal length Hl)].
Defined.

Lemma compiled_count_rendering_witness :
  let w := demo_run initial demo_to_compile in
  let w' := demo_react w (Settle 0 reply_bare) in
  (tasks w !! 0 = Some demo_compile_task ∧ aborted 0 w = false
   ∧ searchAndCompile reply_bare = inr ("# Report", []))
  ∧ ∃ entry,
      logs w' = logs w ++ [entry; mkLog REVIEWING "Sending report to reviewer agent..."
                                    NoDetails]
      ∧ step entry = COMPILING
      ∧ message entry = "Report compiled. Sources found:"
      ∧ renderDetails (details entry) = BareText "0".
Proof.
  intros w w'.
  assert (tasks w !! 0 = Some demo_compile_task) as Ht by by_vm.
  assert (aborted 0 w = false) as Ha by by_vm.
  assert (searchAndCompile reply_bare = inr ("# Report", [])) as Hs by by_vm.
  split; [done|].
  exact (compiled_count_rendering demo_parse_queries demo_parse_review
           w 0 "batteries" demo_queries None None 0 reply_bare "# Report" [] Ht Ha Hs).
Defined.

Lemma error_detail_rendering_witness :
  isAbort (mkError "TypeError" "") = false
  ∧ ∃ entry,
      logs (handleError (mkError "TypeError" "") initial).2 = logs initial ++ [entry]
      ∧ state (handleError (mkError "TypeError" "") initial).2 = ERROR
      ∧ step entry = ERROR
      ∧ renderDetails (details entry) = BlockVerbatim "TypeError".
Proof.
  split; [reflexivity|].
  exact (error_detail_rendering (mkError "TypeError" "") initial eq_refl).
Defined.

Lemma grade_of_a_finished_run_witness :
  let w := demo_run initial demo_to_review in
  let w' := demo_react w (Settle 0 (reply_review review_ok)) in
  (tasks w !! 0 = Some demo_review_task ∧ aborted 0 w = false)
  ∧ ∃ r, state w' = COMPLETED ∧ report w' = Some r
      ∧ gradeBadge r = GradeBadge true 4.
Proof.
  intros w w'.
  assert (tasks w !! 0 = Some demo_review_task) as Ht by by_vm.
  assert (aborted 0 w = false) as Ha by by_vm.
  split; [done|].
  destruct (grade_of_a_finished_run demo_parse_queries demo_parse_review
              w 0 "batteries" demo_queries "# Report" demo_report 0
              (reply_review review_ok) review_ok Ht Ha)
    as (r & entry & Hst & Hr & _ & Hg & _); [by_vm|left; simpl; lia|].
  exists r. by split_and!.
Defined.

Lemma sources_found_counts_uris_witness :
  searchAndCompile reply_report = inr ("# Report", [source_a_again; source_b])
  ∧ ∃ response,
      reply_report = inr response
      ∧ 2 = size (list_to_set (map uri (extractSources (groundingChunks_of response)))
                    : gset (option string))
      ∧ 2 ≤ length (groundingChunks_of response).
Proof.
  assert (searchAndCompile reply_report = inr ("# Report", [source_a_again; source_b]))
    as Hs by by_vm.
  split; [done|].
  exact (sources_found_counts_uris reply_report "# Report"
           [source_a_again; source_b] Hs).
Defined.

Lemma steps_follow_the_phase_witness :
  (steps !! 3 = Some (mkStep COMPILING "Compile")
   ∧ steps !! 1 = Some (mkStep REFLECTING "Reflect"))
  ∧ getStepStatus COMPILING REFLECTING = completed.
Proof.
  split; [by split|].
  exact (steps_follow_the_phase 3 1 (mkStep COMPILING "Compile")
           (mkStep REFLECTING "Reflect") eq_refl eq_refl).
Defined.

Lemma indicator_off_the_steps_witness :
  ((REWRITING ∉ (step_id <$> steps)) ∧ REWRITING ≠ COMPLETED)
  ∧ (progressWidth REWRITING == 0)%Q
  ∧ (completed ∉ stepStatuses REWRITING).
Proof.
  assert (REWRITING ∉ (step_id <$> steps)) as Hout
    by (apply (bool_decide_unpack _); by vm_compute).
  assert (REWRITING ≠ COMPLETED) as Hne by done.
  split; [done|].
  destruct (indicator_off_the_steps REWRITING Hout Hne) as (Hw & _ & Hc & _).
  by split.
Defined.

Lemma start_resets_the_run_witness :
  let w := demo_run initial demo_to_review in
  let w' := demo_react w StartResearch in
  truthy (trim (topic w)) = true
  ∧ state w' = BRAINSTORMING ∧ report w' = None
  ∧ aborted 1 w' = false ∧ aborted 0 w' = true.
Proof.
  intros w w'. assert (truthy (trim (topic w)) = true) as Htopic by by_vm.
  split; [done|].
  destruct (start_resets_the_run demo_parse_queries demo_parse_review
              demo_to_review Htopic)
    as (Hst & Hr & _ & _ & _ & _ & _ & _ & Hlive & Hold).
  split_and!; [exact Hst|exact Hr|exact Hlive|].
  apply (Hold 0). by_vm.
Defined.

Lemma followUp_cancels_and_keeps_witness :
  let w := demo_run initial demo_to_review in
  let w' := demo_react w (HandleFollowUp "why?") in
  report w = Some demo_report
  ∧ state w' = SEARCHING ∧ isProcessing w' = true ∧ report w' = Some demo_report
  ∧ aborted 0 w' = true.
Proof.
  intros w w'. assert (report w = Some demo_report) as Hr by by_vm.
  split; [done|].
  destruct (followUp_cancels_and_keeps demo_parse_queries demo_parse_review
              demo_to_review "why?" demo_report Hr)
    as (Hst & Hp & _ & Hr' & _ & _ & _ & _ & _ & _ & Hold).
  split_and!; [exact Hst|exact Hp|exact Hr'|].
  apply (Hold 0). by_vm.
Defined.

Lemma running_means_call_outstanding_witness :
  let w := demo_run initial demo_to_review in
  isRunning w = true ∧ ∃ tid t, tasks w !! tid = Some t ∧ t ≠ Finished.
Proof.
  intros w. assert (isRunning w = true) as Hrun by by_vm.
  split; [done|].
  exact (running_means_call_outstanding demo_parse_queries demo_parse_review
           demo_to_review Hrun).
Defined.

